(** * Political-spectrum-app: analysis pipeline and narration scheduler

    A shallow embedding of the core logic of [src/index.tsx] (and of the two
    earlier variants of the same file): JSON extraction from a free-text
    response, the derivation of the [latest] headlines, the reconciliation of
    the article-search response, the narration queue and the speech session.

    JavaScript strings are modelled by [string]; a character stands for one
    code unit (restricted to the range 0..255).  Indices returned by
    [indexOf]/[lastIndexOf] are integers with [-1] for "not found", as in the
    source. *)

From Stdlib Require Import String Ascii List ZArith Bool Arith Lia.
From Stdlib Require Import Permutation Sorted QArith DecimalString.
Import ListNotations.

Open Scope string_scope.
Open Scope list_scope.
Open Scope Z_scope.

(** ** The JavaScript primitives the program relies on *)

Module JS.

(** [s.indexOf(c)] for a one-character pattern. *)
Fixpoint indexOf_from (c : ascii) (s : string) (k : Z) : Z :=
  match s with
  | EmptyString => -1
  | String a s' => if Ascii.eqb a c then k else indexOf_from c s' (k + 1)
  end.

Definition indexOf (c : ascii) (s : string) : Z := indexOf_from c s 0.

(** [s.lastIndexOf(c)] for a one-character pattern. *)
Fixpoint lastIndexOf_from (c : ascii) (s : string) (k best : Z) : Z :=
  match s with
  | EmptyString => best
  | String a s' =>
      lastIndexOf_from c s' (k + 1) (if Ascii.eqb a c then k else best)
  end.

Definition lastIndexOf (c : ascii) (s : string) : Z :=
  lastIndexOf_from c s 0 (-1).

(** [s.substring(a, b)]: both bounds are clamped to [0, length] and swapped
    when they come in the wrong order. *)
Definition clamp (n : Z) (s : string) : Z :=
  Z.max 0 (Z.min n (Z.of_nat (String.length s))).

Definition substring (s : string) (a b : Z) : string :=
  let lo := Z.min (clamp a s) (clamp b s) in
  let hi := Z.max (clamp a s) (clamp b s) in
  String.substring (Z.to_nat lo) (Z.to_nat (hi - lo)) s.

(** White space in the sense of [String.prototype.trim], for the code units
    of the model: TAB, LF, VT, FF, CR, SPACE and NO-BREAK SPACE. *)
Definition is_ws (c : ascii) : bool :=
  match nat_of_ascii c with
  | 9%nat | 10%nat | 11%nat | 12%nat | 13%nat | 32%nat | 160%nat => true
  | _ => false
  end.

Fixpoint trimStart (s : string) : string :=
  match s with
  | EmptyString => EmptyString
  | String a s' => if is_ws a then trimStart s' else s
  end.

(** [trimEnd] keeps a character when it is not white space or when something
    survives after it. *)
Fixpoint trimEnd (s : string) : string :=
  match s with
  | EmptyString => EmptyString
  | String a s' =>
      match trimEnd s' with
      | EmptyString => if is_ws a then EmptyString else String a EmptyString
      | t => String a t
      end
  end.

Definition trim (s : string) : string := trimEnd (trimStart s).

(** [s.startsWith(p)] *)
Definition startsWith (p s : string) : bool := String.prefix p s.

(** [s.includes(p)] *)
Fixpoint includes (p s : string) : bool :=
  String.prefix p s ||
  match s with
  | EmptyString => false
  | String _ s' => includes p s'
  end.

(** [arr.find(p)] *)
Definition find {A : Type} (p : A -> bool) (l : list A) : option A :=
  List.find p l.

End JS.

(** ** JSON values *)

(** The values [JSON.parse] can return, together with [undefined], which
    arises when a property that is not there is read.  A number is the
    rational its literal denotes (the rounding to a double is not
    modelled). *)
#[warnings="-register-all"]
Inductive jsval : Type :=
| VUndefined
| VNull
| VBool (b : bool)
| VNum (q : Q)
| VStr (s : string)
| VArr (items : list jsval)
| VObj (fields : list (string * jsval)).

(** The requests the program sends to the AI service.  A prompt is a fixed
    text with holes; the model keeps the values that fill the holes. *)
Inductive Prompt : Type :=
| SearchPrompt (topic : string)
| ClassifyPrompt (titleA sourceA titleB sourceB : jsval)
| AnalysisPrompt (topic : string)
    (rightTitle rightSource rightUrl leftTitle leftSource leftUrl : jsval).

(** ** Exceptions and observable events *)

(** A thrown exception: an [Error] made by the program, a [TypeError]
    raised by the engine (property access on [null] or [undefined], call of
    a non-function), or a promise rejected with a value that is not an
    [Error], of which the model keeps what the console prints. *)
Inductive exn : Type :=
| Error (message : string)
| TypeError (what : string)
| Rejected (printed : string).

(** What [console.error(err)] prints of the caught value; the text of an
    engine-made [TypeError] is fixed by the engine, the model keeps the
    offending expression. *)
Definition printed (e : exn) : string :=
  match e with
  | Error m => m
  | TypeError w => ("TypeError: " ++ w)%string
  | Rejected p => p
  end.

(** [err instanceof Error ? err.message : "An unknown error occurred."]:
    the message the [catch] blocks of [getAnalysis] show.  A [TypeError]
    is an [Error]. *)
Definition message (e : exn) : string :=
  match e with
  | Error m => m
  | TypeError w => ("TypeError: " ++ w)%string
  | Rejected _ => "An unknown error occurred."
  end.

(** What a run does that an observer can see besides the final state: a
    call of [console.error] or [console.warn] (with its leading label), a
    transient [setLoadingMessage], a request sent to the AI service. *)
Inductive event : Type :=
| ConsoleError (label : string)
| ConsoleWarn (label : string)
| LoadingMessage (text : string)
| Request (p : Prompt).

(** Computations that may throw and that append to the trace of events. *)
Definition M (A : Type) : Type := list event -> (exn + A) * list event.

Definition ret {A} (a : A) : M A := fun l => (inr a, l).

Definition throw {A} (e : exn) : M A := fun l => (inl e, l).

Definition bind {A B} (m : M A) (k : A -> M B) : M B :=
  fun l =>
    match m l with
    | (inl e, l') => (inl e, l')
    | (inr a, l') => k a l'
    end.

Definition try_catch {A} (m : M A) (h : exn -> M A) : M A :=
  fun l =>
    match m l with
    | (inl e, l') => h e l'
    | (inr a, l') => (inr a, l')
    end.

Definition emit (e : event) : M unit :=
  fun l => (inr tt, l ++ [e]).

Notation "x <- m ;; k" := (bind m (fun x => k))
  (at level 61, m at next level, right associativity).
Notation "m ;;; k" := (bind m (fun _ => k))
  (at level 61, right associativity).

(** The outcome of a computation started with an empty trace. *)
Definition outcome {A} (m : M A) : exn + A := fst (m []).

Definition trace {A} (m : M A) : list event := snd (m []).

(** The parts of the platform the program calls and the model leaves open. *)
Class Platform : Type := {
  (** [JSON.parse]; [None] when it throws a [SyntaxError]. *)
  JSON_parse : string -> option jsval;
  (** [new Date(s).getTime()]; [None] for [NaN] (an invalid date). *)
  Date_getTime : string -> option Z;
  (** [v >= n] for a [v] that is not a number (its [ToNumber] coercion). *)
  coerced_ge : jsval -> Z -> bool;
  (** What [Array.prototype.sort] does when the comparator is not
      consistent, which ECMAScript leaves to the engine: given the verdict
      of the comparator for every pair of positions of the array, the
      positions in the order the engine leaves them. *)
  sort_order : list (list Z) -> list nat
}.

(** What surrounds one run of the pipeline: whether the client was created,
    what the service answers to a request (a rejected promise, or the [text]
    of the response), and the clock: [clock k] is what
    [new Date().toISOString()] gives during the [k]-th normalization of the
    run. *)
Class Environment : Type := {
  client : bool;
  generateContent : Prompt -> exn + string;
  clock : nat -> string
}.

Module Json.

(** Truthiness ([ToBoolean]). *)
Definition truthy (v : jsval) : bool :=
  match v with
  | VUndefined | VNull => false
  | VBool b => b
  | VNum q => negb (Qeq_bool q 0)
  | VStr s => negb (String.eqb s EmptyString)
  | VArr _ | VObj _ => true
  end.

(** The value of an own property, [undefined] when the object has none of
    that name. *)
Fixpoint lookup (k : string) (fields : list (string * jsval)) : jsval :=
  match fields with
  | [] => VUndefined
  | (k', v) :: rest => if String.eqb k' k then v else lookup k rest
  end.

(** A length as a number. *)
Definition num_of_nat (n : nat) : jsval := VNum (inject_Z (Z.of_nat n)).

(** [v.k] on a value that is neither [null] nor [undefined], for a
    property name [k] that is not an array index: an own property on
    objects, [length] on arrays and strings, [undefined] otherwise. *)
Definition field (v : jsval) (k : string) : jsval :=
  match v with
  | VObj fields => lookup k fields
  | VArr items =>
      if String.eqb k "length" then num_of_nat (List.length items)
      else VUndefined
  | VStr s =>
      if String.eqb k "length" then num_of_nat (String.length s)
      else VUndefined
  | _ => VUndefined
  end.

(** [v.k]: a [TypeError] on [null] and [undefined]. *)
Definition getp (v : jsval) (k : string) : M jsval :=
  match v with
  | VUndefined | VNull => throw (TypeError k)
  | _ => ret (field v k)
  end.

(** [a === b] for two values that come from different [JSON.parse] calls:
    primitives are compared by value, two objects or arrays are never the
    same reference. *)
Definition strict_eq (a b : jsval) : bool :=
  match a, b with
  | VUndefined, VUndefined => true
  | VNull, VNull => true
  | VBool x, VBool y => Bool.eqb x y
  | VNum x, VNum y => Qeq_bool x y
  | VStr x, VStr y => String.eqb x y
  | _, _ => false
  end.

(** [v >= n] *)
Definition ge `{Platform} (v : jsval) (n : Z) : bool :=
  match v with
  | VNum q => Qle_bool (inject_Z n) q
  | VUndefined => false
  | _ => coerced_ge v n
  end.

(** [{...o, k: v}]: the property keeps its place when [o] already has it
    and is added at the end otherwise. *)
Fixpoint set_field (k : string) (v : jsval) (fields : list (string * jsval))
  : list (string * jsval) :=
  match fields with
  | [] => [(k, v)]
  | (k', v') :: rest =>
      if String.eqb k' k then (k, v) :: rest
      else (k', v') :: set_field k v rest
  end.

End Json.

(** ** JSON extraction: [safeParseJson] *)

(** The message of the error [safeParseJson] throws. *)
Definition invalid_format_message : string :=
  "The AI returned an invalid format. Please try again.".

(** The error kind the specification calls [MalformedResponse]. *)
Definition MalformedResponse : exn := Error invalid_format_message.

(** [safeParseJson]: every exception of the [try] block, the
    [SyntaxError] of [JSON.parse] included, is logged and replaced. *)
Definition safeParseJson `{Platform} (jsonString : string) : M jsval :=
  try_catch
    (let startIndex := JS.indexOf "{" jsonString in
     let endIndex := JS.lastIndexOf "}" jsonString in
     if (startIndex =? -1) || (endIndex =? -1) || (endIndex <? startIndex)
     then throw (Error "Could not find a valid JSON object in the response.")
     else
       let jsonText := JS.substring jsonString startIndex (endIndex + 1) in
       match JSON_parse jsonText with
       | Some v => ret v
       | None => throw (Error "SyntaxError")
       end)
    (fun e =>
       emit (ConsoleError "Failed to parse JSON response:") ;;;
       throw MalformedResponse).

(** ** [Array.prototype.sort] *)

Module JSArray.

Section Sort.
Context `{Platform} {A : Type}.

(** The comparator returns a number; [None] stands for [NaN], which
    [sort] reads as [+0]. *)
Variable comparefn : A -> A -> option Z.

(** The comparator's verdict as [sort] reads it. *)
Definition compare_value (a b : A) : Z :=
  match comparefn a b with
  | Some v => v
  | None => 0
  end.

(** [x] goes in front of the first element it does not have to follow. *)
Fixpoint insert (x : A) (l : list A) : list A :=
  match l with
  | [] => [x]
  | y :: l' =>
      if compare_value x y <=? 0 then x :: y :: l' else y :: insert x l'
  end.

(** The stable sort: the list ECMAScript requires of every engine when the
    comparator is consistent. *)
Fixpoint stable (l : list A) : list A :=
  match l with
  | [] => []
  | x :: l' => insert x (stable l')
  end.

(** The comparator is a consistent comparator for the elements of the
    array, in the sense of ECMAScript: every element equals itself, equality
    is symmetric, and equality, less-than and greater-than are
    transitive. *)
Definition consistent (l : list A) : bool :=
  forallb
    (fun a =>
       (compare_value a a =? 0)
       && forallb
            (fun b =>
               implb (compare_value a b =? 0) (compare_value b a =? 0)
               && forallb
                    (fun c =>
                       implb ((compare_value a b =? 0)
                              && (compare_value b c =? 0))
                             (compare_value a c =? 0)
                       && implb ((compare_value a b <? 0)
                                 && (compare_value b c <? 0))
                                (compare_value a c <? 0)
                       && implb ((0 <? compare_value a b)
                                 && (0 <? compare_value b c))
                                (0 <? compare_value a c))
                    l)
            l)
    l.

(** The verdict of the comparator for every pair of positions. *)
Definition verdicts (l : list A) : list (list Z) :=
  map (fun a => map (compare_value a) l) l.

(** Every position below [n] once. *)
Definition rearrangement (n : nat) (ps : list nat) : bool :=
  (List.length ps =? n)%nat
  && forallb (fun i => existsb (Nat.eqb i) ps) (seq 0 n).

(** The elements at the given positions. *)
Definition pick (ps : list nat) (l : list A) : list A :=
  flat_map (fun i => match nth_error l i with
                     | Some x => [x]
                     | None => []
                     end) ps.

(** [arr.sort(comparefn)].  With a consistent comparator the result is the
    stable sort.  Otherwise the order is the engine's; it is a
    rearrangement of the array (the model leaves the array as it is should
    the platform answer with anything else). *)
Definition sort (l : list A) : list A :=
  if consistent l then stable l
  else
    let ps := sort_order (verdicts l) in
    if rearrangement (List.length l) ps then pick ps l else l.
End Sort.

(** [arr.slice(0, n)] *)
Definition slice0 {A : Type} (n : nat) (l : list A) : list A := firstn n l.

End JSArray.

(** ** Headline discovery: [fetchHeadlines] *)

Module Headlines.

Record Headline : Type := {
  headline : string;
  source : string;
  emoji : string;
  publishedAt : string
}.

Record Headlines : Type := {
  leftHeadlines : list Headline;
  rightHeadlines : list Headline
}.

(** The part of the React state the fetch writes. *)
Record State : Type := {
  headlines : option Headlines;
  latestHeadlines : option (list Headline);
  headlinesLoading : bool;
  headlinesError : option string
}.

(** [(a, b) => new Date(b.publishedAt).getTime() - new Date(a.publishedAt).getTime()];
    [new Date] never throws, so the [catch] branch of the source is dead and
    an invalid date gives [NaN]. *)
Definition byRecency `{Platform} (a b : Headline) : option Z :=
  match Date_getTime (publishedAt b), Date_getTime (publishedAt a) with
  | Some tb, Some ta => Some (tb - ta)
  | _, _ => None
  end.

(** [sortHeadlines], called on the fresh arrays [filter] returns. *)
Definition sortHeadlines `{Platform} (hs : list Headline) : list Headline :=
  JSArray.sort byRecency hs.

(** [new Set(xs).has(x)] on strings *)
Definition set_has (xs : list string) (x : string) : bool :=
  existsb (String.eqb x) xs.

(** [latest]: the first two of the pooled lists once sorted. *)
Definition latestOf `{Platform} (parsedJson : Headlines) : list Headline :=
  let allHeadlines := leftHeadlines parsedJson ++ rightHeadlines parsedJson in
  JSArray.slice0 2 (JSArray.sort byRecency allHeadlines).

(** What is left on each side once the latest ones are taken out. *)
Definition remainingOf `{Platform} (parsedJson : Headlines) : Headlines :=
  let latestHeadlinesSet := map headline (latestOf parsedJson) in
  let remainingLeft :=
    filter (fun h => negb (set_has latestHeadlinesSet (headline h)))
           (leftHeadlines parsedJson) in
  let remainingRight :=
    filter (fun h => negb (set_has latestHeadlinesSet (headline h)))
           (rightHeadlines parsedJson) in
  {| leftHeadlines := sortHeadlines remainingLeft;
     rightHeadlines := sortHeadlines remainingRight |}.

(** [fetchHeadlines], given whether the client exists and what the request
    and [JSON.parse(...) as Headlines] produced: an exception, or the typed
    response. *)
Definition fetchHeadlines `{Platform} (client : bool)
    (response : exn + Headlines) (st : State) : M State :=
  let st1 := {| headlines := headlines st;
                latestHeadlines := latestHeadlines st;
                headlinesLoading := true;
                headlinesError := None |} in
  st2 <- try_catch
    (parsedJson <- (if client then
                      match response with
                      | inl e => throw e
                      | inr p => ret p
                      end
                    else throw (Error "AI client not initialized.")) ;;
     ret {| headlines := Some (remainingOf parsedJson);
            latestHeadlines := Some (latestOf parsedJson);
            headlinesLoading := headlinesLoading st1;
            headlinesError := headlinesError st1 |})
    (fun err =>
       emit (ConsoleError "Error fetching headlines:") ;;;
       ret {| headlines := headlines st1;
              latestHeadlines := latestHeadlines st1;
              headlinesLoading := headlinesLoading st1;
              headlinesError := Some "Failed to fetch headlines." |}) ;;
  ret {| headlines := headlines st2;
         latestHeadlines := latestHeadlines st2;
         headlinesLoading := false;
         headlinesError := headlinesError st2 |}.

End Headlines.

(** ** The speech session *)

Module Speech.

Record Voice : Type := {
  name : string;
  lang : string;
  localService : bool;
  voiceURI : string
}.

Record Utterance : Type := {
  text : string;
  voice : option Voice;
  rate : Q;
  pitch : Q
}.

Record QueueItem : Type := {
  utterance : Utterance;
  cardId : string
}.

(** [speechQueueRef.current] *)
Record SpeechQueue : Type := {
  utterances : list QueueItem;
  currentIndex : Z
}.

Inductive SpeechState : Type := stopped | playing | paused.

(** [window.speechSynthesis] as far as the program looks at it. *)
Record Synth : Type := {
  speaking : bool;
  pending : bool;
  devicePaused : bool
}.

(** [synth.cancel()] empties the device queue: nothing is spoken or waiting
    afterwards; the paused flag of the device is not touched. *)
Definition cancel (d : Synth) : Synth :=
  {| speaking := false; pending := false; devicePaused := devicePaused d |}.

(** [synth.pause()] and [synth.resume()] *)
Definition pause (d : Synth) : Synth :=
  {| speaking := speaking d; pending := pending d; devicePaused := true |}.

Definition resume (d : Synth) : Synth :=
  {| speaking := speaking d; pending := pending d; devicePaused := false |}.

(** The session: the React state of the narration, the queue reference and
    the device ([None] when the browser has no [speechSynthesis]). *)
Record Session : Type := {
  globalSpeechState : SpeechState;
  currentlySpeakingCard : option string;
  speechQueueRef : SpeechQueue;
  speechSynthesis : option Synth
}.

(** [stopSpeech] of [index.tsx]. *)
Definition stopSpeech (s : Session) : Session :=
  let device :=
    match speechSynthesis s with
    | Some d => if speaking d || pending d then Some (cancel d) else Some d
    | None => None
    end in
  {| globalSpeechState := stopped;
     currentlySpeakingCard := None;
     speechQueueRef := {| utterances := []; currentIndex := 0 |};
     speechSynthesis := device |}.

(** [stopSpeech] of the first variant of the file, which cancels whenever
    the device exists and keeps the queue and the index in two references. *)
Definition stopSpeech_v1 (s : Session) : Session :=
  let device :=
    match speechSynthesis s with
    | Some d => Some (cancel d)
    | None => None
    end in
  {| globalSpeechState := stopped;
     currentlySpeakingCard := None;
     speechQueueRef := {| utterances := []; currentIndex := 0 |};
     speechSynthesis := device |}.

End Speech.

(** ** The search-and-classify pipeline: [getAnalysis] *)

Module Pipeline.

Import Json.

(** The React state [getAnalysis] writes. *)
Record State : Type := {
  analysis : option jsval;
  loading : bool;
  loadingMessage : string;
  error : option string;
  speech : Speech.Session
}.

(** The key of the [i]-th element when an array or a string is spread into
    an object. *)
Definition index_key (i : nat) : string :=
  NilEmpty.string_of_uint (Nat.to_uint i).

Fixpoint indexed {A : Type} (f : A -> jsval) (i : nat) (l : list A)
  : list (string * jsval) :=
  match l with
  | [] => []
  | x :: l' => (index_key i, f x) :: indexed f (S i) l'
  end.

(** The own enumerable properties copied by [{...v}]. *)
Definition spread (v : jsval) : list (string * jsval) :=
  match v with
  | VObj fields => fields
  | VArr items => indexed (fun x => x) 0 items
  | VStr s =>
      indexed (fun c => VStr (String c EmptyString)) 0 (list_ascii_of_string s)
  | _ => []
  end.

(** [v.slice(0, 2)]; only arrays and strings have the method. *)
Definition slice2 (v : jsval) : M jsval :=
  match v with
  | VArr items => ret (VArr (JSArray.slice0 2 items))
  | VStr s => ret (VStr (JS.substring s 0 2))
  | _ => throw (TypeError "slice")
  end.

(** [v[i]] on the result of [slice2]. *)
Definition at_index (v : jsval) (i : nat) : jsval :=
  match v with
  | VArr items => nth i items VUndefined
  | VStr s =>
      match String.get i s with
      | Some c => VStr (String c EmptyString)
      | None => VUndefined
      end
  | _ => VUndefined
  end.

(** The date [normalizeArticle] settles on, before the fallback. *)
Definition articleDate (article : jsval) : M jsval :=
  p <- getp article "publishedAt" ;;
  if truthy p then ret p else getp article "publication_date".

(** [normalizeArticle]; [now] is what the clock reads during the call. *)
Definition normalizeArticle (now : string) (article : jsval) : M jsval :=
  if negb (truthy article) then ret VNull
  else
    publishedAt <- articleDate article ;;
    (if negb (truthy publishedAt)
     then emit (ConsoleWarn "Article missing publication date:")
     else ret tt) ;;;
    ret (VObj (set_field "publishedAt"
                 (if truthy publishedAt then publishedAt else VStr now)
                 (spread article))).

(** The message of the error thrown at line 331. *)
Definition articles_not_found_message : string :=
  "The AI could not find suitable left and right-leaning articles for this topic. Please try a different headline.".

(** The error kind the specification calls [ArticlesNotFound]. *)
Definition ArticlesNotFound : exn := Error articles_not_found_message.

(** [(await ai.current.models.generateContent(...)).text] *)
Definition request `{Environment} (p : Prompt) : M string :=
  emit (Request p) ;;;
  match generateContent p with
  | inl e => throw e
  | inr text => ret text
  end.

(** Lines 287-321: the classification request and the assignment of the
    sides by the source it names. *)
Definition classifySides `{Platform} `{Environment} (articlesToClassify : jsval)
  : M (jsval * jsval) :=
  titleA <- getp (at_index articlesToClassify 0) "title" ;;
  sourceA <- getp (at_index articlesToClassify 0) "source" ;;
  titleB <- getp (at_index articlesToClassify 1) "title" ;;
  sourceB <- getp (at_index articlesToClassify 1) "source" ;;
  classifyText <- request (ClassifyPrompt titleA sourceA titleB sourceB) ;;
  classification <- safeParseJson classifyText ;;
  rightSource <- getp classification "rightWingArticleSource" ;;
  let articleA := at_index articlesToClassify 0 in
  let articleB := at_index articlesToClassify 1 in
  srcA <- getp articleA "source" ;;
  if strict_eq srcA rightSource then
    rightWingArticle <- normalizeArticle (clock 0) articleA ;;
    leftWingArticle <- normalizeArticle (clock 1) articleB ;;
    ret (rightWingArticle, leftWingArticle)
  else
    rightWingArticle <- normalizeArticle (clock 0) articleB ;;
    leftWingArticle <- normalizeArticle (clock 1) articleA ;;
    ret (rightWingArticle, leftWingArticle).

(** Lines 265-322: the two articles, from whichever shape the search
    response has.  The result is the pair
    [(rightWingArticle, leftWingArticle)]. *)
Definition assignSides `{Platform} `{Environment} (parsedResponse : jsval)
  : M (jsval * jsval) :=
  r <- getp parsedResponse "rightWingArticle" ;;
  l <- (if truthy r then getp parsedResponse "leftWingArticle" else ret r) ;;
  if truthy r && truthy l then
    rightWingArticle <- normalizeArticle (clock 0) r ;;
    leftWingArticle <- normalizeArticle (clock 1) l ;;
    ret (rightWingArticle, leftWingArticle)
  else
    articles <- getp parsedResponse "articles" ;;
    enough <- (if truthy articles
               then len <- getp articles "length" ;; ret (ge len 2)
               else ret false) ;;
    if enough then
      emit (LoadingMessage "Classifying article perspectives...") ;;;
      articlesToClassify <- slice2 articles ;;
      classifySides articlesToClassify
    else ret (VUndefined, VUndefined).

(** Lines 324-332: both articles must be there and carry a title. *)
Definition requireTitles (rightWingArticle leftWingArticle : jsval) : M unit :=
  missing <-
    (if negb (truthy rightWingArticle) then ret true
     else if negb (truthy leftWingArticle) then ret true
     else
       rt <- getp rightWingArticle "title" ;;
       if negb (truthy rt) then ret true
       else
         lt <- getp leftWingArticle "title" ;;
         ret (negb (truthy lt))) ;;
  if (missing : bool) then
    emit (ConsoleError "The AI failed to structure its response correctly or find two distinct articles. Raw Response:") ;;;
    throw ArticlesNotFound
  else ret tt.

(** Lines 335-410: the analysis request and the assembly of the result. *)
Definition analyzeArticles `{Platform} `{Environment} (topic : string)
    (rightWingArticle leftWingArticle : jsval) : M jsval :=
  emit (LoadingMessage "Analyzing perspectives...") ;;;
  rTitle <- getp rightWingArticle "title" ;;
  rSource <- getp rightWingArticle "source" ;;
  rUrl <- getp rightWingArticle "url" ;;
  lTitle <- getp leftWingArticle "title" ;;
  lSource <- getp leftWingArticle "source" ;;
  lUrl <- getp leftWingArticle "url" ;;
  analysisText <-
    request (AnalysisPrompt topic rTitle rSource rUrl lTitle lSource lUrl) ;;
  analysisData <- safeParseJson analysisText ;;
  rwa <- getp analysisData "rightWingArticleAnalysis" ;;
  rSummary <- getp rwa "summary" ;;
  rSpin <- getp rwa "spinAnalysis" ;;
  lwa <- getp analysisData "leftWingArticleAnalysis" ;;
  lSummary <- getp lwa "summary" ;;
  lPortrayal <- getp lwa "portrayalOfRight" ;;
  leftist <- getp analysisData "leftistTalkingPoints" ;;
  socialist <- getp analysisData "socialistTalkingPoints" ;;
  score <- getp analysisData "spectrumScore" ;;
  justification <- getp analysisData "spectrumJustification" ;;
  ret (VObj
    [ ("topic", VStr topic);
      ("rightWingArticle",
        VObj (set_field "spinAnalysis" rSpin
               (set_field "summary" rSummary (spread rightWingArticle))));
      ("leftWingArticle",
        VObj (set_field "portrayalOfRight" lPortrayal
               (set_field "summary" lSummary (spread leftWingArticle))));
      ("leftistTalkingPoints", leftist);
      ("socialistTalkingPoints", socialist);
      ("spectrumScore", score);
      ("spectrumJustification", justification) ]).

(** The body of the [try] block. *)
Definition findAndAnalyze `{Platform} `{Environment} (topic : string)
  : M jsval :=
  (if client then ret tt else throw (Error "AI client not initialized.")) ;;;
  emit (LoadingMessage "Finding relevant articles...") ;;;
  searchText <- request (SearchPrompt topic) ;;
  parsedResponse <- safeParseJson searchText ;;
  sides <- assignSides parsedResponse ;;
  requireTitles (fst sides) (snd sides) ;;;
  analyzeArticles topic (fst sides) (snd sides).

(** [getAnalysis]: the state it leaves and the events of the run. *)
Definition getAnalysis `{Platform} `{Environment} (topic : string)
    (st : State) : M State :=
  emit (LoadingMessage "Initializing analysis...") ;;;
  let st1 := {| analysis := None;
                loading := true;
                loadingMessage := "Initializing analysis...";
                error := None;
                speech := Speech.stopSpeech (speech st) |} in
  st2 <- try_catch
    (finalResult <- findAndAnalyze topic ;;
     ret {| analysis := Some finalResult;
            loading := loading st1;
            loadingMessage := loadingMessage st1;
            error := error st1;
            speech := speech st1 |})
    (fun err =>
       emit (ConsoleError (printed err)) ;;;
       ret {| analysis := analysis st1;
              loading := loading st1;
              loadingMessage := loadingMessage st1;
              error := Some (message err);
              speech := speech st1 |}) ;;
  emit (LoadingMessage EmptyString) ;;;
  ret {| analysis := analysis st2;
         loading := false;
         loadingMessage := EmptyString;
         error := error st2;
         speech := speech st2 |}.

End Pipeline.

(** ** The narration scheduler: queue building and voice selection *)

Module Narration.

Import Speech.

(** [AnalysisResult] of [index.tsx]. *)
Record ArticleAnalysis : Type := {
  title : string;
  url : string;
  source : string;
  publishedAt : string;
  summary : string;
  spinAnalysis : option string;
  portrayalOfRight : option string
}.

Record AnalysisResult : Type := {
  topic : string;
  rightWingArticle : ArticleAnalysis;
  leftWingArticle : ArticleAnalysis;
  leftistTalkingPoints : list string;
  socialistTalkingPoints : list string;
  spectrumScore : Q;
  spectrumJustification : string
}.

(** One element of the local [speechQueue]. *)
Record NarrationUnit : Type := {
  unitCard : string;
  unitText : string
}.

Definition is_delimiter (c : ascii) : bool :=
  Ascii.eqb c "." || Ascii.eqb c "!" || Ascii.eqb c "?".

(** The matches of [/[^.!?]+[.!?]?/g], left to right: [run] is the
    non-empty-so-far stretch of characters other than [.], [!], [?]; a
    delimiter closes the stretch and is kept with it; a delimiter that
    follows no stretch matches nothing and is skipped. *)
Fixpoint sentences_from (run : string) (s : string) : list string :=
  match s with
  | EmptyString =>
      match run with
      | EmptyString => []
      | _ => [run]
      end
  | String c s' =>
      if is_delimiter c then
        match run with
        | EmptyString => sentences_from EmptyString s'
        | _ => (run ++ String c EmptyString)%string
                 :: sentences_from EmptyString s'
        end
      else sentences_from (run ++ String c EmptyString)%string s'
  end.

(** [text.match(/[^.!?]+[.!?]?/g)]: [None] is [null], when nothing
    matches. *)
Definition match_sentences (text : string) : option (list string) :=
  match sentences_from EmptyString text with
  | [] => None
  | l => Some l
  end.

(** [addToQueue]; the text is [None] for [undefined] or [null]. *)
Definition addToQueue (cardId : string) (text : option string)
    (shouldSplit : bool) (speechQueue : list NarrationUnit)
  : list NarrationUnit :=
  match text with
  | None => speechQueue
  | Some text =>
      if String.eqb text EmptyString || (String.length (JS.trim text) =? 0)%nat
      then speechQueue
      else if shouldSplit then
        let sentences :=
          match match_sentences text with
          | Some l => l
          | None => [text]
          end in
        fold_left
          (fun queue sentence =>
             let trimmed := JS.trim sentence in
             if negb (String.eqb trimmed EmptyString)
             then queue ++ [{| unitCard := cardId; unitText := trimmed |}]
             else queue)
          sentences speechQueue
      else speechQueue ++ [{| unitCard := cardId; unitText := text |}]
  end.

(** The queue [handleGlobalSpeech] of [index.tsx] builds. *)
Definition buildQueue (analysis : AnalysisResult) : list NarrationUnit :=
  let right := rightWingArticle analysis in
  let left := leftWingArticle analysis in
  let q := [] in
  let q := addToQueue "right-wing" (Some "Right-Wing Perspective.") false q in
  let q := addToQueue "right-wing"
             (Some ("Title: " ++ title right)%string) false q in
  let q := addToQueue "right-wing"
             (Some ("Source: " ++ source right)%string) false q in
  let q := addToQueue "right-wing" (Some "Summary:") false q in
  let q := addToQueue "right-wing" (Some (summary right)) true q in
  let q := addToQueue "right-wing"
             (Some "Narrative and Spin Analysis:") false q in
  let q := addToQueue "right-wing" (spinAnalysis right) true q in
  let q := addToQueue "left-wing" (Some "Left-Wing Perspective.") false q in
  let q := addToQueue "left-wing"
             (Some ("Title: " ++ title left)%string) false q in
  let q := addToQueue "left-wing"
             (Some ("Source: " ++ source left)%string) false q in
  let q := addToQueue "left-wing" (Some "Summary:") false q in
  let q := addToQueue "left-wing" (Some (summary left)) true q in
  let q := addToQueue "left-wing"
             (Some "Portrayal of Right-Wing View:") false q in
  let q := addToQueue "left-wing" (portrayalOfRight left) true q in
  let q := addToQueue "leftist-points"
             (Some "Leftist Talking Points.") false q in
  let q := fold_left
             (fun q point => addToQueue "leftist-points" (Some point) true q)
             (leftistTalkingPoints analysis) q in
  let q := addToQueue "socialist-points"
             (Some "Socialist Talking Points.") false q in
  let q := fold_left
             (fun q point => addToQueue "socialist-points" (Some point) true q)
             (socialistTalkingPoints analysis) q in
  q.

(** *** Voices *)

Definition premiumNames : list string :=
  [ "Google US English";
    "Microsoft David - English (United States)";
    "Samantha";
    "Alex" ].

(** The [for] loop over [premiumNames]. *)
Fixpoint firstPremium (names : list string) (vcs : list Voice)
  : option Voice :=
  match names with
  | [] => None
  | n :: names' =>
      match JS.find (fun v => String.eqb (name v) n && String.eqb (lang v) "en-US")
                    vcs with
      | Some voice => Some voice
      | None => firstPremium names' vcs
      end
  end.

(** [getBestVoice]; [None] is [null]. *)
Definition getBestVoice (vcs : list Voice) : option Voice :=
  match vcs with
  | [] => None
  | _ =>
      match firstPremium premiumNames vcs with
      | Some voice => Some voice
      | None =>
          match JS.find (fun v => String.eqb (lang v) "en-US" && localService v)
                        vcs with
          | Some localVoice => Some localVoice
          | None =>
              match JS.find (fun v => String.eqb (lang v) "en-US") vcs with
              | Some anyUSVoice => Some anyUSVoice
              | None => JS.find (fun v => JS.startsWith "en" (lang v)) vcs
              end
          end
      end
  end.

(** The narration side of the React state. *)
Record State : Type := {
  session : Session;
  voices : list Voice;
  selectedVoiceURI : string;
  error : option string;
  (** delays of the pending [setTimeout(speakNext, _)] calls *)
  timers : list Z
}.

(** [loadVoices], given what [speechSynthesis.getVoices()] returns. *)
Definition loadVoices (availableVoices : list Voice) (st : State) : State :=
  match session st with
  | {| speechSynthesis := None |} => st
  | _ =>
      match availableVoices with
      | [] => st
      | first :: _ =>
          let uri :=
            match getBestVoice availableVoices with
            | Some bestVoice => voiceURI bestVoice
            | None => voiceURI first
            end in
          {| session := session st;
             voices := availableVoices;
             selectedVoiceURI := uri;
             error := error st;
             timers := timers st |}
      end
  end.

(** The [onChange] handler of the voice selector. *)
Definition selectVoice (uri : string) (st : State) : State :=
  {| session := session st;
     voices := voices st;
     selectedVoiceURI := uri;
     error := error st;
     timers := timers st |}.

(** [voices.find(v => v.voiceURI === selectedVoiceURI)] *)
Definition preferredVoice (st : State) : option Voice :=
  JS.find (fun v => String.eqb (voiceURI v) (selectedVoiceURI st)) (voices st).

Definition with_session (s : Session) (st : State) : State :=
  {| session := s;
     voices := voices st;
     selectedVoiceURI := selectedVoiceURI st;
     error := error st;
     timers := timers st |}.

Definition with_device (d : Synth) (s : Session) : Session :=
  {| globalSpeechState := globalSpeechState s;
     currentlySpeakingCard := currentlySpeakingCard s;
     speechQueueRef := speechQueueRef s;
     speechSynthesis := Some d |}.

Definition with_state (g : SpeechState) (s : Session) : Session :=
  {| globalSpeechState := g;
     currentlySpeakingCard := currentlySpeakingCard s;
     speechQueueRef := speechQueueRef s;
     speechSynthesis := speechSynthesis s |}.

Definition with_queue (q : SpeechQueue) (s : Session) : Session :=
  {| globalSpeechState := globalSpeechState s;
     currentlySpeakingCard := currentlySpeakingCard s;
     speechQueueRef := q;
     speechSynthesis := speechSynthesis s |}.

(** The utterances made from the queue. *)
Definition utterancesOf (preferred : option Voice) (q : list NarrationUnit)
  : list QueueItem :=
  map (fun item =>
         {| utterance := {| text := unitText item;
                            voice := preferred;
                            rate := 95 # 100;
                            pitch := 1 |};
            cardId := unitCard item |}) q.

(** The synchronous part of [handleGlobalSpeech] of [index.tsx]; what
    [speakNext] does later is not part of it. *)
Definition handleGlobalSpeech (analysis : option AnalysisResult) (st : State)
  : State :=
  match speechSynthesis (session st) with
  | None =>
      {| session := session st;
         voices := voices st;
         selectedVoiceURI := selectedVoiceURI st;
         error := Some "Sorry, your browser does not support text-to-speech.";
         timers := timers st |}
  | Some synth =>
      match globalSpeechState (session st), analysis with
      | playing, _ =>
          with_session (with_state paused (with_device (pause synth) (session st))) st
      | paused, _ =>
          with_session (with_state playing (with_device (resume synth) (session st))) st
      | stopped, None => st
      | stopped, Some analysis =>
          let s1 := stopSpeech (session st) in
          let speechQueue := buildQueue analysis in
          let utterancesWithIds := utterancesOf (preferredVoice st) speechQueue in
          match utterancesWithIds with
          | [] => with_session s1 st
          | _ =>
              let s2 := with_queue {| utterances := utterancesWithIds;
                                      currentIndex := 0 |} s1 in
              let s3 :=
                match speechSynthesis s2 with
                | Some d => with_device (cancel d) s2
                | None => s2
                end in
              {| session := with_state playing s3;
                 voices := voices st;
                 selectedVoiceURI := selectedVoiceURI st;
                 error := error st;
                 timers := timers st ++ [100] |}
          end
      end
  end.

End Narration.

(** ** The second variant of the file: one article, three perspectives *)

Module SingleArticle.

Import Narration.

Record Article : Type := {
  title : string;
  url : string;
  source : string;
  publishedAt : string
}.

Record Popularity : Type := {
  score : string;
  justification : string
}.

Record WasEdited : Type := {
  status : bool;
  reasoning : string
}.

Record Perspective : Type := {
  summary : string;
  talkingPoints : list string
}.

Record AnalysisResult : Type := {
  topic : string;
  article : Article;
  category : string;
  popularity : Popularity;
  wasEdited : WasEdited;
  rightWingPerspective : Perspective;
  leftWingPerspective : Perspective;
  socialistPerspective : Perspective;
  spectrumScore : Q;
  spectrumJustification : string
}.

Definition addPerspective (cardId intro : string) (p : Perspective)
    (q : list NarrationUnit) : list NarrationUnit :=
  let q := addToQueue cardId (Some intro) false q in
  let q := addToQueue cardId (Some (summary p)) true q in
  let q := addToQueue cardId (Some "Key talking points include:") false q in
  fold_left (fun q point => addToQueue cardId (Some point) true q)
            (talkingPoints p) q.

(** The queue [handleGlobalSpeech] of this variant builds. *)
Definition buildQueue (analysis : AnalysisResult) : list NarrationUnit :=
  let q := [] in
  let q := addToQueue "article-details"
             (Some ("Analyzing the article: " ++ title (article analysis) ++ ".")%string)
             false q in
  let q := addToQueue "article-details"
             (Some ("Source: " ++ source (article analysis) ++ ".")%string)
             false q in
  let q := addToQueue "article-details"
             (Some ("Category: " ++ category analysis ++ ".")%string) false q in
  let q := addToQueue "article-details"
             (Some ("Popularity Score: " ++ score (popularity analysis) ++ ".")%string)
             false q in
  let q := addToQueue "article-details"
             (Some (justification (popularity analysis))) true q in
  let q := addPerspective "left-wing" "Left-Wing Perspective."
             (leftWingPerspective analysis) q in
  let q := addPerspective "right-wing" "Right-Wing Perspective."
             (rightWingPerspective analysis) q in
  let q := addPerspective "socialist" "Socialist Perspective."
             (socialistPerspective analysis) q in
  q.

End SingleArticle.

(** ** The first variant of the file: one grounded request *)

Module FirstVariant.

Import Speech.

Definition no_json_message : string :=
  "The AI returned a response that did not contain a valid JSON object. Please try again.".

(** The JSON extraction written inline in [getAnalysis]; [text] is
    [response.text]. *)
Definition extractJson `{Platform} (text : string) : M jsval :=
  let responseText := JS.trim text in
  let startIndex := JS.indexOf "{" responseText in
  let endIndex := JS.lastIndexOf "}" responseText in
  if (startIndex =? -1) || (endIndex =? -1) || (endIndex <? startIndex)
  then
    emit (ConsoleError "Failed to find JSON object in response:") ;;;
    throw (Error no_json_message)
  else
    let jsonText := JS.substring responseText startIndex (endIndex + 1) in
    match JSON_parse jsonText with
    | Some parsedJson => ret parsedJson
    | None =>
        emit (ConsoleError "Failed to parse JSON response:") ;;;
        throw (Error invalid_format_message)
    end.

Definition or_else {A : Type} (a b : option A) : option A :=
  match a with
  | Some _ => a
  | None => b
  end.

(** [preferredVoice] of [handleGlobalSpeech]; this variant has no voice
    selector. *)
Definition preferredVoice (voices : list Voice) : option Voice :=
  or_else
    (JS.find (fun v => JS.includes "Google" (name v) && String.eqb (lang v) "en-US")
             voices)
    (or_else
       (JS.find (fun v => String.eqb (lang v) "en-US" && localService v) voices)
       (or_else
          (JS.find (fun v => String.eqb (lang v) "en-US") voices)
          (JS.find (fun v => JS.startsWith "en" (lang v)) voices))).

End FirstVariant.

(** ** A reference platform

    A small [JSON.parse] (no [\u] escapes) and the ISO forms of
    [new Date(s)] ([YYYY-MM-DD] and [YYYY-MM-DDTHH:MM:SSZ]), enough to run
    the model on concrete responses. *)

Module Reference.

Definition is_json_ws (c : ascii) : bool :=
  match nat_of_ascii c with
  | 9%nat | 10%nat | 13%nat | 32%nat => true
  | _ => false
  end.

Fixpoint skip_ws (s : string) : string :=
  match s with
  | String c s' => if is_json_ws c then skip_ws s' else s
  | EmptyString => EmptyString
  end.

Definition digit_of (c : ascii) : option Z :=
  let n := Z.of_nat (nat_of_ascii c) in
  if (48 <=? n) && (n <=? 57) then Some (n - 48) else None.

(** The digits at the head of [s]: their value on top of [acc], how many
    there are, and what follows. *)
Fixpoint digits (acc : Z) (count : nat) (s : string) : Z * nat * string :=
  match s with
  | String c s' =>
      match digit_of c with
      | Some d => digits (10 * acc + d) (S count) s'
      | None => (acc, count, s)
      end
  | EmptyString => (acc, count, s)
  end.

Definition pow10 (e : Z) : Q := Qpower (inject_Z 10) e.

(** [-? digits (. digits)? ([eE] [+-]? digits)?] *)
Definition number (s : string) : option (Q * string) :=
  let '(neg, s1) :=
    match s with
    | String "-" r => (true, r)
    | _ => (false, s)
    end in
  let '(ip, n1, s2) := digits 0 0 s1 in
  match n1 with
  | O => None
  | _ =>
      let '(mant, fracLen, s3) :=
        match s2 with
        | String "." r =>
            let '(m, n2, r') := digits ip 0 r in (m, n2, r')
        | _ => (ip, O, s2)
        end in
      let '(ex, s4) :=
        match s3 with
        | String c r =>
            if Ascii.eqb c "e" || Ascii.eqb c "E" then
              match r with
              | String "-" r' =>
                  let '(e, _, r'') := digits 0 0 r' in (- e, r'')
              | String "+" r' =>
                  let '(e, _, r'') := digits 0 0 r' in (e, r'')
              | _ => let '(e, _, r'') := digits 0 0 r in (e, r'')
              end
            else (0, s3)
        | EmptyString => (0, s3)
        end in
      let q := Qred (inject_Z mant * pow10 (ex - Z.of_nat fracLen)) in
      Some (if neg then Qopp q else q, s4)
  end.

(** The double quote and the backslash. *)
Definition dquote : ascii := ascii_of_nat 34.

Definition backslash : ascii := ascii_of_nat 92.

Definition unescape (e : ascii) : option ascii :=
  if Ascii.eqb e dquote then Some dquote
  else if Ascii.eqb e backslash then Some backslash
  else
    match e with
    | "/"%char => Some "/"%char
    | "n"%char => Some (ascii_of_nat 10)
    | "t"%char => Some (ascii_of_nat 9)
    | "r"%char => Some (ascii_of_nat 13)
    | "b"%char => Some (ascii_of_nat 8)
    | "f"%char => Some (ascii_of_nat 12)
    | _ => None
    end.

(** The characters of a string literal after its opening quote; [escaped]
    tells that the previous character was a backslash. *)
Fixpoint string_body (escaped : bool) (s : string) : option (string * string) :=
  match s with
  | EmptyString => None
  | String c r =>
      if escaped then
        match unescape c, string_body false r with
        | Some c', Some (t, r') => Some (String c' t, r')
        | _, _ => None
        end
      else if Ascii.eqb c dquote then Some (EmptyString, r)
      else if Ascii.eqb c backslash then string_body true r
      else
        match string_body false r with
        | Some (t, r') => Some (String c t, r')
        | None => None
        end
  end.

(** A member in front of the members that follow it: a later member with
    the same key gives the value, the first one gives the place. *)
Definition add_member (k : string) (v : jsval)
    (later : list (string * jsval)) : list (string * jsval) :=
  let v' :=
    match List.find (fun kv => String.eqb (fst kv) k) later with
    | Some (_, w) => w
    | None => v
    end in
  (k, v') :: filter (fun kv => negb (String.eqb (fst kv) k)) later.

Fixpoint value (fuel : nat) (s : string) : option (jsval * string) :=
  match fuel with
  | O => None
  | S fuel' =>
      match skip_ws s with
      | String "{" r =>
          match skip_ws r with
          | String "}" r' => Some (VObj [], r')
          | _ =>
              match members fuel' r with
              | Some (fields, r') => Some (VObj fields, r')
              | None => None
              end
          end
      | String "[" r =>
          match skip_ws r with
          | String "]" r' => Some (VArr [], r')
          | _ =>
              match elements fuel' r with
              | Some (items, r') => Some (VArr items, r')
              | None => None
              end
          end
      | String "t" (String "r" (String "u" (String "e" r))) =>
          Some (VBool true, r)
      | String "f" (String "a" (String "l" (String "s" (String "e" r)))) =>
          Some (VBool false, r)
      | String "n" (String "u" (String "l" (String "l" r))) =>
          Some (VNull, r)
      | String c r as other =>
          if Ascii.eqb c dquote then
            match string_body false r with
            | Some (t, r') => Some (VStr t, r')
            | None => None
            end
          else
            match number other with
            | Some (q, r') => Some (VNum q, r')
            | None => None
            end
      | EmptyString => None
      end
  end
with elements (fuel : nat) (s : string) : option (list jsval * string) :=
  match fuel with
  | O => None
  | S fuel' =>
      match value fuel' s with
      | Some (v, r) =>
          match skip_ws r with
          | String "," r' =>
              match elements fuel' r' with
              | Some (vs, r'') => Some (v :: vs, r'')
              | None => None
              end
          | String "]" r' => Some ([v], r')
          | _ => None
          end
      | None => None
      end
  end
with members (fuel : nat) (s : string)
  : option (list (string * jsval) * string) :=
  match fuel with
  | O => None
  | S fuel' =>
      match skip_ws s with
      | String c r =>
          match (if Ascii.eqb c dquote then string_body false r else None) with
          | Some (k, r1) =>
              match skip_ws r1 with
              | String ":" r2 =>
                  match value fuel' r2 with
                  | Some (v, r3) =>
                      match skip_ws r3 with
                      | String "," r4 =>
                          match members fuel' r4 with
                          | Some (fields, r5) =>
                              Some (add_member k v fields, r5)
                          | None => None
                          end
                      | String "}" r4 => Some ([(k, v)], r4)
                      | _ => None
                      end
                  | None => None
                  end
              | _ => None
              end
          | None => None
          end
      | _ => None
      end
  end.

Definition parse (s : string) : option jsval :=
  match value (S (String.length s)) s with
  | Some (v, r) =>
      match skip_ws r with
      | EmptyString => Some v
      | _ => None
      end
  | None => None
  end.

End Reference.

Module ReferenceDate.

(** Days from 1970-01-01 to the given civil date. *)
Definition days_from_civil (y m d : Z) : Z :=
  let y' := if m <=? 2 then y - 1 else y in
  let era := y' / 400 in
  let yoe := y' - era * 400 in
  let mp := if 2 <? m then m - 3 else m + 9 in
  let doy := (153 * mp + 2) / 5 + d - 1 in
  let doe := yoe * 365 + yoe / 4 - yoe / 100 + doy in
  era * 146097 + doe - 719468.

Definition is_leap (y : Z) : bool :=
  ((y mod 4 =? 0) && negb (y mod 100 =? 0)) || (y mod 400 =? 0).

Definition days_in_month (y m : Z) : Z :=
  if m =? 2 then (if is_leap y then 29 else 28)
  else if (m =? 4) || (m =? 6) || (m =? 9) || (m =? 11) then 30
  else 31.

(** Exactly [n] digits at the head of [s]. *)
Fixpoint fixed_digits (n : nat) (acc : Z) (s : string) : option (Z * string) :=
  match n with
  | O => Some (acc, s)
  | S n' =>
      match s with
      | String c r =>
          match Reference.digit_of c with
          | Some d => fixed_digits n' (10 * acc + d) r
          | None => None
          end
      | EmptyString => None
      end
  end.

Definition expect (c : ascii) (s : string) : option string :=
  match s with
  | String a r => if Ascii.eqb a c then Some r else None
  | EmptyString => None
  end.

Definition opt_bind {A B} (o : option A) (f : A -> option B) : option B :=
  match o with
  | Some a => f a
  | None => None
  end.

(** Milliseconds since the epoch, [None] for an invalid date. *)
Definition getTime (s : string) : option Z :=
  opt_bind (fixed_digits 4 0 s) (fun '(y, s1) =>
  opt_bind (expect "-" s1) (fun s2 =>
  opt_bind (fixed_digits 2 0 s2) (fun '(m, s3) =>
  opt_bind (expect "-" s3) (fun s4 =>
  opt_bind (fixed_digits 2 0 s4) (fun '(d, s5) =>
  if (1 <=? m) && (m <=? 12) && (1 <=? d) && (d <=? days_in_month y m) then
    let day_ms := days_from_civil y m d * 86400000 in
    match s5 with
    | EmptyString => Some day_ms
    | _ =>
        opt_bind (expect "T" s5) (fun s6 =>
        opt_bind (fixed_digits 2 0 s6) (fun '(hh, s7) =>
        opt_bind (expect ":" s7) (fun s8 =>
        opt_bind (fixed_digits 2 0 s8) (fun '(mi, s9) =>
        opt_bind (expect ":" s9) (fun s10 =>
        opt_bind (fixed_digits 2 0 s10) (fun '(ss, s11) =>
        match s11 with
        | String "Z" EmptyString =>
            if (hh <=? 23) && (mi <=? 59) && (ss <=? 59)
            then Some (day_ms + ((hh * 60 + mi) * 60 + ss) * 1000)
            else None
        | _ => None
        end))))))
    end
  else None))))).

End ReferenceDate.

(** [v >= n] for the values the reference platform coerces: [null] is 0, a
    boolean is 0 or 1, a string is read as a decimal literal. *)
Definition reference_coerced_ge (v : jsval) (n : Z) : bool :=
  match v with
  | VNull => Qle_bool (inject_Z n) 0
  | VBool b => Qle_bool (inject_Z n) (if b then 1 else 0)%Q
  | VStr s =>
      match Reference.number (JS.trim s) with
      | Some (q, EmptyString) => Qle_bool (inject_Z n) q
      | _ => false
      end
  | _ => false
  end.

(** The order in which the reference engine leaves the positions of an
    array whose comparator is not consistent: it inserts from the right as
    it does for a consistent one.  The examples use it on one array only,
    of which every comparison finds the two elements in order. *)
Definition reference_sort_order (verdicts : list (list Z)) : list nat :=
  JSArray.stable (fun i j => Some (nth j (nth i verdicts []) 0))
                 (seq 0 (List.length verdicts)).

Definition reference_platform : Platform := {|
  JSON_parse := Reference.parse;
  Date_getTime := ReferenceDate.getTime;
  coerced_ge := reference_coerced_ge;
  sort_order := reference_sort_order
|}.

(** The texts of the examples are written with an apostrophe where the
    response has a double quote. *)
Fixpoint json_text (s : string) : string :=
  match s with
  | EmptyString => EmptyString
  | String c r =>
      String (if Ascii.eqb c "'" then Reference.dquote else c) (json_text r)
  end.

(** * Vocabulary of the properties *)

(** ** Positions in a string *)

(** [i] is the first position of [c] in [s]. *)
Definition first_at (c : ascii) (i : nat) (s : string) : Prop :=
  String.get i s = Some c /\
  forall k, (k < i)%nat -> String.get k s <> Some c.

(** [j] is the last position of [c] in [s]. *)
Definition last_at (c : ascii) (j : nat) (s : string) : Prop :=
  String.get j s = Some c /\
  forall k, (j < k)%nat -> String.get k s <> Some c.

(** [c] does not occur in [s]. *)
Definition absent (c : ascii) (s : string) : Prop :=
  forall i, String.get i s <> Some c.

(** ** JSON extraction *)

(** The [console.error] of [safeParseJson]. *)
Definition parse_failure_event : event :=
  ConsoleError "Failed to parse JSON response:".

(** What a run of [safeParseJson] that reaches [JSON.parse] on [t] gives. *)
Definition parsed_or_malformed `{Platform} (t : string) (l : list event)
  : (exn + jsval) * list event :=
  match JSON_parse t with
  | Some v => (inr v, l)
  | None => (inl MalformedResponse, l ++ [parse_failure_event])
  end.

(** The test on the two indices. *)
Definition no_braces (s : string) : bool :=
  (JS.indexOf "{" s =? -1) || (JS.lastIndexOf "}" s =? -1)
  || (JS.lastIndexOf "}" s <? JS.indexOf "{" s).

(** The text from the first opening brace to the last closing brace. *)
Definition between_braces (s : string) : string :=
  JS.substring s (JS.indexOf "{" s) (JS.lastIndexOf "}" s + 1).

(** ** Computations and sorting *)

(** A computation is regular when its result and the events it adds do not
    depend on the events already in the trace. *)
Definition regular {A} (m : M A) : Prop :=
  forall l, m l = (fst (m []), l ++ snd (m [])).

(** Every event the computation adds satisfies [Q]. *)
Definition emits {A} (Q : event -> Prop) (m : M A) : Prop :=
  Forall Q (trace m).

(** The event is not the request for the analysis of two articles. *)
Definition not_analysis_request (e : event) : Prop :=
  match e with
  | Request (AnalysisPrompt _ _ _ _ _ _ _) => False
  | _ => True
  end.

(** Descending order of [key]. *)
Definition descending {A : Type} (key : A -> Z) (a b : A) : Prop :=
  key b <= key a.

(** ** Headlines *)

(** The publication time of a headline, when its date is valid. *)
Definition recency `{Platform} (h : Headlines.Headline) : Z :=
  match Date_getTime (Headlines.publishedAt h) with
  | Some t => t
  | None => 0
  end.

(** The date of the headline is valid. *)
Definition dated `{Platform} (h : Headlines.Headline) : Prop :=
  Date_getTime (Headlines.publishedAt h) <> None.

(** The headlines of the two sides, pooled. *)
Definition pool (parsedJson : Headlines.Headlines) : list Headlines.Headline :=
  Headlines.leftHeadlines parsedJson ++ Headlines.rightHeadlines parsedJson.

(** *** A response with five headlines on each side *)

Module Example.

Import Headlines.

Definition mk (text src date : string) : Headline :=
  {| headline := text; source := src; emoji := "-"; publishedAt := date |}.

Definition l1 := mk "Senate passes budget" "CNN" "2025-08-01".
Definition l2 := mk "Court blocks order" "MSNBC" "2025-08-05".
Definition l3 := mk "Storm hits coast" "CNN" "2025-08-27T10:00:00Z".
Definition l4 := mk "Union wins vote" "Vox" "2025-07-15".
Definition l5 := mk "Rates stay unchanged" "NPR" "2025-06-30".

Definition r1 := mk "Governor signs bill" "Fox News" "2025-08-27T10:00:01Z".
Definition r2 := mk "Border numbers fall" "Daily Wire" "2025-08-10".
Definition r3 := mk "Parade draws crowd" "Fox News" "2025-07-04".
Definition r4 := mk "Tax cut proposed" "Newsmax" "2025-08-20".
Definition r5 := mk "Sheriff wins race" "Breitbart" "2025-06-15".

Definition response : Headlines :=
  {| leftHeadlines := [l1; l2; l3; l4; l5];
     rightHeadlines := [r1; r2; r3; r4; r5] |}.

Definition initial : State :=
  {| headlines := None;
     latestHeadlines := None;
     headlinesLoading := true;
     headlinesError := None |}.

Definition final : State :=
  {| headlines := Some {| leftHeadlines := [l2; l1; l4; l5];
                          rightHeadlines := [r4; r2; r3; r5] |};
     latestHeadlines := Some [r1; l3];
     headlinesLoading := false;
     headlinesError := None |}.

End Example.

(** *** A response with one date that cannot be read *)

Module Mixed.

Import Headlines.

Definition undated := Example.mk "Hearing postponed" "CNN" "this week".
Definition c := Example.mk "Storm hits coast" "Vox" "2025-08-27".
Definition b := Example.mk "Tax cut proposed" "Fox News" "2025-08-20".
Definition a := Example.mk "Parade draws crowd" "Newsmax" "2025-08-01".

Definition response : Headlines :=
  {| leftHeadlines := [undated; c]; rightHeadlines := [b; a] |}.

End Mixed.

(** ** The articles of the search response *)

Section PipelineVocabulary.

Import Json Pipeline.

(** The warning of [normalizeArticle]. *)
Definition missing_date_event : event :=
  ConsoleWarn "Article missing publication date:".

(** The date an article carries: [publishedAt], or else
    [publication_date]. *)
Definition dateOf (article : jsval) : jsval :=
  if truthy (field article "publishedAt")
  then field article "publishedAt"
  else field article "publication_date".

(** The value [normalizeArticle] returns. *)
Definition normalizedValue (now : string) (article : jsval) : jsval :=
  if truthy article then
    VObj (set_field "publishedAt"
            (if truthy (dateOf article) then dateOf article else VStr now)
            (spread article))
  else VNull.

(** The condition under which [requireTitles] throws. *)
Definition articleMissing (rightWingArticle leftWingArticle : jsval) : bool :=
  negb (truthy rightWingArticle)
  || negb (truthy leftWingArticle)
  || negb (truthy (field rightWingArticle "title"))
  || negb (truthy (field leftWingArticle "title")).

(** Neither [null] nor [undefined]: reading a property does not throw. *)
Definition present (v : jsval) : Prop := v <> VNull /\ v <> VUndefined.

(** The loading message of the classification step. *)
Definition classifying_event : event :=
  LoadingMessage "Classifying article perspectives...".

(** The response names no pair of articles by side. *)
Definition undifferentiated (fields : list (string * jsval)) : Prop :=
  truthy (lookup "rightWingArticle" fields)
  && truthy (lookup "leftWingArticle" fields) = false.

(** The prompt of the classification request for two articles. *)
Definition classifyPromptOf (a b : jsval) : Prompt :=
  ClassifyPrompt (field a "title") (field a "source")
                 (field b "title") (field b "source").

(** The state [getAnalysis] leaves, from what the [try] block did. *)
Definition settled (st : State) (result : exn + jsval) : State :=
  {| analysis := match result with
                 | inr finalResult => Some finalResult
                 | inl _ => None
                 end;
     loading := false;
     loadingMessage := EmptyString;
     error := match result with
              | inr _ => None
              | inl err => Some (message err)
              end;
     speech := Speech.stopSpeech (speech st) |}.

End PipelineVocabulary.

(** *** Scripted runs of the pipeline *)

Module Scenario.

Import Pipeline.

Definition now : string := "2025-08-28T12:00:00.000Z".

Definition analysisText : string :=
  json_text "{'rightWingArticleAnalysis':{'summary':'S1','spinAnalysis':'Spin'},'leftWingArticleAnalysis':{'summary':'S2','portrayalOfRight':'Port'},'leftistTalkingPoints':['p1'],'socialistTalkingPoints':['q1'],'spectrumScore':2,'spectrumJustification':'J'}".

(** A service that answers the search and the classification requests with
    the given texts. *)
Definition env (searchText classifyText : string) : Environment :=
  {| client := true;
     generateContent := fun p =>
       match p with
       | SearchPrompt _ => inr searchText
       | ClassifyPrompt _ _ _ _ => inr classifyText
       | AnalysisPrompt _ _ _ _ _ _ _ => inr analysisText
       end;
     clock := fun _ => now |}.

Definition articleA : list (string * jsval) :=
  [("title", VStr "A"); ("source", VStr "Fox News")].

Definition articleB : list (string * jsval) :=
  [("title", VStr "B"); ("source", VStr "CNN")].

Definition articleC : list (string * jsval) :=
  [("title", VStr "C"); ("source", VStr "Reuters")].

Definition twoArticles : string :=
  json_text "Here is what I found: {'articles':[{'title':'A','source':'Fox News'},{'title':'B','source':'CNN'}]} I hope this helps.".

Definition threeArticles : string :=
  json_text "{'articles':[{'title':'A','source':'Fox News'},{'title':'B','source':'CNN'},{'title':'C','source':'Reuters'}]}".

Definition noArticles : string :=
  json_text "{'message':'no suitable articles'}".

Definition namesFox : string :=
  json_text "{'rightWingArticleSource':'Fox News'}".

Definition namesNewsmax : string :=
  json_text "{'rightWingArticleSource':'Newsmax'}".

Definition idle : Speech.Session :=
  {| Speech.globalSpeechState := Speech.stopped;
     Speech.currentlySpeakingCard := None;
     Speech.speechQueueRef :=
       {| Speech.utterances := []; Speech.currentIndex := 0 |};
     Speech.speechSynthesis :=
       Some {| Speech.speaking := false;
               Speech.pending := false;
               Speech.devicePaused := false |} |}.

Definition initial : State :=
  {| analysis := None;
     loading := false;
     loadingMessage := EmptyString;
     error := None;
     speech := idle |}.

Definition dated (fields : list (string * jsval)) : jsval :=
  VObj (fields ++ [("publishedAt", VStr now)]).

End Scenario.

(** ** Speech, voices and the narration queue *)

Section NarrationVocabulary.

Import Speech Narration.

(** Nothing is being spoken or waiting on the device. *)
Definition quiet (s : Session) : Prop :=
  match speechSynthesis s with
  | Some d => speaking d = false /\ pending d = false
  | None => True
  end.

(** A voice for the target locale. *)
Definition usVoice (v : Voice) : bool := String.eqb (lang v) "en-US".

(** A voice for the target locale that bears the name [n]. *)
Definition named (n : string) (v : Voice) : bool :=
  String.eqb (name v) n && usVoice v.

(** The first of the premium names that some en-US voice of the list
    bears, and the first voice that bears it. *)
Definition premiumTier (vcs : list Voice) : option Voice :=
  match List.find (fun n => existsb (named n) vcs) premiumNames with
  | Some n => List.find (named n) vcs
  | None => None
  end.

(** The chain as the specification words it, ending with no voice. *)
Definition documentedChain (vcs : list Voice) : option Voice :=
  FirstVariant.or_else (premiumTier vcs)
    (FirstVariant.or_else
       (List.find (fun v => usVoice v && localService v) vcs)
       (FirstVariant.or_else
          (List.find usVoice vcs)
          (List.find (fun v => JS.startsWith "en" (lang v)) vcs))).

(** The voice the specification expects: the user's, or else the one the
    chain gives. *)
Definition claimedVoice (user : option Voice) (vcs : list Voice)
  : option Voice :=
  match user with
  | Some u => Some u
  | None => documentedChain vcs
  end.

(** The chain with the last step the program adds: the first voice of the
    list. *)
Definition defaultVoice (vcs : list Voice) : option Voice :=
  FirstVariant.or_else (documentedChain vcs) (hd_error vcs).

(** The voice the narration uses once the voices are loaded and the user
    has made a choice, or none. *)
Definition chosenVoice (user : option Voice) (vcs : list Voice) (st : State)
  : option Voice :=
  preferredVoice
    match user with
    | Some u => selectVoice (voiceURI u) (loadVoices vcs st)
    | None => loadVoices vcs st
    end.

(** The test of [preferredVoice]. *)
Definition byURI (uri : string) (v : Voice) : bool :=
  String.eqb (voiceURI v) uri.

(** The state of the narration before any voice is loaded. *)
Definition fresh : State :=
  {| session := Scenario.idle;
     voices := [];
     selectedVoiceURI := EmptyString;
     error := None;
     timers := [] |}.

(** Four voices. *)
Definition amelie : Voice :=
  {| name := "Amelie"; lang := "fr-FR"; localService := true;
     voiceURI := "com.apple.voice.Amelie" |}.

Definition daniel : Voice :=
  {| name := "Daniel"; lang := "en-GB"; localService := true;
     voiceURI := "com.apple.voice.Daniel" |}.

Definition samantha : Voice :=
  {| name := "Samantha"; lang := "en-US"; localService := true;
     voiceURI := "com.apple.voice.Samantha" |}.

Definition zira : Voice :=
  {| name := "Microsoft Zira"; lang := "en-US"; localService := false;
     voiceURI := "urn:ms:zira" |}.

(** Every character of the text is white space (in particular, the text may
    be empty). *)
Fixpoint whitespace_only (s : string) : bool :=
  match s with
  | EmptyString => true
  | String c s' => JS.is_ws c && whitespace_only s'
  end.





(** The fragments [addToQueue] goes through when it splits. *)
Definition fragments (text : string) : list string :=
  match match_sentences text with
  | Some l => l
  | None => [text]
  end.

(** The texts it queues for them: trimmed, the empty ones dropped. *)
Definition spokenSentences (text : string) : list string :=
  filter (fun t => negb (String.eqb t EmptyString))
         (map JS.trim (fragments text)).

(** The unit [addToQueue] pushes for a text. *)
Definition unit_of (cardId text : string) : NarrationUnit :=
  {| unitCard := cardId; unitText := text |}.



End NarrationVocabulary.

(** * The rest of the program *)

(** ** What the page shows: [resetView], the mount effect and the main area *)

Module Screen.

Import Json.

(** [resetView] *)
Definition resetView (st : Pipeline.State) : Pipeline.State :=
  {| Pipeline.analysis := None;
     Pipeline.loading := Pipeline.loading st;
     Pipeline.loadingMessage := Pipeline.loadingMessage st;
     Pipeline.error := None;
     Pipeline.speech := Speech.stopSpeech (Pipeline.speech st) |}.

(** The two groups of React state the page is drawn from. *)
Record App : Type := {
  page : Pipeline.State;
  feed : Headlines.State
}.

(** The values given to [useState]. *)
Definition initialPage (device : option Speech.Synth) : Pipeline.State :=
  {| Pipeline.analysis := None;
     Pipeline.loading := false;
     Pipeline.loadingMessage := EmptyString;
     Pipeline.error := None;
     Pipeline.speech :=
       {| Speech.globalSpeechState := Speech.stopped;
          Speech.currentlySpeakingCard := None;
          Speech.speechQueueRef :=
            {| Speech.utterances := []; Speech.currentIndex := 0 |};
          Speech.speechSynthesis := device |} |}.

Definition initialFeed : Headlines.State :=
  {| Headlines.headlines := None;
     Headlines.latestHeadlines := None;
     Headlines.headlinesLoading := true;
     Headlines.headlinesError := None |}.

(** The mount effect as far as the page and the feed go: with an API key
    the client is created and [fetchHeadlines] runs; without one the two
    errors are set and the loading flag is cleared. *)
Definition mount `{Platform} (apiKey : bool) (device : option Speech.Synth)
    (response : exn + Headlines.Headlines) : M App :=
  if apiKey then
    fetched <- Headlines.fetchHeadlines true response initialFeed ;;
    ret {| page := initialPage device; feed := fetched |}
  else
    ret {| page :=
             {| Pipeline.analysis := None;
                Pipeline.loading := false;
                Pipeline.loadingMessage := EmptyString;
                Pipeline.error :=
                  Some "API_KEY is not set. Please check your environment variables.";
                Pipeline.speech := Pipeline.speech (initialPage device) |};
           feed :=
             {| Headlines.headlines := None;
                Headlines.latestHeadlines := None;
                Headlines.headlinesLoading := false;
                Headlines.headlinesError := Some "API_KEY is not set." |} |}.

(** What the conditional at the end of [App] renders below the banners;
    [RenderFailure] when [<Results />] throws while it renders: React then
    unmounts the whole tree and the page is blank. *)
Inductive MainArea : Type :=
| ResultsView
| RenderFailure
| HeadlinesLoader
| HeadlinesErrorView (text : string)
| HeadlinesView
| NothingShown.

(** Truthiness of a string state that may be [null]. *)
Definition shown_text (o : option string) : option string :=
  match o with
  | Some s => if String.eqb s EmptyString then None else Some s
  | None => None
  end.

(** A value between braces in JSX: React renders a primitive as text or as
    nothing and an array item by item, and throws on a plain object. *)
Fixpoint child (v : jsval) : bool :=
  match v with
  | VObj _ => false
  | VArr items =>
      (fix all (l : list jsval) : bool :=
         match l with
         | [] => true
         | x :: r => child x && all r
         end) items
  | _ => true
  end.

(** [v.map((point, index) => <li key={index}>{point}</li>)] between
    braces: only an array has the method. *)
Definition points (v : jsval) : bool :=
  match v with
  | VArr items => forallb child items
  | _ => false
  end.

(** The card of an article: its properties are read, which throws on
    [null] and [undefined], and the title, the source, the summary and the
    analysis are rendered; the URL and the date go through [href] and
    [new Date], which take any value. *)
Definition article (v : jsval) (analysisKey : string) : bool :=
  match v with
  | VUndefined | VNull => false
  | _ =>
      child (field v "title") && child (field v "source")
      && child (field v "summary") && child (field v analysisKey)
  end.

(** [Results]: whether the component renders the stored analysis without
    throwing. *)
Definition Results (analysis : jsval) : bool :=
  child (field analysis "topic")
  && child (field analysis "spectrumJustification")
  && article (field analysis "rightWingArticle") "spinAnalysis"
  && article (field analysis "leftWingArticle") "portrayalOfRight"
  && points (field analysis "leftistTalkingPoints")
  && points (field analysis "socialistTalkingPoints").

Definition mainArea (a : App) : MainArea :=
  match Pipeline.analysis (page a) with
  | Some v => if Results v then ResultsView else RenderFailure
  | None =>
      if Headlines.headlinesLoading (feed a) then HeadlinesLoader
      else
        match shown_text (Headlines.headlinesError (feed a)) with
        | Some text => HeadlinesErrorView text
        | None =>
            match Headlines.headlines (feed a) with
            | Some _ => HeadlinesView
            | None => NothingShown
            end
        end
  end.

(** The error banner above the main area: [{error && ...}]. *)
Definition errorBanner (a : App) : option string :=
  shown_text (Pipeline.error (page a)).

End Screen.

(** ** The playback chain: [speakNext] and the callbacks of an utterance *)

Module Playback.

Import Speech Narration.

(** The narration state together with what the program has done to the
    device and to the highlight so far: the utterances passed to
    [synth.speak], and the cards passed to [setCurrentlySpeakingCard] by
    [onstart]. *)
Record Player : Type := {
  app : State;
  handed : list QueueItem;
  shown : list string
}.

(** What the browser calls back: a pending [setTimeout(speakNext, _)]
    fires, or the device reports the start, the end or the failure of the
    [k]-th utterance it was handed.  [d] is what [window.speechSynthesis]
    shows at that moment. *)
Inductive Callback : Type :=
| TimerFired (d : Synth)
| Started (k : nat)
| Ended (k : nat)
| Failed (reason : string) (d : Synth).

Definition with_app (st : State) (p : Player) : Player :=
  {| app := st; handed := handed p; shown := shown p |}.

(** The state with the device as it is now. *)
Definition observe (d : Synth) (st : State) : State :=
  with_session (with_device d (session st)) st.

Definition with_card (c : option string) (s : Session) : Session :=
  {| globalSpeechState := globalSpeechState s;
     currentlySpeakingCard := c;
     speechQueueRef := speechQueueRef s;
     speechSynthesis := speechSynthesis s |}.

Definition with_timers (ts : list Z) (st : State) : State :=
  {| session := session st;
     voices := voices st;
     selectedVoiceURI := selectedVoiceURI st;
     error := error st;
     timers := ts |}.

Definition with_error (e : option string) (st : State) : State :=
  {| session := session st;
     voices := voices st;
     selectedVoiceURI := selectedVoiceURI st;
     error := e;
     timers := timers st |}.

(** [speakNext].  With a negative index [utterances[currentIndex]] is
    [undefined] and reading its [utterance] throws before anything is
    written; the index starts at 0 and only grows. *)
Definition speakNext (d : Synth) (p : Player) : Player :=
  let st := observe d (app p) in
  let q := speechQueueRef (session st) in
  if Z.of_nat (List.length (utterances q)) <=? currentIndex q then
    with_app (with_session (stopSpeech (session st)) st) p
  else if currentIndex q <? 0 then p
  else
    match nth_error (utterances q) (Z.to_nat (currentIndex q)) with
    | Some currentItem =>
        {| app := st; handed := handed p ++ [currentItem]; shown := shown p |}
    | None => p
    end.

(** [currentUtterance.onstart] of the [k]-th utterance handed over. *)
Definition onstart (k : nat) (p : Player) : Player :=
  match nth_error (handed p) k with
  | Some currentItem =>
      {| app := with_session
                  (with_card (Some (cardId currentItem)) (session (app p)))
                  (app p);
         handed := handed p;
         shown := shown p ++ [cardId currentItem] |}
  | None => p
  end.

(** [currentUtterance.onend]: the index of the queue now in the reference
    goes up and [speakNext] is scheduled. *)
Definition onend (k : nat) (p : Player) : Player :=
  match nth_error (handed p) k with
  | Some _ =>
      let st := app p in
      let q := speechQueueRef (session st) in
      with_app
        (with_timers (timers st ++ [50])
           (with_session
              (with_queue {| utterances := utterances q;
                             currentIndex := currentIndex q + 1 |}
                          (session st))
              st))
        p
  | None => p
  end.

(** The message [utterance.onerror] shows; an empty [e.error] reads
    [unknown error]. *)
Definition failure_message (reason : string) : string :=
  ("Speech synthesis failed: "
   ++ (if String.eqb reason EmptyString then "unknown error" else reason)
   ++ ". Please try a different voice or refresh the page.")%string.

(** [utterance.onerror] *)
Definition onerror (reason : string) (d : Synth) (p : Player) : Player :=
  let st := with_error (Some (failure_message reason)) (observe d (app p)) in
  with_app (with_session (stopSpeech (session st)) st) p.

Definition deliver (p : Player) (c : Callback) : Player :=
  match c with
  | TimerFired d =>
      match timers (app p) with
      | [] => p
      | _ :: rest => speakNext d (with_app (with_timers rest (app p)) p)
      end
  | Started k => onstart k p
  | Ended k => onend k p
  | Failed reason d => onerror reason d p
  end.

Definition run (cs : list Callback) (p : Player) : Player :=
  fold_left deliver cs p.

(** A click on the read-aloud button: [handleGlobalSpeech]. *)
Definition click (analysis : option AnalysisResult) (d : Synth) (p : Player)
  : Player :=
  with_app (handleGlobalSpeech analysis (observe d (app p))) p.

(** What the device calls back when it speaks every utterance it is handed
    to the end: for each of the readings [ds] of the device a timer fires,
    then the utterance just handed over starts and ends; a last timer
    finds the queue exhausted. *)
Fixpoint listen (k : nat) (ds : list Synth) (last : Synth) : list Callback :=
  match ds with
  | [] => [TimerFired last]
  | d :: ds' => TimerFired d :: Started k :: Ended k :: listen (S k) ds' last
  end.

End Playback.

(** ** The second variant: the ticker and the one-request analysis *)

Module Direct.

Import Json.

Record Headline : Type := {
  headline : string;
  source : string;
  emoji : string;
  publishedAt : string;
  url : string
}.

(** [Omit<Headline, 'emoji' | 'publishedAt'>] *)
Record TickerItem : Type := {
  itemHeadline : string;
  itemSource : string;
  itemUrl : string
}.

(** The emoji literal of [fetchTickerHeadlines], byte for byte. *)
Definition defaultEmoji : string :=
  string_of_list_ascii
    (map ascii_of_nat
         [195; 162; 197; 161; 194; 161; 195; 175; 194; 184]%nat).

(** [parsed.headlines.map(h => ({...h, emoji, publishedAt}))]; the clock is
    read once for each item. *)
Fixpoint withDefaults (clock : nat -> string) (i : nat)
    (items : list TickerItem) : list Headline :=
  match items with
  | [] => []
  | h :: rest =>
      {| headline := itemHeadline h;
         source := itemSource h;
         emoji := defaultEmoji;
         publishedAt := clock i;
         url := itemUrl h |} :: withDefaults clock (S i) rest
  end.

(** [fetchTickerHeadlines], given whether the client exists and what the
    request and [JSON.parse] produced; the result is the new value of
    [tickerHeadlines]. *)
Definition fetchTickerHeadlines (client : bool)
    (response : exn + list TickerItem) (clock : nat -> string)
    (tickerHeadlines : list Headline) : M (list Headline) :=
  try_catch
    (if negb client then ret tickerHeadlines
     else
       parsed <- (match response with
                  | inl e => throw e
                  | inr items => ret items
                  end) ;;
       ret (withDefaults clock 0 parsed))
    (fun err =>
       emit (ConsoleError "Failed to fetch ticker headlines:") ;;;
       ret tickerHeadlines).

(** The buttons of [NewsTicker]; [None] when it renders nothing. *)
Definition tickerItems (headlines : list Headline) : option (list Headline) :=
  match headlines with
  | [] => None
  | _ => Some (headlines ++ headlines)
  end.

(** The service as [getAnalysis] of this variant uses it: the answer to the
    prompt made of the title, the source and the URL of the headline. *)
Class Service : Type := {
  ready : bool;
  analyzeArticle : string -> string -> string -> exn + string
}.

(** [{...base, ...extra}] *)
Definition overlay (base extra : list (string * jsval))
  : list (string * jsval) :=
  fold_left (fun acc kv => set_field (fst kv) (snd kv) acc) extra base.

(** The properties [finalResult] starts with. *)
Definition ownFields (h : Headline) : list (string * jsval) :=
  [ ("topic", VStr (headline h));
    ("article",
      VObj [ ("title", VStr (headline h));
             ("url", VStr (url h));
             ("source", VStr (source h));
             ("publishedAt", VStr (publishedAt h)) ]) ].

(** The body of the [try] block. *)
Definition analyze `{Platform} `{Service} (h : Headline) : M jsval :=
  (if ready then ret tt else throw (Error "AI client not initialized.")) ;;;
  text <- (match analyzeArticle (headline h) (source h) (url h) with
           | inl e => throw e
           | inr t => ret t
           end) ;;
  analysisData <- safeParseJson text ;;
  ret (VObj (overlay (ownFields h) (Pipeline.spread analysisData))).

(** [getAnalysis] of this variant. *)
Definition getAnalysis `{Platform} `{Service} (h : Headline)
    (st : Pipeline.State) : M Pipeline.State :=
  emit (LoadingMessage "Analyzing perspective...") ;;;
  let st1 := {| Pipeline.analysis := None;
                Pipeline.loading := true;
                Pipeline.loadingMessage := "Analyzing perspective...";
                Pipeline.error := None;
                Pipeline.speech := Speech.stopSpeech (Pipeline.speech st) |} in
  st2 <- try_catch
    (finalResult <- analyze h ;;
     ret {| Pipeline.analysis := Some finalResult;
            Pipeline.loading := Pipeline.loading st1;
            Pipeline.loadingMessage := Pipeline.loadingMessage st1;
            Pipeline.error := Pipeline.error st1;
            Pipeline.speech := Pipeline.speech st1 |})
    (fun err =>
       emit (ConsoleError (printed err)) ;;;
       ret {| Pipeline.analysis := Pipeline.analysis st1;
              Pipeline.loading := Pipeline.loading st1;
              Pipeline.loadingMessage := Pipeline.loadingMessage st1;
              Pipeline.error := Some (message err);
              Pipeline.speech := Pipeline.speech st1 |}) ;;
  emit (LoadingMessage EmptyString) ;;;
  ret {| Pipeline.analysis := Pipeline.analysis st2;
         Pipeline.loading := false;
         Pipeline.loadingMessage := EmptyString;
         Pipeline.error := Pipeline.error st2;
         Pipeline.speech := Pipeline.speech st2 |}.

End Direct.

(** ** The first variant: [getAnalysis] *)

Module Grounded.

(** The React state [getAnalysis] of the first variant writes. *)
Record State : Type := {
  analysis : option jsval;
  loading : bool;
  error : option string;
  speech : Speech.Session
}.

(** [getAnalysis], given whether the client exists and what the grounded
    request returned: a rejection, or the [text] of the response. *)
Definition getAnalysis `{Platform} (client : bool) (response : exn + string)
    (st : State) : M State :=
  let st1 := {| analysis := None;
                loading := true;
                error := None;
                speech := Speech.stopSpeech_v1 (speech st) |} in
  st2 <- try_catch
    ((if client then ret tt else throw (Error "AI client not initialized.")) ;;;
     text <- (match response with
              | inl e => throw e
              | inr t => ret t
              end) ;;
     parsedJson <- FirstVariant.extractJson text ;;
     ret {| analysis := Some parsedJson;
            loading := loading st1;
            error := error st1;
            speech := speech st1 |})
    (fun err =>
       emit (ConsoleError (printed err)) ;;;
       ret {| analysis := analysis st1;
              loading := loading st1;
              error := Some (message err);
              speech := speech st1 |}) ;;
  ret {| analysis := analysis st2;
         loading := false;
         error := error st2;
         speech := speech st2 |}.

End Grounded.

(** * Vocabulary of the further properties *)

(** ** Playing the queue *)

(** The session is stopped, its queue is empty and its index is not
    negative. *)
Definition at_rest (p : Playback.Player) : Prop :=
  Speech.globalSpeechState (Narration.session (Playback.app p)) = Speech.stopped
  /\ Speech.utterances
       (Speech.speechQueueRef (Narration.session (Playback.app p))) = []
  /\ 0 <= Speech.currentIndex
            (Speech.speechQueueRef (Narration.session (Playback.app p))).

(** A player that has handed nothing to the device yet. *)
Definition fresh_player (st : Narration.State) : Playback.Player :=
  {| Playback.app := st; Playback.handed := []; Playback.shown := [] |}.

(** ** The narration queue, card by card *)

(** What a text queued with splitting contributes: nothing when it is
    absent or blank, its trimmed non-empty fragments otherwise. *)
Definition said (text : option string) : list string :=
  match text with
  | Some t => if whitespace_only t then [] else spokenSentences t
  | None => []
  end.



(** The texts of an article card: four fixed lines around the summary, then
    the heading and the text of its analysis. *)
Definition articleLines (a : Narration.ArticleAnalysis) (opening heading : string)
    (body : option string) : list string :=
  [ opening;
    ("Title: " ++ Narration.title a)%string;
    ("Source: " ++ Narration.source a)%string;
    "Summary:" ]
  ++ said (Some (Narration.summary a))
  ++ [heading]
  ++ said body.

(** The texts of a card of talking points. *)
Definition pointLines (opening : string) (points : list string) : list string :=
  opening :: flat_map (fun point => said (Some point)) points.

(** The texts of a perspective card of the second variant. *)
Definition perspectiveLines (intro : string) (p : SingleArticle.Perspective)
  : list string :=
  [intro]
  ++ said (Some (SingleArticle.summary p))
  ++ ["Key talking points include:"]
  ++ flat_map (fun point => said (Some point)) (SingleArticle.talkingPoints p).

(** The texts of the card of the article in the second variant. *)
Definition detailLines (analysis : SingleArticle.AnalysisResult) : list string :=
  [ ("Analyzing the article: "
     ++ SingleArticle.title (SingleArticle.article analysis) ++ ".")%string;
    ("Source: "
     ++ SingleArticle.source (SingleArticle.article analysis) ++ ".")%string;
    ("Category: " ++ SingleArticle.category analysis ++ ".")%string;
    ("Popularity Score: "
     ++ SingleArticle.score (SingleArticle.popularity analysis) ++ ".")%string ]
  ++ said (Some (SingleArticle.justification (SingleArticle.popularity analysis))).

(** *** An analysis to narrate *)

Module Sample.

Definition device : Speech.Synth :=
  {| Speech.speaking := false;
     Speech.pending := false;
     Speech.devicePaused := false |}.

Definition analysis : Narration.AnalysisResult :=
  {| Narration.topic := "Fuel prices";
     Narration.rightWingArticle :=
       {| Narration.title := "Prices at the pump";
          Narration.url := "https://example.org/right";
          Narration.source := "Fox News";
          Narration.publishedAt := "2024-05-01T10:00:00Z";
          Narration.summary := "Prices rose again. Who pays?";
          Narration.spinAnalysis := Some "Blames the administration.";
          Narration.portrayalOfRight := None |};
     Narration.leftWingArticle :=
       {| Narration.title := "Who profits from fuel";
          Narration.url := "https://example.org/left";
          Narration.source := "MSNBC";
          Narration.publishedAt := "2024-05-01T11:00:00Z";
          Narration.summary := "Margins are up.";
          Narration.spinAnalysis := None;
          Narration.portrayalOfRight := Some "   " |};
     Narration.leftistTalkingPoints := ["Regulate margins."; "Tax windfalls!"];
     Narration.socialistTalkingPoints := [];
     Narration.spectrumScore := 2 # 1;
     Narration.spectrumJustification := "Leans left." |}.

End Sample.

(** ** The requests of a run *)

(** The prompts sent to the service, in order. *)
Fixpoint requestsOf (t : list event) : list Prompt :=
  match t with
  | [] => []
  | Request p :: t' => p :: requestsOf t'
  | _ :: t' => requestsOf t'
  end.

Definition reqs {A} (m : M A) : list Prompt := requestsOf (trace m).

(** The event is not a request. *)
Definition silent (e : event) : Prop :=
  match e with
  | Request _ => False
  | _ => True
  end.

(** No request, or one classification request. *)
Definition classification (rs : list Prompt) : Prop :=
  rs = [] \/ exists a sa b sb, rs = [ClassifyPrompt a sa b sb].

(** No request, or one analysis request for the topic. *)
Definition analysisOf (topic : string) (rs : list Prompt) : Prop :=
  rs = [] \/
  exists rt rs' ru lt ls lu, rs = [AnalysisPrompt topic rt rs' ru lt ls lu].

(** Nothing; or the search for the topic, then at most one classification,
    then at most one analysis. *)
Definition request_shape (topic : string) (rs : list Prompt) : Prop :=
  rs = [] \/
  exists cls ana,
    rs = SearchPrompt topic :: cls ++ ana
    /\ classification cls /\ analysisOf topic ana.

(** ** The steps of the [try] block of [getAnalysis] *)

Section Steps.

Import Pipeline.

Context `{P : Platform} `{E : Environment}.

(** What is left to do once the two articles are assigned. *)
Definition afterSides (topic : string) (sides : jsval * jsval) : M jsval :=
  requireTitles (fst sides) (snd sides) ;;;
  analyzeArticles topic (fst sides) (snd sides).

(** What is left to do once the search response is parsed. *)
Definition afterParse (topic : string) (parsedResponse : jsval) : M jsval :=
  sides <- assignSides parsedResponse ;;
  afterSides topic sides.

(** What is left to do once the search request has returned. *)
Definition afterSearch (topic searchText : string) : M jsval :=
  parsedResponse <- safeParseJson searchText ;;
  afterParse topic parsedResponse.

End Steps.

(** The request is not a classification request. *)
Definition not_classification (p : Prompt) : Prop :=
  match p with
  | ClassifyPrompt _ _ _ _ => False
  | _ => True
  end.

(** *** Two more responses of the search *)

Module Responses.

(** The two articles labelled by side. *)
Definition labelled : string :=
  json_text "{'rightWingArticle':{'title':'A','source':'Fox News','publishedAt':'2025-08-27'},'leftWingArticle':{'title':'B','source':'CNN'}}".

(** One article only. *)
Definition oneArticle : string :=
  json_text "{'articles':[{'title':'A','source':'Fox News'}]}".

(** A list whose first element is [null]. *)
Definition nullFirst : string :=
  json_text "{'articles':[null,{'title':'B','source':'CNN'}]}".

End Responses.

(** *** A run that succeeds *)

Module Success.

(** The state the run of [Scenario.env] on two articles leaves. *)
Definition final : Pipeline.State :=
  Eval vm_compute in
    match outcome (@Pipeline.getAnalysis reference_platform
                     (Scenario.env Scenario.twoArticles Scenario.namesFox)
                     "Budget vote" Scenario.initial) with
    | inr st => st
    | inl _ => Scenario.initial
    end.

Definition result : jsval :=
  Eval vm_compute in
    match Pipeline.analysis final with
    | Some r => r
    | None => VNull
    end.

End Success.

(** ** Headlines once more *)

(** The date of the headline cannot be read. *)
Definition undated `{Platform} (h : Headlines.Headline) : Prop :=
  Date_getTime (Headlines.publishedAt h) = None.

(** The test [fetchHeadlines] filters each side with. *)
Definition not_latest `{Platform} (parsedJson : Headlines.Headlines)
    (h : Headlines.Headline) : bool :=
  negb (Headlines.set_has
          (map Headlines.headline (Headlines.latestOf parsedJson))
          (Headlines.headline h)).

Module Undated.

Import Headlines.

Definition a1 := Example.mk "First" "CNN" "yesterday".
Definition a2 := Example.mk "Second" "Vox" "this morning".
Definition a3 := Example.mk "Third" "NPR" "n/a".
Definition b1 := Example.mk "Fourth" "Fox News" "soon".

Definition response : Headlines :=
  {| leftHeadlines := [a1; a2; a3]; rightHeadlines := [b1] |}.

End Undated.

(** ** The second variant *)

Module Ticker.

Import Direct.

Definition item1 : TickerItem :=
  {| itemHeadline := "Storm hits coast";
     itemSource := "CNN";
     itemUrl := "https://example.org/storm" |}.

Definition item2 : TickerItem :=
  {| itemHeadline := "Tax cut proposed";
     itemSource := "Fox News";
     itemUrl := "https://example.org/tax" |}.

Definition clock (i : nat) : string :=
  match i with
  | O => "2025-08-28T12:00:00.000Z"
  | _ => "2025-08-28T12:00:00.001Z"
  end.

(** The headline a user clicks. *)
Definition clicked : Headline :=
  {| headline := "Storm hits coast";
     source := "CNN";
     emoji := defaultEmoji;
     publishedAt := clock 0;
     url := "https://example.org/storm" |}.

(** A service whose answer carries a [topic] of its own. *)
Definition service : Service :=
  {| ready := true;
     analyzeArticle := fun _ _ _ =>
       inr (json_text "{'topic':'Weather','category':'National News','spectrumScore':-2}") |}.

End Ticker.

(** ** The first variant *)

(** The state [getAnalysis] of the first variant leaves, from what its
    [try] block did. *)
Definition grounded_settled (st : Grounded.State) (result : exn + jsval)
  : Grounded.State :=
  {| Grounded.analysis := match result with
                          | inr parsedJson => Some parsedJson
                          | inl _ => None
                          end;
     Grounded.loading := false;
     Grounded.error := match result with
                       | inr _ => None
                       | inl err => Some (message err)
                       end;
     Grounded.speech := Speech.stopSpeech_v1 (Grounded.speech st) |}.

(** ** Voices *)

(** The voice speaks some English. *)
Definition english (v : Speech.Voice) : bool :=
  JS.startsWith "en" (Speech.lang v).

(** The headlines published at time [t]. *)
Definition published_at `{Platform} (t : Z) (hs : list Headlines.Headline)
  : list Headlines.Headline :=
  filter (fun h => recency h =? t) hs.

Module Ties.

Definition early := Example.mk "Early" "CNN" "2025-08-01".
Definition first := Example.mk "First of two" "Vox" "2025-08-05".
Definition second := Example.mk "Second of two" "NPR" "2025-08-05".

End Ties.

(** ** The errors of a run *)

(** The errors the [try] block of [getAnalysis] makes itself, and the
    [TypeError]s of the engine. *)
Definition own_failure (e : exn) : Prop :=
  e = Error "AI client not initialized."
  \/ e = MalformedResponse
  \/ e = Pipeline.ArticlesNotFound
  \/ exists what, e = TypeError what.

(** When the computation throws, it throws one of those, or the rejection
    of a request it has sent. *)
Definition explained `{Environment} {A} (m : M A) : Prop :=
  forall e,
    outcome m = inl e ->
    own_failure e
    \/ exists p, In p (reqs m) /\ generateContent p = inl e.

(** *** An analysis response without the lists of talking points *)

Module Listless.

Definition analysisText : string :=
  json_text "{'rightWingArticleAnalysis':{'summary':'S1','spinAnalysis':'Spin'},'leftWingArticleAnalysis':{'summary':'S2','portrayalOfRight':'Port'},'spectrumScore':2,'spectrumJustification':'J'}".

(** The service of [Scenario.env] with that answer to the analysis
    request. *)
Definition env : Environment :=
  {| client := true;
     generateContent := fun p =>
       match p with
       | SearchPrompt _ => inr Scenario.twoArticles
       | ClassifyPrompt _ _ _ _ => inr Scenario.namesFox
       | AnalysisPrompt _ _ _ _ _ _ _ => inr analysisText
       end;
     clock := fun _ => Scenario.now |}.

End Listless.

(** *** A service that refuses the search *)

Module Refusing.

(** The search is rejected with a value that is not an [Error]. *)
Definition env : Environment :=
  {| client := true;
     generateContent := fun p =>
       match p with
       | SearchPrompt _ => inl (Rejected "quota exceeded")
       | _ => inr Scenario.analysisText
       end;
     clock := fun _ => Scenario.now |}.

End Refusing.

(** * Properties *)

(** ** Running computations *)

Lemma run_bind {A B} (m : M A) (k : A -> M B) (l : list event) :
  bind m k l =
  match m l with
  | (inl e, l') => (inl e, l')
  | (inr a, l') => k a l'
  end.
Proof. reflexivity. Qed.

Lemma run_ret {A} (a : A) (l : list event) : ret a l = (inr a, l).
Proof. reflexivity. Qed.

Lemma run_throw {A} (e : exn) (l : list event) :
  @throw A e l = (inl e, l).
Proof. reflexivity. Qed.

Lemma run_emit (e : event) (l : list event) : emit e l = (inr tt, l ++ [e]).
Proof. reflexivity. Qed.

(** ** Positions in a string *)

Section Positions.

Variable c : ascii.

Lemma get_lt_length (s : string) (i : nat) (a : ascii) :
  String.get i s = Some a -> (i < String.length s)%nat.
Proof.
  revert i; induction s as [|b s IH]; intros i Hget; simpl in *.
  - discriminate.
  - destruct i as [|i]; [lia|]. apply IH in Hget. lia.
Qed.

Lemma first_at_unique (s : string) (i i' : nat) :
  first_at c i s -> first_at c i' s -> i = i'.
Proof.
  intros [Hi Hmin] [Hi' Hmin'].
  destruct (Nat.lt_trichotomy i i') as [Hlt|[Heq|Hgt]]; auto.
  - exfalso; exact (Hmin' _ Hlt Hi).
  - exfalso; exact (Hmin _ Hgt Hi').
Qed.

Lemma last_at_unique (s : string) (j j' : nat) :
  last_at c j s -> last_at c j' s -> j = j'.
Proof.
  intros [Hj Hmax] [Hj' Hmax'].
  destruct (Nat.lt_trichotomy j j') as [Hlt|[Heq|Hgt]]; auto.
  - exfalso; exact (Hmax _ Hlt Hj').
  - exfalso; exact (Hmax' _ Hgt Hj).
Qed.

Lemma indexOf_from_spec (s : string) (k : Z) :
  0 <= k ->
  (JS.indexOf_from c s k = -1 /\ absent c s) \/
  (exists i, JS.indexOf_from c s k = k + Z.of_nat i /\ first_at c i s).
Proof.
  revert k; induction s as [|a s IH]; intros k Hk; simpl.
  - left; split; [reflexivity|]. intros i; destruct i; discriminate.
  - destruct (Ascii.eqb_spec a c) as [->|Hne].
    + right; exists 0%nat; split; [lia|]. split; [reflexivity|]. intros; lia.
    + destruct (IH (k + 1)) as [[Hm Habs]|[i [Hi [Hget Hmin]]]]; [lia| |].
      * left; split; [assumption|].
        intros [|i]; simpl; [congruence|apply Habs].
      * right; exists (S i); split; [lia|]. split; [exact Hget|].
        intros [|k'] Hlt; simpl; [congruence|]. apply Hmin; lia.
Qed.

Lemma lastIndexOf_from_spec (s : string) (k best : Z) :
  0 <= k ->
  (JS.lastIndexOf_from c s k best = best /\ absent c s) \/
  (exists j, JS.lastIndexOf_from c s k best = k + Z.of_nat j /\ last_at c j s).
Proof.
  revert k best; induction s as [|a s IH]; intros k best Hk; simpl.
  - left; split; [reflexivity|]. intros i; destruct i; discriminate.
  - destruct (IH (k + 1) (if Ascii.eqb a c then k else best))
      as [[Hm Habs]|[j [Hj [Hget Hmax]]]]; [lia| |].
    + rewrite Hm. destruct (Ascii.eqb_spec a c) as [->|Hne].
      * right; exists 0%nat; split; [lia|]. split; [reflexivity|].
        intros [|k'] Hlt; [lia|]. simpl. apply Habs.
      * left; split; [reflexivity|].
        intros [|i]; simpl; [congruence|apply Habs].
    + right; exists (S j); split; [lia|]. split; [exact Hget|].
      intros [|k'] Hlt; [lia|]. simpl. apply Hmax; lia.
Qed.

End Positions.

Lemma substring_between (s : string) (i j : nat) :
  (i <= j)%nat -> (j < String.length s)%nat ->
  JS.substring s (Z.of_nat i) (Z.of_nat j + 1) =
  String.substring i (j - i + 1) s.
Proof.
  intros Hij Hj. unfold JS.substring, JS.clamp.
  replace (Z.max 0 (Z.min (Z.of_nat i) (Z.of_nat (String.length s))))
    with (Z.of_nat i) by lia.
  replace (Z.max 0 (Z.min (Z.of_nat j + 1) (Z.of_nat (String.length s))))
    with (Z.of_nat j + 1) by lia.
  replace (Z.min (Z.of_nat i) (Z.of_nat j + 1)) with (Z.of_nat i) by lia.
  replace (Z.max (Z.of_nat i) (Z.of_nat j + 1)) with (Z.of_nat j + 1) by lia.
  rewrite Nat2Z.id.
  replace (Z.to_nat (Z.of_nat j + 1 - Z.of_nat i)) with (j - i + 1)%nat by lia.
  reflexivity.
Qed.

(** ** JSON extraction *)

Section Extraction.

Context `{P : Platform}.

Lemma brace_indices (s : string) :
  (exists i j,
      first_at "{" i s /\ last_at "}" j s /\ (i <= j)%nat /\
      no_braces s = false /\
      between_braces s = String.substring i (j - i + 1) s)
  \/
  ((forall i j, String.get i s = Some "{"%char ->
                String.get j s = Some "}"%char -> (j < i)%nat) /\
   no_braces s = true).
Proof.
  unfold no_braces, between_braces, JS.indexOf, JS.lastIndexOf.
  destruct (indexOf_from_spec "{" s 0 ltac:(lia))
    as [[Hi Habs]|[i [Hi Hfirst]]];
  destruct (lastIndexOf_from_spec "}" s 0 (-1) ltac:(lia))
    as [[Hj Habs']|[j [Hj Hlast]]];
  rewrite Hi, Hj.
  - right; split; [intros i j Hg; exfalso; exact (Habs i Hg)|reflexivity].
  - right; split; [intros i' j' Hg; exfalso; exact (Habs i' Hg)|reflexivity].
  - right; split; [intros i' j' _ Hg; exfalso; exact (Habs' j' Hg)|].
    replace (0 + Z.of_nat i =? -1) with false
      by (symmetry; apply Z.eqb_neq; lia).
    reflexivity.
  - replace (0 + Z.of_nat i =? -1) with false
      by (symmetry; apply Z.eqb_neq; lia).
    replace (0 + Z.of_nat j =? -1) with false
      by (symmetry; apply Z.eqb_neq; lia).
    destruct (Nat.le_gt_cases i j) as [Hle|Hgt].
    + left; exists i, j.
      split; [exact Hfirst|]. split; [exact Hlast|]. split; [exact Hle|].
      split.
      * replace (0 + Z.of_nat j <? 0 + Z.of_nat i) with false
          by (symmetry; apply Z.ltb_ge; lia).
        reflexivity.
      * rewrite !Z.add_0_l. apply substring_between; [assumption|].
        eapply get_lt_length; apply Hlast.
    + right; split.
      * intros i' j' Hgi Hgj.
        destruct Hfirst as [_ Hmin], Hlast as [_ Hmax].
        destruct (Nat.lt_ge_cases i' i) as [Hlt|Hge];
          [exfalso; exact (Hmin _ Hlt Hgi)|].
        destruct (Nat.lt_ge_cases j j') as [Hlt|Hge'];
          [exfalso; exact (Hmax _ Hlt Hgj)|]. lia.
      * replace (0 + Z.of_nat j <? 0 + Z.of_nat i) with true
          by (symmetry; apply Z.ltb_lt; lia).
        reflexivity.
Qed.

Lemma safeParseJson_cases (s : string) :
  (exists i j,
      first_at "{" i s /\ last_at "}" j s /\ (i <= j)%nat /\
      forall l, safeParseJson s l =
                parsed_or_malformed (String.substring i (j - i + 1) s) l)
  \/
  ((forall i j, String.get i s = Some "{"%char ->
                String.get j s = Some "}"%char -> (j < i)%nat) /\
   forall l, safeParseJson s l =
             (inl MalformedResponse, l ++ [parse_failure_event])).
Proof.
  destruct (brace_indices s)
    as [(i & j & Hi & Hj & Hle & Htest & Htext)|[Hno Htest]].
  - left. exists i, j. repeat (split; [assumption|]).
    intros l. unfold safeParseJson, try_catch.
    fold (no_braces s). fold (between_braces s).
    rewrite Htest, Htext. unfold parsed_or_malformed.
    destruct (JSON_parse _); reflexivity.
  - right. split; [exact Hno|]. intros l. unfold safeParseJson, try_catch.
    fold (no_braces s). rewrite Htest. reflexivity.
Qed.

(** The extraction written inline in the first variant of the file works
    on the trimmed text and words the first failure differently. *)
Lemma extractJson_cases (s : string) :
  (exists i j,
      first_at "{" i (JS.trim s) /\ last_at "}" j (JS.trim s) /\
      (i <= j)%nat /\
      outcome (FirstVariant.extractJson s) =
      match JSON_parse (String.substring i (j - i + 1) (JS.trim s)) with
      | Some v => inr v
      | None => inl MalformedResponse
      end)
  \/
  ((forall i j, String.get i (JS.trim s) = Some "{"%char ->
                String.get j (JS.trim s) = Some "}"%char -> (j < i)%nat) /\
   outcome (FirstVariant.extractJson s) =
   inl (Error FirstVariant.no_json_message)).
Proof.
  destruct (brace_indices (JS.trim s))
    as [(i & j & Hi & Hj & Hle & Htest & Htext)|[Hno Htest]].
  - left. exists i, j. repeat (split; [assumption|]).
    unfold FirstVariant.extractJson, outcome. cbv zeta.
    fold (no_braces (JS.trim s)). fold (between_braces (JS.trim s)).
    rewrite Htest, Htext.
    destruct (JSON_parse _); reflexivity.
  - right. split; [exact Hno|].
    unfold FirstVariant.extractJson, outcome. cbv zeta.
    fold (no_braces (JS.trim s)). rewrite Htest. reflexivity.
Qed.

End Extraction.

(** C1.  [safeParseJson] parses the text between the first opening brace
    and the last closing brace of its input, whatever surrounds them, and
    returns what [JSON.parse] makes of it; when there is no opening brace
    followed (weakly) by a closing one, or when that text does not parse, it
    throws [MalformedResponse]; it never throws anything else and never
    returns a value that is not the parse of that text.  On
    [here is json: {"a":1} thanks] it returns the parse of [{"a":1}], which
    on the reference platform is the object with the one member [a = 1]. *)
Theorem safeParseJson_extracts_between_braces :
  forall (P : Platform) (s : string),
    (forall i j,
        first_at "{" i s -> last_at "}" j s -> (i <= j)%nat ->
        outcome (safeParseJson s) =
        match JSON_parse (String.substring i (j - i + 1) s) with
        | Some v => inr v
        | None => inl MalformedResponse
        end)
    /\ ((forall i j, String.get i s = Some "{"%char ->
                     String.get j s = Some "}"%char -> (j < i)%nat) ->
        outcome (safeParseJson s) = inl MalformedResponse)
    /\ (forall e, outcome (safeParseJson s) = inl e -> e = MalformedResponse)
    /\ (forall v,
          outcome (safeParseJson s) = inr v ->
          exists i j,
            first_at "{" i s /\ last_at "}" j s /\ (i <= j)%nat /\
            JSON_parse (String.substring i (j - i + 1) s) = Some v)
    /\ outcome (safeParseJson (json_text "here is json: {'a':1} thanks")) =
       match JSON_parse (json_text "{'a':1}") with
       | Some v => inr v
       | None => inl MalformedResponse
       end
    /\ outcome (@safeParseJson reference_platform
                  (json_text "here is json: {'a':1} thanks")) =
       inr (VObj [("a", VNum 1)]).
Proof.
  intros P s.
  assert (Hrun : forall t l,
             fst (parsed_or_malformed t l) =
             match JSON_parse t with
             | Some v => inr v
             | None => inl MalformedResponse
             end).
  { intros t l. unfold parsed_or_malformed. destruct (JSON_parse t); reflexivity. }
  split; [|split; [|split; [|split; [|split]]]].
  - intros i j Hi Hj Hij. unfold outcome.
    destruct (safeParseJson_cases s)
      as [(i' & j' & Hi' & Hj' & _ & Heq)|[Hno Heq]]; rewrite Heq.
    + rewrite (first_at_unique _ _ _ _ Hi Hi'), (last_at_unique _ _ _ _ Hj Hj').
      apply Hrun.
    + exfalso. specialize (Hno i j (proj1 Hi) (proj1 Hj)). lia.
  - intros Hno. unfold outcome.
    destruct (safeParseJson_cases s)
      as [(i' & j' & Hi' & Hj' & Hle & _)|[_ Heq]].
    + exfalso. specialize (Hno i' j' (proj1 Hi') (proj1 Hj')). lia.
    + rewrite Heq. reflexivity.
  - intros e. unfold outcome.
    destruct (safeParseJson_cases s)
      as [(i' & j' & _ & _ & _ & Heq)|[_ Heq]]; rewrite Heq.
    + rewrite Hrun. destruct (JSON_parse _); congruence.
    + simpl. congruence.
  - intros v. unfold outcome.
    destruct (safeParseJson_cases s)
      as [(i' & j' & Hi' & Hj' & Hle & Heq)|[_ Heq]]; rewrite Heq.
    + rewrite Hrun. intros Hv. exists i', j'. repeat split;
        try apply Hi'; try apply Hj'; auto.
      destruct (JSON_parse _); congruence.
    + simpl. discriminate.
  - unfold outcome, safeParseJson, try_catch. simpl.
    destruct (JSON_parse _); reflexivity.
  - reflexivity.
Qed.

(** ** Sorting *)

Section SortProperties.

Context `{P : Platform} {A : Type}.
Variable comparefn : A -> A -> option Z.

Lemma insert_perm (x : A) (l : list A) :
  Permutation (JSArray.insert comparefn x l) (x :: l).
Proof.
  induction l as [|y l IH]; simpl.
  - apply Permutation_refl.
  - destruct (JSArray.compare_value comparefn x y <=? 0).
    + apply Permutation_refl.
    + eapply Permutation_trans; [apply perm_skip, IH|apply perm_swap].
Qed.

Lemma stable_perm (l : list A) : Permutation (JSArray.stable comparefn l) l.
Proof.
  induction l as [|x l IH]; simpl.
  - apply perm_nil.
  - eapply Permutation_trans; [apply insert_perm|apply perm_skip, IH].
Qed.

Lemma pick_all (l pre : list A) :
  JSArray.pick (seq (List.length pre) (List.length l)) (pre ++ l) = l.
Proof.
  revert pre. induction l as [|x l IH]; intros pre; [reflexivity|].
  cbn [List.length seq JSArray.pick flat_map].
  rewrite nth_error_app2, Nat.sub_diag by lia. cbn [nth_error app].
  f_equal. specialize (IH (pre ++ [x])).
  rewrite length_app, <- app_assoc in IH. cbn [List.length app] in IH.
  rewrite Nat.add_1_r in IH. exact IH.
Qed.

Lemma rearrangement_perm (n : nat) (ps : list nat) :
  JSArray.rearrangement n ps = true -> Permutation (seq 0 n) ps.
Proof.
  unfold JSArray.rearrangement. intros Hr.
  apply andb_true_iff in Hr. destruct Hr as [Hlen Hall].
  apply Nat.eqb_eq in Hlen.
  apply NoDup_Permutation_bis.
  - apply seq_NoDup.
  - rewrite length_seq. lia.
  - intros i Hi. rewrite forallb_forall in Hall.
    apply Hall, existsb_exists in Hi. destruct Hi as (j & Hj & Heq).
    apply Nat.eqb_eq in Heq. subst. exact Hj.
Qed.

Lemma sort_perm (l : list A) : Permutation (JSArray.sort comparefn l) l.
Proof.
  unfold JSArray.sort.
  destruct (JSArray.consistent comparefn l); [apply stable_perm|].
  cbv zeta.
  destruct (JSArray.rearrangement _ _) eqn:Hr; [|apply Permutation_refl].
  apply rearrangement_perm in Hr.
  eapply Permutation_trans;
    [apply Permutation_flat_map, Permutation_sym, Hr|].
  pose proof (pick_all l []) as Hall. unfold JSArray.pick in Hall.
  cbn [List.length app] in Hall. rewrite Hall. apply Permutation_refl.
Qed.

Lemma sort_In (l : list A) (x : A) :
  In x (JSArray.sort comparefn l) <-> In x l.
Proof.
  split; apply Permutation_in;
    [apply sort_perm|apply Permutation_sym, sort_perm].
Qed.

(** When the comparator is [key b - key a] on the elements at hand, it is
    consistent and the result is in descending order of [key]. *)
Variable key : A -> Z.

Lemma insert_sorted (x : A) (l : list A) :
  (forall y, In y l -> JSArray.compare_value comparefn x y = key y - key x) ->
  StronglySorted (descending key) l ->
  StronglySorted (descending key) (JSArray.insert comparefn x l).
Proof.
  intros Hcmp Hs. induction Hs as [|y l Hs IH Hall]; simpl.
  - constructor; constructor.
  - rewrite (Hcmp y (or_introl eq_refl)).
    destruct (Z.leb_spec (key y - key x) 0) as [Hle|Hgt].
    + constructor; [constructor; assumption|].
      constructor; [unfold descending; lia|].
      rewrite Forall_forall in *. intros z Hz.
      specialize (Hall z Hz). unfold descending in *. lia.
    + constructor.
      * apply IH. intros z Hz. apply Hcmp. right; assumption.
      * rewrite Forall_forall in *. intros z Hz.
        apply (Permutation_in _ (insert_perm x l)) in Hz.
        destruct Hz as [<-|Hz]; [unfold descending; lia|auto].
Qed.

Lemma stable_sorted (l : list A) :
  (forall a b, In a l -> In b l ->
               JSArray.compare_value comparefn a b = key b - key a) ->
  StronglySorted (descending key) (JSArray.stable comparefn l).
Proof.
  induction l as [|x l IH]; intros Hcmp; simpl.
  - constructor.
  - apply insert_sorted.
    + intros y Hy. apply Hcmp; [left; reflexivity|].
      right. apply (Permutation_in _ (stable_perm l)). assumption.
    + apply IH. intros a b Ha Hb. apply Hcmp; right; assumption.
Qed.

Lemma consistent_keyed (l : list A) :
  (forall a b, In a l -> In b l ->
               JSArray.compare_value comparefn a b = key b - key a) ->
  JSArray.consistent comparefn l = true.
Proof.
  intros Hcmp. unfold JSArray.consistent.
  apply forallb_forall. intros a Ha.
  apply andb_true_iff. split.
  { rewrite (Hcmp a a Ha Ha). apply Z.eqb_eq. lia. }
  apply forallb_forall. intros b Hb.
  rewrite (Hcmp a b Ha Hb), (Hcmp b a Hb Ha).
  apply andb_true_iff. split.
  { destruct (Z.eqb_spec (key b - key a) 0) as [Heq|Hne]; [|reflexivity].
    simpl. apply Z.eqb_eq. lia. }
  apply forallb_forall. intros c Hc.
  rewrite (Hcmp b c Hb Hc), (Hcmp a c Ha Hc).
  repeat (apply andb_true_iff; split).
  - destruct (Z.eqb_spec (key b - key a) 0); [|reflexivity].
    destruct (Z.eqb_spec (key c - key b) 0); [|reflexivity].
    simpl. apply Z.eqb_eq. lia.
  - destruct (Z.ltb_spec (key b - key a) 0); [|reflexivity].
    destruct (Z.ltb_spec (key c - key b) 0); [|reflexivity].
    simpl. apply Z.ltb_lt. lia.
  - destruct (Z.ltb_spec 0 (key b - key a)); [|reflexivity].
    destruct (Z.ltb_spec 0 (key c - key b)); [|reflexivity].
    simpl. apply Z.ltb_lt. lia.
Qed.

Lemma sort_keyed (l : list A) :
  (forall a b, In a l -> In b l ->
               JSArray.compare_value comparefn a b = key b - key a) ->
  JSArray.sort comparefn l = JSArray.stable comparefn l.
Proof.
  intros Hcmp. unfold JSArray.sort.
  rewrite (consistent_keyed l Hcmp). reflexivity.
Qed.

Lemma sort_sorted (l : list A) :
  (forall a b, In a l -> In b l ->
               JSArray.compare_value comparefn a b = key b - key a) ->
  StronglySorted (descending key) (JSArray.sort comparefn l).
Proof.
  intros Hcmp. rewrite (sort_keyed l Hcmp). apply stable_sorted. exact Hcmp.
Qed.

Lemma sorted_app_left (l1 l2 : list A) :
  StronglySorted (descending key) (l1 ++ l2) -> StronglySorted (descending key) l1.
Proof.
  induction l1 as [|x l1 IH]; simpl; intros Hs.
  - constructor.
  - inversion Hs as [|? ? Hs' Hall]; subst. constructor; [auto|].
    rewrite Forall_forall in *. intros z Hz. apply Hall, in_or_app; auto.
Qed.

Lemma sorted_app_between (l1 l2 : list A) :
  StronglySorted (descending key) (l1 ++ l2) ->
  forall x y, In x l1 -> In y l2 -> key y <= key x.
Proof.
  induction l1 as [|a l1 IH]; simpl; intros Hs x y Hx Hy.
  - contradiction.
  - inversion Hs as [|? ? Hs' Hall]; subst.
    destruct Hx as [<-|Hx]; [|eauto].
    rewrite Forall_forall in Hall. apply Hall, in_or_app; auto.
Qed.

(** In a descending list the elements at or above a threshold form a
    prefix. *)
Lemma sorted_filter_prefix (t : Z) (l : list A) :
  StronglySorted (descending key) l ->
  filter (fun x => t <=? key x) l =
  firstn (List.length (filter (fun x => t <=? key x) l)) l.
Proof.
  intros Hs. induction Hs as [|x l Hs IH Hall]; simpl.
  - reflexivity.
  - destruct (Z.leb_spec t (key x)) as [Hle|Hlt]; simpl.
    + f_equal. exact IH.
    + assert (Hnone : filter (fun x => t <=? key x) l = []).
      { clear IH Hs. induction l as [|y l IHl]; simpl; [reflexivity|].
        inversion Hall as [|? ? Hy Hall']; subst. unfold descending in Hy.
        destruct (Z.leb_spec t (key y)); [lia|auto]. }
      rewrite Hnone. reflexivity.
Qed.

End SortProperties.

Lemma Permutation_filter_compat {A : Type} (p : A -> bool) (l l' : list A) :
  Permutation l l' -> Permutation (filter p l) (filter p l').
Proof.
  induction 1 as [|x l l' _ IH|x y l|l l' l'' _ IH1 _ IH2]; simpl.
  - apply perm_nil.
  - destruct (p x); [apply perm_skip|]; assumption.
  - destruct (p x), (p y); try apply Permutation_refl. apply perm_swap.
  - eapply Permutation_trans; eassumption.
Qed.

(** ** Headlines *)

Section HeadlineProperties.

Import Headlines.

Context `{P : Platform}.

Lemma byRecency_dated (a b : Headline) :
  dated a -> dated b ->
  JSArray.compare_value byRecency a b = recency b - recency a.
Proof.
  unfold dated, JSArray.compare_value, byRecency, recency.
  destruct (Date_getTime (publishedAt a)), (Date_getTime (publishedAt b));
    intros; congruence.
Qed.

Lemma set_has_In (xs : list string) (x : string) :
  set_has xs x = true <-> In x xs.
Proof.
  unfold set_has. rewrite existsb_exists. split.
  - intros [y [Hy Heq]]. apply String.eqb_eq in Heq. subst. assumption.
  - intros Hx. exists x. split; [assumption|apply String.eqb_refl].
Qed.

Lemma remaining_side_text (parsedJson : Headlines) (side : list Headline)
    (h k : Headline) :
  In h (latestOf parsedJson) ->
  In k (sortHeadlines
          (filter (fun x => negb (set_has (map headline (latestOf parsedJson))
                                          (headline x))) side)) ->
  headline k <> headline h.
Proof.
  intros Hh Hk Heq. unfold sortHeadlines in Hk.
  apply sort_In in Hk. apply filter_In in Hk. destruct Hk as [_ Hk].
  apply negb_true_iff in Hk.
  assert (Hin : set_has (map headline (latestOf parsedJson)) (headline k) = true).
  { apply set_has_In. rewrite Heq. apply in_map. assumption. }
  congruence.
Qed.

Lemma remaining_text (parsedJson : Headlines) (h k : Headline) :
  In h (latestOf parsedJson) ->
  In k (leftHeadlines (remainingOf parsedJson) ++
        rightHeadlines (remainingOf parsedJson)) ->
  headline k <> headline h.
Proof.
  intros Hh Hk. apply in_app_or in Hk. simpl in Hk.
  destruct Hk as [Hk|Hk]; eapply remaining_side_text; eassumption.
Qed.

Lemma fetchHeadlines_success (parsedJson : Headlines) (st : State) :
  outcome (fetchHeadlines true (inr parsedJson) st) =
  inr {| headlines := Some (remainingOf parsedJson);
         latestHeadlines := Some (latestOf parsedJson);
         headlinesLoading := false;
         headlinesError := None |}.
Proof. reflexivity. Qed.

Lemma latest_sorted_split (parsedJson : Headlines) :
  (forall h, In h (pool parsedJson) -> dated h) ->
  StronglySorted (descending recency)
    (latestOf parsedJson ++ skipn 2 (JSArray.sort byRecency (pool parsedJson))).
Proof.
  intros Hd. unfold latestOf, JSArray.slice0. fold (pool parsedJson).
  rewrite firstn_skipn. apply sort_sorted.
  intros a b Ha Hb. apply byRecency_dated; auto.
Qed.

End HeadlineProperties.

Section HeadlineClaims.

Import Headlines.

(** C2.  After a run of [fetchHeadlines] that ends without an error, no
    headline of the stored latest list has the text of a headline of the
    stored left or right list; and the text is all that decides: a headline
    of the response whose text is that of no latest headline is still on
    its side. *)
Theorem latest_texts_absent_from_sides :
  forall (P : Platform) (client : bool) (response : exn + Headlines)
         (st final : State) (latest : list Headline) (sides : Headlines),
    outcome (fetchHeadlines client response st) = inr final ->
    headlinesError final = None ->
    latestHeadlines final = Some latest ->
    headlines final = Some sides ->
    (forall h k,
        In h latest ->
        In k (leftHeadlines sides ++ rightHeadlines sides) ->
        headline k <> headline h)
    /\ (forall parsedJson k,
          response = inr parsedJson ->
          (forall h, In h latest -> headline k <> headline h) ->
          (In k (leftHeadlines parsedJson) -> In k (leftHeadlines sides)) /\
          (In k (rightHeadlines parsedJson) -> In k (rightHeadlines sides))).
Proof.
  intros P client response st final latest sides Hrun Herr Hlatest Hsides.
  destruct client, response as [e|parsedJson];
    try (cbv in Hrun; injection Hrun as <-; discriminate).
  rewrite fetchHeadlines_success in Hrun. injection Hrun as <-.
  simpl in Hlatest, Hsides. injection Hlatest as <-. injection Hsides as <-.
  split; [intros h k; apply remaining_text|].
  intros parsedJson' k Heq Hk. injection Heq as <-.
  assert (Hkeep : negb (set_has (map headline (latestOf parsedJson))
                                (headline k)) = true).
  { apply negb_true_iff.
    destruct (set_has (map headline (latestOf parsedJson)) (headline k))
      eqn:Hhas; [|reflexivity].
    apply set_has_In, in_map_iff in Hhas. destruct Hhas as [h [Hh Hin]].
    exfalso. apply (Hk h Hin). symmetry. exact Hh. }
  split; intros Hin; simpl; unfold sortHeadlines;
    apply sort_In, filter_In; split; assumption.
Qed.

Lemma latest_texts_absent_from_sides_witness :
  outcome (@fetchHeadlines reference_platform true (inr Example.response)
             Example.initial) = inr Example.final
  /\ headline Example.l2 <> headline Example.r1.
Proof.
  split; [vm_compute; reflexivity|].
  apply (proj1 (latest_texts_absent_from_sides reference_platform true
           (inr Example.response) Example.initial Example.final
           [Example.r1; Example.l3]
           {| leftHeadlines := [Example.l2; Example.l1; Example.l4; Example.l5];
              rightHeadlines := [Example.r4; Example.r2; Example.r3; Example.r5] |}
           ltac:(vm_compute; reflexivity) eq_refl eq_refl eq_refl));
    simpl; auto.
Defined.

End HeadlineClaims.

Section LatestClaim.

Import Headlines.

Lemma two_most_recent_prefix `{P : Platform} (l : list Headline)
    (h1 h2 : Headline) (others : list Headline) :
  StronglySorted (descending recency) l ->
  Permutation l (h1 :: h2 :: others) ->
  (forall o, In o others -> recency o < recency h1 /\ recency o < recency h2) ->
  Permutation (firstn 2 l) [h1; h2].
Proof.
  intros Hs Hperm Hold.
  set (t := Z.min (recency h1) (recency h2)).
  pose proof (sorted_filter_prefix recency t l Hs) as Hprefix.
  pose proof (Permutation_filter_compat (fun x => t <=? recency x) _ _ Hperm)
    as Hf.
  assert (Htop : filter (fun x => t <=? recency x) (h1 :: h2 :: others)
                 = [h1; h2]).
  { simpl.
    replace (t <=? recency h1) with true by (symmetry; apply Z.leb_le; lia).
    replace (t <=? recency h2) with true by (symmetry; apply Z.leb_le; lia).
    do 2 f_equal. clear Hperm Hf.
    induction others as [|o others IH]; simpl; [reflexivity|].
    destruct (Hold o (or_introl eq_refl)).
    replace (t <=? recency o) with false by (symmetry; apply Z.leb_gt; lia).
    apply IH. intros o' Ho'. apply Hold. right; assumption. }
  rewrite Htop in Hf.
  rewrite (Permutation_length Hf) in Hprefix.
  change (List.length [h1; h2]) with 2%nat in Hprefix.
  rewrite <- Hprefix. exact Hf.
Qed.

(** C3, amended.  The latest list stored by a successful [fetchHeadlines]
    is made of the two headlines at the head of the pooled lists sorted by
    publication time: it has two elements as soon as the response has two
    headlines, and none of its elements is in the stored left or right
    list.  When every headline of the response carries a valid date, these
    are the most recently published ones, most recent first: nothing left
    out is more recent than one of them, and when two headlines are
    strictly more recent than all the others, the latest list is made of
    exactly these two. *)
Theorem latest_are_the_two_most_recent :
  forall (P : Platform) (parsedJson : Headlines) (st final : State)
         (latest : list Headline) (sides : Headlines),
    outcome (fetchHeadlines true (inr parsedJson) st) = inr final ->
    latestHeadlines final = Some latest ->
    headlines final = Some sides ->
    List.length latest = Nat.min 2 (List.length (pool parsedJson))
    /\ ((2 <= List.length (pool parsedJson))%nat -> List.length latest = 2%nat)
    /\ (forall h, In h latest ->
                  ~ In h (leftHeadlines sides) /\ ~ In h (rightHeadlines sides))
    /\ ((forall h, In h (pool parsedJson) -> dated h) ->
        (exists rest,
            Permutation (pool parsedJson) (latest ++ rest) /\
            forall x y, In x latest -> In y rest -> recency y <= recency x)
        /\ StronglySorted (descending recency) latest
        /\ (forall h1 h2 others,
               Permutation (pool parsedJson) (h1 :: h2 :: others) ->
               (forall o, In o others ->
                          recency o < recency h1 /\ recency o < recency h2) ->
               Permutation latest [h1; h2])).
Proof.
  intros P parsedJson st final latest sides Hrun Hlatest Hsides.
  rewrite fetchHeadlines_success in Hrun. injection Hrun as <-.
  simpl in Hlatest, Hsides. injection Hlatest as <-. injection Hsides as <-.
  assert (Hlen : List.length (latestOf parsedJson)
                 = Nat.min 2 (List.length (pool parsedJson))).
  { unfold latestOf, JSArray.slice0. rewrite length_firstn.
    fold (pool parsedJson).
    rewrite (Permutation_length (sort_perm byRecency (pool parsedJson))).
    reflexivity. }
  split; [exact Hlen|].
  split; [intros Hge; rewrite Hlen; lia|].
  split.
  { intros h Hh. split; intros Hin.
    - apply (remaining_text parsedJson h h Hh); [|reflexivity].
      apply in_or_app; left; exact Hin.
    - apply (remaining_text parsedJson h h Hh); [|reflexivity].
      apply in_or_app; right; exact Hin. }
  intros Hd.
  pose proof (latest_sorted_split parsedJson Hd) as Hs.
  split.
  { exists (skipn 2 (JSArray.sort byRecency (pool parsedJson))). split.
    - unfold latestOf, JSArray.slice0. fold (pool parsedJson).
      rewrite firstn_skipn. apply Permutation_sym, sort_perm.
    - apply (sorted_app_between recency _ _ Hs). }
  split; [exact (sorted_app_left recency _ _ Hs)|].
  intros h1 h2 others Hperm Hold.
  unfold latestOf, JSArray.slice0. fold (pool parsedJson).
  apply two_most_recent_prefix with (others := others); [| |exact Hold].
  - apply sort_sorted. intros a b Ha Hb. apply byRecency_dated; auto.
  - eapply Permutation_trans; [apply sort_perm|exact Hperm].
Qed.

Lemma example_dated :
  forall h, In h (pool Example.response) -> @dated reference_platform h.
Proof.
  intros h Hin. simpl in Hin.
  repeat (destruct Hin as [<-|Hin]; [vm_compute; discriminate|]).
  contradiction.
Qed.

Lemma latest_are_the_two_most_recent_witness :
  outcome (@fetchHeadlines reference_platform true (inr Example.response)
             Example.initial) = inr Example.final
  /\ (forall h, In h (pool Example.response) -> @dated reference_platform h)
  /\ List.length [Example.r1; Example.l3] = 2%nat
  /\ Permutation [Example.r1; Example.l3] [Example.l3; Example.r1].
Proof.
  pose proof (latest_are_the_two_most_recent reference_platform
                Example.response Example.initial Example.final
                [Example.r1; Example.l3]
                {| leftHeadlines := [Example.l2; Example.l1; Example.l4; Example.l5];
                   rightHeadlines := [Example.r4; Example.r2; Example.r3; Example.r5] |}
                ltac:(vm_compute; reflexivity) eq_refl eq_refl)
    as (_ & Hlen & _ & Hrecent).
  destruct (Hrecent example_dated) as (_ & _ & Hpair).
  split; [vm_compute; reflexivity|].
  split; [exact example_dated|].
  split; [apply Hlen; simpl; lia|].
  apply (Hpair Example.l3 Example.r1
           [Example.l1; Example.l2; Example.l4; Example.l5;
            Example.r2; Example.r3; Example.r4; Example.r5]).
  - apply Permutation_sym.
    apply (Permutation_cons_app [Example.l1; Example.l2]
             [Example.l4; Example.l5; Example.r1; Example.r2; Example.r3;
              Example.r4; Example.r5]).
    apply (Permutation_cons_app
             [Example.l1; Example.l2; Example.l4; Example.l5]
             [Example.r2; Example.r3; Example.r4; Example.r5]).
    apply Permutation_refl.
  - intros o Ho. simpl in Ho.
    repeat (destruct Ho as [<-|Ho]; [vm_compute; split; reflexivity|]).
    contradiction.
Defined.

(** C3, counterexample.  One date that cannot be read is enough for the
    latest list not to be the two most recently published headlines.  The
    response lists, on the left, a headline whose date is [this week] and
    one of 27 August, and on the right one of 20 August and one of
    1 August.  Every comparison with the first headline gives [NaN], which
    [sort] reads as 0, and every other comparison finds the two headlines
    in order, so the pooled array stays as it is: the latest list is the
    headline without a date and the one of 27 August, and the headline of
    20 August, the second most recent of those that have a date, stays on
    its side. *)
Theorem unreadable_date_displaces_a_recent_headline :
  exists final sides,
    outcome (@fetchHeadlines reference_platform true (inr Mixed.response)
               Example.initial) = inr final
    /\ headlinesError final = None
    /\ latestHeadlines final = Some [Mixed.undated; Mixed.c]
    /\ headlines final = Some sides
    /\ In Mixed.b (rightHeadlines sides)
    /\ @Date_getTime reference_platform (publishedAt Mixed.undated) = None
    /\ @dated reference_platform Mixed.a
    /\ @dated reference_platform Mixed.b
    /\ @dated reference_platform Mixed.c
    /\ @recency reference_platform Mixed.a < @recency reference_platform Mixed.b
    /\ @recency reference_platform Mixed.b < @recency reference_platform Mixed.c
    /\ ~ Permutation [Mixed.undated; Mixed.c] [Mixed.c; Mixed.b].
Proof.
  eexists. eexists. split; [vm_compute; reflexivity|].
  split; [reflexivity|]. split; [reflexivity|]. split; [reflexivity|].
  split; [simpl; auto|]. split; [vm_compute; reflexivity|].
  split; [vm_compute; discriminate|]. split; [vm_compute; discriminate|].
  split; [vm_compute; discriminate|].
  split; [vm_compute; reflexivity|]. split; [vm_compute; reflexivity|].
  intros Hperm.
  assert (Hin : In Mixed.undated [Mixed.c; Mixed.b])
    by (apply (Permutation_in _ Hperm); left; reflexivity).
  simpl in Hin. destruct Hin as [H|[H|[]]]; discriminate.
Qed.

End LatestClaim.

(** ** Computations that only append to the trace *)

Lemma regular_ret {A} (a : A) : regular (ret a).
Proof. intros l. unfold ret. simpl. rewrite app_nil_r. reflexivity. Qed.

Lemma regular_throw {A} (e : exn) : regular (@throw A e).
Proof. intros l. unfold throw. simpl. rewrite app_nil_r. reflexivity. Qed.

Lemma regular_emit (e : event) : regular (emit e).
Proof. intros l. reflexivity. Qed.

Lemma regular_bind {A B} (m : M A) (k : A -> M B) :
  regular m -> (forall a, regular (k a)) -> regular (bind m k).
Proof.
  intros Hm Hk l. unfold bind. rewrite (Hm l).
  destruct (m []) as [[e|a] t]; simpl.
  - reflexivity.
  - rewrite (Hk a (l ++ t)), (Hk a t). simpl. rewrite app_assoc. reflexivity.
Qed.

Lemma regular_try_catch {A} (m : M A) (h : exn -> M A) :
  regular m -> (forall e, regular (h e)) -> regular (try_catch m h).
Proof.
  intros Hm Hh l. unfold try_catch. rewrite (Hm l).
  destruct (m []) as [[e|a] t]; simpl.
  - rewrite (Hh e (l ++ t)), (Hh e t). simpl. rewrite app_assoc. reflexivity.
  - reflexivity.
Qed.

Lemma regular_outcome {A} (m : M A) (l : list event) :
  regular m -> fst (m l) = outcome m.
Proof. intros Hm. rewrite (Hm l). reflexivity. Qed.

Create HintDb regular.
#[local] Hint Resolve regular_ret regular_throw regular_emit : regular.

Ltac regular_step :=
  first
    [ solve [auto with regular]
    | progress cbv zeta
    | apply regular_ret
    | apply regular_throw
    | apply regular_emit
    | apply regular_bind; [|intros ?]
    | apply regular_try_catch; [|intros ?]
    | match goal with
      | |- regular (if ?b then _ else _) => destruct b
      | |- regular (match ?x with _ => _ end) => destruct x
      end ].

Ltac regular := repeat regular_step.

Lemma outcome_bind {A B} (m : M A) (k : A -> M B) :
  (forall a, regular (k a)) ->
  outcome (bind m k) =
  match outcome m with
  | inl e => inl e
  | inr a => outcome (k a)
  end.
Proof.
  intros Hk. unfold outcome, bind.
  destruct (m []) as [[e|a] t]; simpl; [reflexivity|].
  rewrite (Hk a t). reflexivity.
Qed.

Lemma trace_bind {A B} (m : M A) (k : A -> M B) :
  (forall a, regular (k a)) ->
  trace (bind m k) =
  match outcome m with
  | inl e => trace m
  | inr a => trace m ++ trace (k a)
  end.
Proof.
  intros Hk. unfold trace, outcome, bind.
  destruct (m []) as [[e|a] t]; simpl; [reflexivity|].
  rewrite (Hk a t). reflexivity.
Qed.

Lemma outcome_try_catch {A} (m : M A) (h : exn -> M A) :
  (forall e, regular (h e)) ->
  outcome (try_catch m h) =
  match outcome m with
  | inl e => outcome (h e)
  | inr a => inr a
  end.
Proof.
  intros Hh. unfold outcome, try_catch.
  destruct (m []) as [[e|a] t]; simpl; [|reflexivity].
  rewrite (Hh e t). reflexivity.
Qed.

Lemma trace_try_catch {A} (m : M A) (h : exn -> M A) :
  (forall e, regular (h e)) ->
  trace (try_catch m h) =
  match outcome m with
  | inl e => trace m ++ trace (h e)
  | inr a => trace m
  end.
Proof.
  intros Hh. unfold trace, outcome, try_catch.
  destruct (m []) as [[e|a] t]; simpl; [|reflexivity].
  rewrite (Hh e t). reflexivity.
Qed.

Section Emits.

Variable Q : event -> Prop.

Lemma emits_ret {A} (a : A) : emits Q (ret a).
Proof. constructor. Qed.

Lemma emits_throw {A} (e : exn) : emits Q (@throw A e).
Proof. constructor. Qed.

Lemma emits_emit (e : event) : Q e -> emits Q (emit e).
Proof. intros He. constructor; [exact He|constructor]. Qed.

Lemma emits_bind {A B} (m : M A) (k : A -> M B) :
  (forall a, regular (k a)) ->
  emits Q m -> (forall a, emits Q (k a)) -> emits Q (bind m k).
Proof.
  intros Hreg Hm Hk. unfold emits. rewrite trace_bind by exact Hreg.
  destruct (outcome m) as [e|a]; [exact Hm|].
  apply Forall_app. split; [exact Hm|apply Hk].
Qed.

Lemma emits_try_catch {A} (m : M A) (h : exn -> M A) :
  (forall e, regular (h e)) ->
  emits Q m -> (forall e, emits Q (h e)) -> emits Q (try_catch m h).
Proof.
  intros Hreg Hm Hh. unfold emits. rewrite trace_try_catch by exact Hreg.
  destruct (outcome m) as [e|a]; [|exact Hm].
  apply Forall_app. split; [exact Hm|apply Hh].
Qed.

End Emits.

Ltac emits_step :=
  first
    [ apply emits_ret
    | apply emits_throw
    | apply emits_emit; exact I
    | progress cbv zeta
    | apply emits_bind; [intros; regular| |intros ?]
    | apply emits_try_catch; [intros; regular| |intros ?]
    | match goal with
      | |- emits _ (if ?b then _ else _) => destruct b
      | |- emits _ (match ?x with _ => _ end) => destruct x
      end ].

Section PipelineRegular.

Import Json Pipeline.

Context `{P : Platform} `{E : Environment}.

Lemma regular_getp (v : jsval) (k : string) : regular (getp v k).
Proof. unfold getp. regular. Qed.

Lemma regular_safeParseJson (s : string) : regular (safeParseJson s).
Proof. unfold safeParseJson. regular. Qed.

Lemma regular_request (p : Prompt) : regular (request p).
Proof. unfold request. regular. Qed.

#[local] Hint Resolve regular_getp regular_safeParseJson regular_request
  : regular.

Lemma regular_normalizeArticle (now : string) (a : jsval) :
  regular (normalizeArticle now a).
Proof. unfold normalizeArticle, articleDate. regular. Qed.

#[local] Hint Resolve regular_normalizeArticle : regular.

Lemma regular_classifySides (v : jsval) : regular (classifySides v).
Proof. unfold classifySides. regular. Qed.

Lemma regular_slice2 (v : jsval) : regular (slice2 v).
Proof. unfold slice2. regular. Qed.

#[local] Hint Resolve regular_classifySides regular_slice2 : regular.

Lemma regular_assignSides (v : jsval) : regular (assignSides v).
Proof. unfold assignSides. regular. Qed.

Lemma regular_requireTitles (r l : jsval) : regular (requireTitles r l).
Proof. unfold requireTitles. regular. Qed.

Lemma regular_analyzeArticles (topic : string) (r l : jsval) :
  regular (analyzeArticles topic r l).
Proof. unfold analyzeArticles. regular. Qed.

#[local] Hint Resolve regular_assignSides regular_requireTitles
  regular_analyzeArticles : regular.

Lemma regular_findAndAnalyze (topic : string) :
  regular (findAndAnalyze topic).
Proof. unfold findAndAnalyze. regular. Qed.

End PipelineRegular.

#[local] Hint Resolve regular_getp regular_safeParseJson regular_request
  regular_normalizeArticle regular_classifySides regular_slice2
  regular_assignSides regular_requireTitles regular_analyzeArticles
  regular_findAndAnalyze : regular.

(** ** The articles of the search response *)

Section PipelineProperties.

Import Json Pipeline.

Context `{P : Platform} `{E : Environment}.

Lemma truthy_present (v : jsval) : truthy v = true -> present v.
Proof. destruct v; simpl; intros; split; congruence. Qed.

Lemma getp_present (v : jsval) (k : string) :
  present v -> getp v k = ret (field v k).
Proof. intros [Hn Hu]. destruct v; try reflexivity; congruence. Qed.

Lemma normalizeArticle_run (now : string) (article : jsval) (l : list event) :
  normalizeArticle now article l =
  (inr (normalizedValue now article),
   if truthy article && negb (truthy (dateOf article))
   then l ++ [missing_date_event] else l).
Proof.
  unfold normalizeArticle, normalizedValue, articleDate, dateOf.
  destruct (truthy article) eqn:Ht; simpl; [|reflexivity].
  rewrite (getp_present _ "publishedAt" (truthy_present _ Ht)).
  rewrite (getp_present _ "publication_date" (truthy_present _ Ht)).
  unfold bind, ret.
  destruct (truthy (field article "publishedAt")) eqn:Hp; simpl.
  - rewrite Hp. reflexivity.
  - destruct (truthy (field article "publication_date")) eqn:Ha; reflexivity.
Qed.

Lemma outcome_normalizeArticle (now : string) (article : jsval) :
  outcome (normalizeArticle now article) = inr (normalizedValue now article).
Proof. unfold outcome. rewrite normalizeArticle_run. reflexivity. Qed.

Lemma lookup_set_field_same (k : string) (v : jsval)
    (fields : list (string * jsval)) :
  lookup k (set_field k v fields) = v.
Proof.
  induction fields as [|[k' v'] fields IH]; simpl.
  - rewrite String.eqb_refl. reflexivity.
  - destruct (String.eqb k' k) eqn:Hk; simpl.
    + rewrite String.eqb_refl. reflexivity.
    + rewrite Hk. exact IH.
Qed.

Lemma lookup_set_field_other (k k' : string) (v : jsval)
    (fields : list (string * jsval)) :
  k' <> k -> lookup k' (set_field k v fields) = lookup k' fields.
Proof.
  intros Hne. induction fields as [|[k0 v0] fields IH]; simpl.
  - destruct (String.eqb_spec k k'); [congruence|reflexivity].
  - destruct (String.eqb_spec k0 k) as [->|Hk0]; simpl.
    + destruct (String.eqb_spec k k'); [congruence|reflexivity].
    + destruct (String.eqb k0 k'); [reflexivity|exact IH].
Qed.

End PipelineProperties.

Section NormalizationClaim.

Import Json Pipeline.

(** C5.  [normalizeArticle] returns the article object with its other
    properties untouched.  When the article has a (truthy) [publishedAt],
    that date is kept and nothing is logged; when it has none but has a
    [publication_date], that one becomes [publishedAt] and nothing is
    logged; when it has neither, [publishedAt] becomes the current time and
    a warning is written to the console. *)
Theorem normalizeArticle_date_fallback :
  forall (now : string) (fields : list (string * jsval)) (l : list event),
    exists normalized,
      fst (normalizeArticle now (VObj fields) l) = inr (VObj normalized)
      /\ (forall k, k <> "publishedAt" ->
                    lookup k normalized = lookup k fields)
      /\ (truthy (lookup "publishedAt" fields) = true ->
          lookup "publishedAt" normalized = lookup "publishedAt" fields /\
          snd (normalizeArticle now (VObj fields) l) = l)
      /\ (truthy (lookup "publishedAt" fields) = false ->
          truthy (lookup "publication_date" fields) = true ->
          lookup "publishedAt" normalized = lookup "publication_date" fields /\
          snd (normalizeArticle now (VObj fields) l) = l)
      /\ (truthy (lookup "publishedAt" fields) = false ->
          truthy (lookup "publication_date" fields) = false ->
          lookup "publishedAt" normalized = VStr now /\
          snd (normalizeArticle now (VObj fields) l) =
          l ++ [missing_date_event])
      /\ (lookup "publishedAt" fields = VUndefined ->
          lookup "publication_date" fields = VUndefined ->
          lookup "publishedAt" normalized = VStr now /\
          snd (normalizeArticle now (VObj fields) l) =
          l ++ [missing_date_event]).
Proof.
  intros now fields l. rewrite normalizeArticle_run.
  unfold normalizedValue, dateOf. simpl.
  eexists. split; [reflexivity|].
  split; [intros k Hk; apply lookup_set_field_other; assumption|].
  rewrite lookup_set_field_same.
  split; [intros Hp; rewrite Hp; simpl; rewrite Hp; auto|].
  split; [intros Hp Ha; rewrite Hp; simpl; rewrite Ha; auto|].
  split; [intros Hp Ha; rewrite Hp; simpl; rewrite Ha; auto|].
  intros Hp Ha. rewrite Hp, Ha. simpl. auto.
Qed.

End NormalizationClaim.

Section SideAssignment.

Import Json Pipeline.

Context `{P : Platform} `{E : Environment}.

Lemma ge_length_2 (n : nat) : ge (num_of_nat (S (S n))) 2 = true.
Proof.
  unfold ge, num_of_nat. apply Qle_bool_iff.
  unfold Qle, inject_Z. simpl Qnum. simpl Qden. lia.
Qed.

Lemma assignSides_undifferentiated (fields : list (string * jsval))
    (a b : jsval) (rest : list jsval) :
  undifferentiated fields ->
  lookup "articles" fields = VArr (a :: b :: rest) ->
  forall l,
    assignSides (VObj fields) l =
    classifySides (VArr [a; b]) (l ++ [classifying_event]).
Proof.
  unfold undifferentiated. intros Hund Harts l.
  unfold assignSides. cbn [getp field].
  assert (Hlen : ge (field (VArr (a :: b :: rest)) "length") 2 = true)
    by apply ge_length_2.
  unfold bind, ret, emit.
  destruct (truthy (lookup "rightWingArticle" fields)) eqn:Hr.
  - simpl in Hund. rewrite Hund. rewrite Harts. cbn [truthy getp].
    unfold ret. rewrite Hlen. reflexivity.
  - simpl andb. cbv iota. rewrite Hr. simpl andb. cbv iota.
    rewrite Harts. cbn [truthy getp].
    unfold ret. rewrite Hlen. reflexivity.
Qed.

Lemma outcome_assignSides_undifferentiated (fields : list (string * jsval))
    (a b : jsval) (rest : list jsval) :
  undifferentiated fields ->
  lookup "articles" fields = VArr (a :: b :: rest) ->
  outcome (assignSides (VObj fields)) = outcome (classifySides (VArr [a; b])).
Proof.
  intros Hund Harts. unfold outcome at 1.
  rewrite (assignSides_undifferentiated fields a b rest Hund Harts).
  apply regular_outcome. regular.
Qed.

Lemma outcome_classifySides (a b classification : jsval)
    (classifyText : string) :
  present a -> present b ->
  generateContent (classifyPromptOf a b) = inr classifyText ->
  outcome (safeParseJson classifyText) = inr classification ->
  present classification ->
  outcome (classifySides (VArr [a; b])) =
  inr (if strict_eq (field a "source")
                    (field classification "rightWingArticleSource")
       then (normalizedValue (clock 0) a, normalizedValue (clock 1) b)
       else (normalizedValue (clock 0) b, normalizedValue (clock 1) a)).
Proof.
  intros Ha Hb Hgen Hparse Hc. unfold classifySides. simpl at_index.
  rewrite !(getp_present a _ Ha), !(getp_present b _ Hb).
  assert (Hreq : outcome (request (classifyPromptOf a b)) = inr classifyText).
  { unfold request, outcome, bind, emit. simpl.
    unfold classifyPromptOf in Hgen |- *. rewrite Hgen. reflexivity. }
  unfold classifyPromptOf in Hreq.
  repeat (rewrite outcome_bind by (intros; regular);
          change (outcome (ret ?x)) with (@inr exn _ x); cbv iota beta).
  rewrite Hreq.
  rewrite outcome_bind by (intros; regular). rewrite Hparse.
  rewrite (getp_present _ _ Hc).
  repeat (rewrite outcome_bind by (intros; regular);
          change (outcome (ret ?x)) with (@inr exn _ x); cbv iota beta).
  destruct (strict_eq _ _);
    repeat (rewrite outcome_bind by (intros; regular);
            rewrite outcome_normalizeArticle);
    reflexivity.
Qed.

End SideAssignment.

Section AnalysisRun.

Import Json Pipeline.

Context `{P : Platform} `{E : Environment}.

Lemma strict_eq_string (v : jsval) (s : string) :
  strict_eq v (VStr s) = true <-> v = VStr s.
Proof.
  destruct v; simpl; split; intros Heq; try congruence.
  - apply String.eqb_eq in Heq. congruence.
  - injection Heq as ->. apply String.eqb_refl.
Qed.

Lemma outcome_requireTitles (r l : jsval) :
  outcome (requireTitles r l) =
  if articleMissing r l then inl ArticlesNotFound else inr tt.
Proof.
  unfold requireTitles, articleMissing.
  destruct (truthy r) eqn:Hr; [|reflexivity].
  destruct (truthy l) eqn:Hl; [|reflexivity].
  rewrite (getp_present r "title" (truthy_present _ Hr)).
  rewrite (getp_present l "title" (truthy_present _ Hl)).
  unfold outcome, bind, ret.
  destruct (truthy (field r "title")); simpl; [|reflexivity].
  destruct (truthy (field l "title")); reflexivity.
Qed.

Lemma outcome_getAnalysis (topic : string) (st : State) :
  outcome (getAnalysis topic st) =
  inr (settled st (outcome (findAndAnalyze topic))).
Proof.
  unfold getAnalysis, settled.
  rewrite outcome_bind by (intros; regular).
  change (outcome (emit ?e)) with (@inr exn _ tt). cbv iota beta zeta.
  rewrite outcome_bind by (intros; regular).
  rewrite outcome_try_catch by (intros; regular).
  rewrite outcome_bind by (intros; regular).
  destruct (outcome (findAndAnalyze topic)) as [err|finalResult]; reflexivity.
Qed.

Lemma assignSides_emits (parsedResponse : jsval) :
  emits not_analysis_request (assignSides parsedResponse).
Proof.
  unfold assignSides, classifySides, normalizeArticle, articleDate, slice2,
    request, safeParseJson, getp.
  repeat emits_step.
Qed.

Lemma safeParseJson_emits (s : string) :
  emits not_analysis_request (safeParseJson s).
Proof. unfold safeParseJson. repeat emits_step. Qed.

Lemma requireTitles_emits (r l : jsval) :
  emits not_analysis_request (requireTitles r l).
Proof. unfold requireTitles, getp. repeat emits_step. Qed.

Lemma trace_findAndAnalyze_missing (topic searchText : string)
    (parsedResponse r l : jsval) :
  client = true ->
  generateContent (SearchPrompt topic) = inr searchText ->
  outcome (safeParseJson searchText) = inr parsedResponse ->
  outcome (assignSides parsedResponse) = inr (r, l) ->
  articleMissing r l = true ->
  emits not_analysis_request (findAndAnalyze topic).
Proof.
  intros Hclient Hgen Hparse Hsides Hmissing. unfold findAndAnalyze, emits.
  rewrite Hclient.
  rewrite trace_bind by (intros; regular).
  change (outcome (ret ?x)) with (@inr exn _ x). cbv iota beta.
  change (trace (ret tt)) with (@nil event). rewrite app_nil_l.
  rewrite trace_bind by (intros; regular).
  change (outcome (emit ?e)) with (@inr exn _ tt). cbv iota beta.
  apply Forall_app. split; [repeat constructor|].
  rewrite trace_bind by (intros; regular).
  assert (Hreq : outcome (request (SearchPrompt topic)) = inr searchText).
  { unfold request, outcome, bind, emit. simpl. rewrite Hgen. reflexivity. }
  rewrite Hreq.
  apply Forall_app. split.
  { unfold request, trace, bind, emit. simpl.
    destruct (generateContent (SearchPrompt topic)); repeat constructor. }
  rewrite trace_bind by (intros; regular). rewrite Hparse.
  apply Forall_app. split; [apply safeParseJson_emits|].
  rewrite trace_bind by (intros; regular). rewrite Hsides.
  apply Forall_app. split; [apply assignSides_emits|].
  rewrite trace_bind by (intros; regular).
  simpl fst. simpl snd. rewrite outcome_requireTitles, Hmissing.
  apply requireTitles_emits.
Qed.

Lemma trace_getAnalysis (topic : string) (st : State) :
  emits not_analysis_request (findAndAnalyze topic) ->
  emits not_analysis_request (getAnalysis topic st).
Proof.
  intros Hbody. unfold getAnalysis.
  apply emits_bind; [intros; regular|apply emits_emit; exact I|intros _].
  cbv zeta.
  apply emits_bind; [intros; regular| |intros; repeat emits_step].
  apply emits_try_catch; [intros; regular| |intros; repeat emits_step].
  apply emits_bind; [intros; regular|exact Hbody|intros; apply emits_ret].
Qed.

Lemma outcome_findAndAnalyze_missing (topic searchText : string)
    (parsedResponse r l : jsval) :
  client = true ->
  generateContent (SearchPrompt topic) = inr searchText ->
  outcome (safeParseJson searchText) = inr parsedResponse ->
  outcome (assignSides parsedResponse) = inr (r, l) ->
  articleMissing r l = true ->
  outcome (findAndAnalyze topic) = inl ArticlesNotFound.
Proof.
  intros Hclient Hgen Hparse Hsides Hmissing. unfold findAndAnalyze.
  rewrite Hclient.
  rewrite outcome_bind by (intros; regular).
  change (outcome (ret ?x)) with (@inr exn _ x). cbv iota beta.
  rewrite outcome_bind by (intros; regular).
  change (outcome (emit ?e)) with (@inr exn _ tt). cbv iota beta.
  rewrite outcome_bind by (intros; regular).
  assert (Hreq : outcome (request (SearchPrompt topic)) = inr searchText).
  { unfold request, outcome, bind, emit. simpl. rewrite Hgen. reflexivity. }
  rewrite Hreq.
  rewrite outcome_bind by (intros; regular). rewrite Hparse.
  rewrite outcome_bind by (intros; regular). rewrite Hsides.
  rewrite outcome_bind by (intros; regular).
  simpl fst. simpl snd. rewrite outcome_requireTitles, Hmissing.
  reflexivity.
Qed.

End AnalysisRun.

Section SideClaims.

Import Json Pipeline.

(** C4.  When the search response names no pair of articles by side but
    lists at least two articles, and the classification names a source, the
    first of the first two articles whose source is that very string
    becomes the right-leaning article and the other one the left-leaning
    article (both normalized). *)
Theorem sides_assigned_by_exact_source :
  forall (P : Platform) (E : Environment)
         (fields articleA articleB classification : list (string * jsval))
         (rest : list jsval) (classifyText rightSource : string),
    undifferentiated fields ->
    lookup "articles" fields = VArr (VObj articleA :: VObj articleB :: rest) ->
    generateContent (classifyPromptOf (VObj articleA) (VObj articleB))
      = inr classifyText ->
    outcome (safeParseJson classifyText) = inr (VObj classification) ->
    lookup "rightWingArticleSource" classification = VStr rightSource ->
    (lookup "source" articleA = VStr rightSource ->
     outcome (assignSides (VObj fields)) =
     inr (normalizedValue (clock 0) (VObj articleA),
          normalizedValue (clock 1) (VObj articleB)))
    /\ (lookup "source" articleA <> VStr rightSource ->
        lookup "source" articleB = VStr rightSource ->
        outcome (assignSides (VObj fields)) =
        inr (normalizedValue (clock 0) (VObj articleB),
             normalizedValue (clock 1) (VObj articleA))).
Proof.
  intros P E fields articleA articleB classification rest classifyText
         rightSource Hund Harts Hgen Hparse Hsrc.
  assert (Hrun :
    outcome (assignSides (VObj fields)) =
    inr (if strict_eq (lookup "source" articleA) (VStr rightSource)
         then (normalizedValue (clock 0) (VObj articleA),
               normalizedValue (clock 1) (VObj articleB))
         else (normalizedValue (clock 0) (VObj articleB),
               normalizedValue (clock 1) (VObj articleA)))).
  { rewrite (outcome_assignSides_undifferentiated fields _ _ rest Hund Harts).
    rewrite (outcome_classifySides (VObj articleA) (VObj articleB)
               (VObj classification) classifyText);
      try (split; discriminate); try assumption.
    simpl field. rewrite Hsrc. reflexivity. }
  split.
  - intros HA. rewrite Hrun.
    rewrite (proj2 (strict_eq_string _ _) HA). reflexivity.
  - intros HA _. rewrite Hrun.
    destruct (strict_eq (lookup "source" articleA) (VStr rightSource)) eqn:Heq;
      [|reflexivity].
    apply strict_eq_string in Heq. contradiction.
Qed.

Lemma sides_assigned_by_exact_source_witness :
  outcome (@safeParseJson reference_platform Scenario.twoArticles) =
    inr (VObj [("articles",
                VArr [VObj Scenario.articleA; VObj Scenario.articleB])])
  /\ outcome (@assignSides reference_platform
                (Scenario.env Scenario.twoArticles Scenario.namesFox)
                (VObj [("articles",
                        VArr [VObj Scenario.articleA; VObj Scenario.articleB])])) =
     inr (Scenario.dated Scenario.articleA, Scenario.dated Scenario.articleB).
Proof.
  split; [reflexivity|].
  apply (proj1 (sides_assigned_by_exact_source reference_platform
           (Scenario.env Scenario.twoArticles Scenario.namesFox)
           [("articles", VArr [VObj Scenario.articleA; VObj Scenario.articleB])]
           Scenario.articleA Scenario.articleB
           [("rightWingArticleSource", VStr "Fox News")]
           [] Scenario.namesFox "Fox News"
           eq_refl eq_refl eq_refl eq_refl eq_refl)).
  reflexivity.
Defined.

(** C10.  In the same branch, when the source named by the classification
    is the source of neither of the first two articles, no exception is
    thrown: the second article becomes the right-leaning one and the first
    the left-leaning one.  Whatever follows the first two articles in the
    list plays no part: two responses that differ only there give the same
    run. *)
Theorem unmatched_source_takes_second_article :
  forall (P : Platform) (E : Environment)
         (fields articleA articleB classification : list (string * jsval))
         (rest : list jsval) (classifyText rightSource : string),
    undifferentiated fields ->
    lookup "articles" fields = VArr (VObj articleA :: VObj articleB :: rest) ->
    generateContent (classifyPromptOf (VObj articleA) (VObj articleB))
      = inr classifyText ->
    outcome (safeParseJson classifyText) = inr (VObj classification) ->
    lookup "rightWingArticleSource" classification = VStr rightSource ->
    lookup "source" articleA <> VStr rightSource ->
    lookup "source" articleB <> VStr rightSource ->
    outcome (assignSides (VObj fields)) =
    inr (normalizedValue (clock 0) (VObj articleB),
         normalizedValue (clock 1) (VObj articleA))
    /\ forall fields' rest',
         undifferentiated fields' ->
         lookup "articles" fields' =
           VArr (VObj articleA :: VObj articleB :: rest') ->
         forall l, assignSides (VObj fields') l = assignSides (VObj fields) l.
Proof.
  intros P E fields articleA articleB classification rest classifyText
         rightSource Hund Harts Hgen Hparse Hsrc HA HB.
  split.
  - rewrite (outcome_assignSides_undifferentiated fields _ _ rest Hund Harts).
    rewrite (outcome_classifySides (VObj articleA) (VObj articleB)
               (VObj classification) classifyText);
      try (split; discriminate); try assumption.
    simpl field. rewrite Hsrc.
    destruct (strict_eq (lookup "source" articleA) (VStr rightSource)) eqn:Heq;
      [|reflexivity].
    apply strict_eq_string in Heq. contradiction.
  - intros fields' rest' Hund' Harts' l.
    rewrite (assignSides_undifferentiated fields' _ _ rest' Hund' Harts').
    rewrite (assignSides_undifferentiated fields _ _ rest Hund Harts).
    reflexivity.
Qed.

Lemma unmatched_source_takes_second_article_witness :
  outcome (@safeParseJson reference_platform Scenario.threeArticles) =
    inr (VObj [("articles",
                VArr [VObj Scenario.articleA; VObj Scenario.articleB;
                      VObj Scenario.articleC])])
  /\ outcome (@assignSides reference_platform
                (Scenario.env Scenario.threeArticles Scenario.namesNewsmax)
                (VObj [("articles",
                        VArr [VObj Scenario.articleA; VObj Scenario.articleB;
                              VObj Scenario.articleC])])) =
     inr (Scenario.dated Scenario.articleB, Scenario.dated Scenario.articleA).
Proof.
  split; [reflexivity|].
  apply (proj1 (unmatched_source_takes_second_article reference_platform
           (Scenario.env Scenario.threeArticles Scenario.namesNewsmax)
           [("articles", VArr [VObj Scenario.articleA; VObj Scenario.articleB;
                               VObj Scenario.articleC])]
           Scenario.articleA Scenario.articleB
           [("rightWingArticleSource", VStr "Newsmax")]
           [VObj Scenario.articleC] Scenario.namesNewsmax "Newsmax"
           eq_refl eq_refl eq_refl eq_refl eq_refl
           ltac:(discriminate) ltac:(discriminate))).
Defined.

(** C6.  When the two articles found by the search step are not both there
    with a title (one of them is undetermined or [null], or has no
    [title]), [getAnalysis] ends with [ArticlesNotFound]: its message is
    what the user sees, the analysis stays empty, and the request for the
    analysis is never sent. *)
Theorem missing_article_is_not_found :
  forall (P : Platform) (E : Environment) (topic searchText : string)
         (parsedResponse rightWingArticle leftWingArticle : jsval)
         (st : State),
    client = true ->
    generateContent (SearchPrompt topic) = inr searchText ->
    outcome (safeParseJson searchText) = inr parsedResponse ->
    outcome (assignSides parsedResponse)
      = inr (rightWingArticle, leftWingArticle) ->
    articleMissing rightWingArticle leftWingArticle = true ->
    outcome (findAndAnalyze topic) = inl ArticlesNotFound
    /\ (exists final,
          outcome (getAnalysis topic st) = inr final
          /\ error final = Some articles_not_found_message
          /\ analysis final = None
          /\ loading final = false)
    /\ Forall not_analysis_request (trace (getAnalysis topic st)).
Proof.
  intros P E topic searchText parsedResponse r l st
         Hclient Hgen Hparse Hsides Hmissing.
  pose proof (outcome_findAndAnalyze_missing topic searchText parsedResponse
                r l Hclient Hgen Hparse Hsides Hmissing) as Hfail.
  split; [exact Hfail|].
  split.
  - exists (settled st (inl ArticlesNotFound)).
    rewrite outcome_getAnalysis, Hfail. repeat split.
  - apply trace_getAnalysis.
    exact (trace_findAndAnalyze_missing topic searchText parsedResponse
             r l Hclient Hgen Hparse Hsides Hmissing).
Qed.

Lemma missing_article_is_not_found_witness :
  articleMissing VUndefined VUndefined = true
  /\ exists final,
       outcome (@getAnalysis reference_platform
                  (Scenario.env Scenario.noArticles Scenario.namesFox)
                  "Budget vote" Scenario.initial) = inr final
       /\ error final = Some articles_not_found_message
       /\ analysis final = None
       /\ loading final = false.
Proof.
  split; [reflexivity|].
  apply (proj1 (proj2 (missing_article_is_not_found reference_platform
           (Scenario.env Scenario.noArticles Scenario.namesFox)
           "Budget vote" Scenario.noArticles
           (VObj [("message", VStr "no suitable articles")])
           VUndefined VUndefined Scenario.initial
           eq_refl eq_refl eq_refl eq_refl eq_refl))).
Defined.

(** The scenario of C4 run to its end: article A is the right-leaning
    article of the result and article B the left-leaning one. *)
Example scenario_result :
  exists final result,
    outcome (@getAnalysis reference_platform
               (Scenario.env Scenario.twoArticles Scenario.namesFox)
               "Budget vote" Scenario.initial) = inr final
    /\ error final = None
    /\ analysis final = Some result
    /\ field (field result "rightWingArticle") "title" = VStr "A"
    /\ field (field result "leftWingArticle") "title" = VStr "B".
Proof.
  eexists. eexists. split; [reflexivity|]. repeat split.
Qed.

End SideClaims.

(** ** The speech session *)

Section StopClaim.

Import Speech.

(** C8.  Whatever the session, [stopSpeech] leaves it stopped, with an
    empty queue, the index at 0 and no card marked as being spoken, and
    with nothing spoken or pending on the device; stopping a second time
    changes nothing.  The same holds for [stopSpeech] of the first variant
    of the file. *)
Theorem stopSpeech_resets_and_is_idempotent :
  forall s : Session,
    (globalSpeechState (stopSpeech s) = stopped
     /\ utterances (speechQueueRef (stopSpeech s)) = []
     /\ currentIndex (speechQueueRef (stopSpeech s)) = 0
     /\ currentlySpeakingCard (stopSpeech s) = None
     /\ quiet (stopSpeech s)
     /\ stopSpeech (stopSpeech s) = stopSpeech s)
    /\ (globalSpeechState (stopSpeech_v1 s) = stopped
        /\ utterances (speechQueueRef (stopSpeech_v1 s)) = []
        /\ currentIndex (speechQueueRef (stopSpeech_v1 s)) = 0
        /\ currentlySpeakingCard (stopSpeech_v1 s) = None
        /\ quiet (stopSpeech_v1 s)
        /\ stopSpeech_v1 (stopSpeech_v1 s) = stopSpeech_v1 s).
Proof.
  intros [g card q [[[] [] pa]|]]; unfold quiet, stopSpeech, stopSpeech_v1;
    simpl; repeat split.
Qed.

End StopClaim.

(** ** Voice selection *)

Section VoiceClaim.

Import Speech Narration.

Lemma firstPremium_premiumTier (names : list string) (vcs : list Voice) :
  firstPremium names vcs =
  match List.find (fun n => existsb (named n) vcs) names with
  | Some n => List.find (named n) vcs
  | None => None
  end.
Proof.
  induction names as [|n names IH]; simpl; [reflexivity|].
  change (JS.find (fun v => String.eqb (name v) n && String.eqb (lang v) "en-US")
                  vcs)
    with (List.find (named n) vcs).
  destruct (List.find (named n) vcs) as [v|] eqn:Hfind.
  - assert (Hex : existsb (named n) vcs = true).
    { apply existsb_exists. exists v.
      apply find_some in Hfind. exact Hfind. }
    rewrite Hex. symmetry. exact Hfind.
  - assert (Hex : existsb (named n) vcs = false).
    { destruct (existsb (named n) vcs) eqn:Hex; [|reflexivity].
      apply existsb_exists in Hex. destruct Hex as [v [Hin Hv]].
      pose proof (find_none _ _ Hfind v Hin). congruence. }
    rewrite Hex. exact IH.
Qed.

Lemma getBestVoice_documentedChain (vcs : list Voice) :
  getBestVoice vcs = documentedChain vcs.
Proof.
  unfold getBestVoice, documentedChain, premiumTier.
  rewrite <- firstPremium_premiumTier.
  destruct vcs as [|v vcs].
  - unfold premiumNames. simpl. reflexivity.
  - unfold JS.find, FirstVariant.or_else, usVoice.
    repeat match goal with
           | |- context [match ?x with Some _ => _ | None => _ end] =>
               destruct x
           end; reflexivity.
Qed.

Lemma documentedChain_In (vcs : list Voice) (v : Voice) :
  documentedChain vcs = Some v -> In v vcs.
Proof.
  unfold documentedChain, premiumTier, FirstVariant.or_else.
  destruct (List.find (fun n => existsb (named n) vcs) premiumNames) as [n|].
  - destruct (List.find (named n) vcs) as [w|] eqn:H1.
    + intros Heq; injection Heq as <-. apply (find_some _ _ H1).
    + destruct (List.find (fun v0 => usVoice v0 && localService v0) vcs)
        as [w|] eqn:H2;
        [intros Heq; injection Heq as <-; apply (find_some _ _ H2)|].
      destruct (List.find usVoice vcs) as [w|] eqn:H3;
        [intros Heq; injection Heq as <-; apply (find_some _ _ H3)|].
      intros H4. apply (find_some _ _ H4).
  - destruct (List.find (fun v0 => usVoice v0 && localService v0) vcs)
      as [w|] eqn:H2;
      [intros Heq; injection Heq as <-; apply (find_some _ _ H2)|].
    destruct (List.find usVoice vcs) as [w|] eqn:H3;
      [intros Heq; injection Heq as <-; apply (find_some _ _ H3)|].
    intros H4. apply (find_some _ _ H4).
Qed.

Lemma find_byURI_NoDup (vcs : list Voice) (v : Voice) :
  NoDup (map voiceURI vcs) -> In v vcs ->
  List.find (byURI (voiceURI v)) vcs = Some v.
Proof.
  induction vcs as [|w vcs IH]; simpl; intros Hnd Hin; [contradiction|].
  inversion Hnd as [|? ? Hnotin Hnd']; subst.
  unfold byURI at 1.
  destruct (String.eqb_spec (voiceURI w) (voiceURI v)) as [Heq|Hne].
  - destruct Hin as [->|Hin]; [reflexivity|].
    exfalso. apply Hnotin. rewrite Heq. apply in_map. exact Hin.
  - destruct Hin as [->|Hin]; [congruence|]. apply IH; assumption.
Qed.

End VoiceClaim.

Section VoiceChain.

Import Speech Narration.

(** The chain of the first variant of the file has the voices whose name
    contains [Google] as its first step and ends with no voice. *)
Lemma first_variant_chain (vcs : list Voice) :
  FirstVariant.preferredVoice vcs =
  match List.find (fun v => JS.includes "Google" (name v) && usVoice v) vcs with
  | Some v => Some v
  | None =>
      match List.find (fun v => usVoice v && localService v) vcs with
      | Some v => Some v
      | None =>
          match List.find usVoice vcs with
          | Some v => Some v
          | None => List.find (fun v => JS.startsWith "en" (lang v)) vcs
          end
      end
  end.
Proof.
  unfold FirstVariant.preferredVoice, FirstVariant.or_else, JS.find, usVoice.
  repeat match goal with
         | |- context [match ?x with Some _ => _ | None => _ end] =>
             destruct x
         end; reflexivity.
Qed.

Lemma loadVoices_present (first : Voice) (rest : list Voice) (st : State)
    (d : Synth) :
  speechSynthesis (session st) = Some d ->
  loadVoices (first :: rest) st =
  {| session := session st;
     voices := first :: rest;
     selectedVoiceURI :=
       match documentedChain (first :: rest) with
       | Some bestVoice => voiceURI bestVoice
       | None => voiceURI first
       end;
     error := error st;
     timers := timers st |}.
Proof.
  intros Hd. unfold loadVoices. rewrite getBestVoice_documentedChain.
  destruct (session st) as [g c q dev]. simpl in Hd. subst dev. reflexivity.
Qed.

(** C9, on a list of voices none of which is English: the narration uses
    the first voice of the list, where the chain as stated ends with no
    voice. *)
Lemma voice_chain_does_not_end_with_none :
  chosenVoice None [amelie] fresh = Some amelie
  /\ claimedVoice None [amelie] = None
  /\ chosenVoice None [amelie] fresh <> claimedVoice None [amelie].
Proof.
  split; [reflexivity|]. split; [reflexivity|]. discriminate.
Qed.

(** C9, amended.  [getBestVoice] follows the documented chain: the first of
    the premium names borne by an en-US voice, else the first local en-US
    voice, else the first en-US voice, else the first voice whose language
    starts with [en].  When the chain finds nothing, [loadVoices] falls back
    on the first voice of the list, so that a voice is selected as soon as
    the list is not empty.  The narration uses the voice whose URI is the
    selected one: the user's choice when the user made one, the default
    otherwise. *)
Theorem voice_selection_follows_chain :
  forall (vcs : list Voice) (st : State) (d : Synth),
    speechSynthesis (session st) = Some d ->
    getBestVoice vcs = documentedChain vcs
    /\ (forall v,
          defaultVoice vcs = Some v ->
          In v vcs
          /\ selectedVoiceURI (loadVoices vcs st) = voiceURI v
          /\ chosenVoice None vcs st = List.find (byURI (voiceURI v)) vcs
          /\ (NoDup (map voiceURI vcs) -> chosenVoice None vcs st = Some v))
    /\ (forall u,
          vcs <> [] ->
          chosenVoice (Some u) vcs st = List.find (byURI (voiceURI u)) vcs
          /\ (In u vcs -> NoDup (map voiceURI vcs) ->
              chosenVoice (Some u) vcs st = Some u))
    /\ (defaultVoice vcs = None <-> vcs = [])
    /\ (vcs = [] -> loadVoices vcs st = st).
Proof.
  intros vcs st d Hd.
  split; [apply getBestVoice_documentedChain|].
  split.
  { intros v Hv.
    assert (Hin : In v vcs).
    { unfold defaultVoice, FirstVariant.or_else in Hv.
      destruct (documentedChain vcs) as [w|] eqn:Hc.
      - injection Hv as <-. apply documentedChain_In; assumption.
      - destruct vcs as [|first rest]; simpl in Hv; [discriminate|].
        injection Hv as <-. left; reflexivity. }
    split; [exact Hin|].
    destruct vcs as [|first rest]; [contradiction|].
    assert (Huri : selectedVoiceURI (loadVoices (first :: rest) st) = voiceURI v).
    { rewrite (loadVoices_present first rest st d Hd). simpl.
      unfold defaultVoice, FirstVariant.or_else in Hv.
      destruct (documentedChain (first :: rest)) as [w|];
        simpl in Hv; injection Hv as <-; reflexivity. }
    split; [exact Huri|].
    assert (Hfind : chosenVoice None (first :: rest) st
                    = List.find (byURI (voiceURI v)) (first :: rest)).
    { unfold chosenVoice, preferredVoice, JS.find. rewrite Huri.
      rewrite (loadVoices_present first rest st d Hd). reflexivity. }
    split; [exact Hfind|].
    intros Hnd. rewrite Hfind. apply find_byURI_NoDup; assumption. }
  split.
  { intros u Hne. destruct vcs as [|first rest]; [congruence|].
    assert (Hfind : chosenVoice (Some u) (first :: rest) st
                    = List.find (byURI (voiceURI u)) (first :: rest)).
    { unfold chosenVoice, preferredVoice, selectVoice, JS.find.
      rewrite (loadVoices_present first rest st d Hd). reflexivity. }
    split; [exact Hfind|].
    intros Hin Hnd. rewrite Hfind. apply find_byURI_NoDup; assumption. }
  split.
  { unfold defaultVoice, FirstVariant.or_else. split.
    - destruct (documentedChain vcs); [discriminate|].
      destruct vcs; [reflexivity|discriminate].
    - intros ->. reflexivity. }
  intros ->. unfold loadVoices.
  destruct (session st) as [g c q [dev|]]; reflexivity.
Qed.

Lemma voice_selection_follows_chain_witness :
  speechSynthesis (session fresh)
    = Some {| speaking := false; pending := false; devicePaused := false |}
  /\ chosenVoice None [amelie; daniel; zira; samantha] fresh = Some samantha
  /\ chosenVoice (Some daniel) [amelie; daniel; zira; samantha] fresh
     = Some daniel.
Proof.
  pose proof (voice_selection_follows_chain
                [amelie; daniel; zira; samantha] fresh
                {| speaking := false; pending := false; devicePaused := false |}
                eq_refl)
    as (_ & Hdefault & Huser & _).
  split; [reflexivity|]. split.
  - apply (Hdefault samantha eq_refl).
    repeat constructor; simpl; intuition discriminate.
  - apply (Huser daniel); [discriminate|simpl; auto|].
    repeat constructor; simpl; intuition discriminate.
Defined.

End VoiceChain.

(** ** The narration queue *)

Section Blank.

Lemma whitespace_only_trimStart (s : string) :
  whitespace_only (JS.trimStart s) = whitespace_only s.
Proof.
  induction s as [|c s IH]; simpl; [reflexivity|].
  destruct (JS.is_ws c) eqn:Hc; simpl; [exact IH|].
  rewrite Hc. reflexivity.
Qed.

Lemma trimEnd_empty (s : string) :
  JS.trimEnd s = EmptyString <-> whitespace_only s = true.
Proof.
  induction s as [|c s IH]; simpl; [tauto|].
  destruct (JS.trimEnd s) as [|a t] eqn:Ht.
  - destruct (JS.is_ws c); simpl.
    + split; intros _; [apply IH|]; reflexivity.
    + split; discriminate.
  - split; [discriminate|]. intros Hw.
    apply andb_true_iff in Hw. destruct Hw as [_ Hw].
    apply IH in Hw. discriminate.
Qed.

Lemma trim_empty (s : string) :
  JS.trim s = EmptyString <-> whitespace_only s = true.
Proof.
  unfold JS.trim. rewrite trimEnd_empty, whitespace_only_trimStart. tauto.
Qed.



Lemma length_zero_empty (s : string) :
  (String.length s =? 0)%nat = true <-> s = EmptyString.
Proof.
  destruct s; simpl; split; intros; try reflexivity; discriminate.
Qed.

End Blank.

Section Sentences.

Import Narration.











Lemma blank_test (text : string) :
  String.eqb text EmptyString || (String.length (JS.trim text) =? 0)%nat =
  whitespace_only text.
Proof.
  destruct (whitespace_only text) eqn:Hw.
  - apply orb_true_iff. right. apply length_zero_empty, trim_empty. exact Hw.
  - apply orb_false_iff. split.
    + apply String.eqb_neq. intros ->. discriminate.
    + destruct (String.length (JS.trim text) =? 0)%nat eqn:Hl; [|reflexivity].
      apply length_zero_empty, trim_empty in Hl. congruence.
Qed.

Lemma push_sentences (cardId : string) (sentences : list string)
    (q : list NarrationUnit) :
  fold_left
    (fun queue sentence =>
       let trimmed := JS.trim sentence in
       if negb (String.eqb trimmed EmptyString)
       then queue ++ [{| unitCard := cardId; unitText := trimmed |}]
       else queue)
    sentences q =
  q ++ map (unit_of cardId)
           (filter (fun t => negb (String.eqb t EmptyString))
                   (map JS.trim sentences)).
Proof.
  revert q. induction sentences as [|s sentences IH]; intros q; simpl.
  - rewrite app_nil_r. reflexivity.
  - rewrite IH. destruct (negb (String.eqb (JS.trim s) EmptyString)); simpl.
    + rewrite <- app_assoc. reflexivity.
    + reflexivity.
Qed.

Lemma addToQueue_split (cardId text : string) (q : list NarrationUnit) :
  addToQueue cardId (Some text) true q =
  if whitespace_only text then q
  else q ++ map (unit_of cardId) (spokenSentences text).
Proof.
  unfold addToQueue. rewrite blank_test.
  destruct (whitespace_only text); [reflexivity|].
  apply push_sentences.
Qed.

Lemma addToQueue_plain (cardId text : string) (q : list NarrationUnit) :
  addToQueue cardId (Some text) false q =
  if whitespace_only text then q else q ++ [unit_of cardId text].
Proof.
  unfold addToQueue. rewrite blank_test.
  destruct (whitespace_only text); reflexivity.
Qed.






End Sentences.

Section QueueClaim.

Import Speech Narration.








Lemma addToQueue_said (c : string) (text : option string)
    (q : list NarrationUnit) :
  addToQueue c text true q = q ++ map (unit_of c) (said text).
Proof.
  destruct text as [t|]; simpl said.
  - rewrite addToQueue_split. destruct (whitespace_only t);
      [rewrite app_nil_r|]; reflexivity.
  - simpl. rewrite app_nil_r. reflexivity.
Qed.

Lemma points_said (c : string) (points : list string) (q : list NarrationUnit) :
  fold_left (fun q point => addToQueue c (Some point) true q) points q
  = q ++ map (unit_of c) (flat_map (fun point => said (Some point)) points).
Proof.
  revert q. induction points as [|p points IH]; intros q; cbn [fold_left flat_map].
  - simpl. rewrite app_nil_r. reflexivity.
  - rewrite IH, addToQueue_said, map_app, app_assoc. reflexivity.
Qed.

Lemma addToQueue_heading (c t : string) (q : list NarrationUnit) :
  whitespace_only t = false ->
  addToQueue c (Some t) false q = q ++ [unit_of c t].
Proof. intros Hw. rewrite addToQueue_plain, Hw. reflexivity. Qed.

Lemma buildQueue_lines (analysis : AnalysisResult) :
  buildQueue analysis
  = map (unit_of "right-wing")
        (articleLines (rightWingArticle analysis) "Right-Wing Perspective."
           "Narrative and Spin Analysis:"
           (spinAnalysis (rightWingArticle analysis)))
    ++ map (unit_of "left-wing")
         (articleLines (leftWingArticle analysis) "Left-Wing Perspective."
            "Portrayal of Right-Wing View:"
            (portrayalOfRight (leftWingArticle analysis)))
    ++ map (unit_of "leftist-points")
         (pointLines "Leftist Talking Points." (leftistTalkingPoints analysis))
    ++ map (unit_of "socialist-points")
         (pointLines "Socialist Talking Points."
            (socialistTalkingPoints analysis)).
Proof.
  unfold buildQueue. cbv zeta.
  rewrite ?points_said, ?addToQueue_said.
  repeat rewrite addToQueue_heading by reflexivity.
  unfold articleLines, pointLines.
  rewrite !map_app. cbn [map app]. rewrite <- !app_assoc. reflexivity.
Qed.

Lemma cards_of_lines (c : string) (l : list string) :
  map unitCard (map (unit_of c) l) = repeat c (List.length l).
Proof. induction l as [|t l IH]; simpl; [|rewrite IH]; reflexivity. Qed.

Lemma addPerspective_lines (c intro : string) (p : SingleArticle.Perspective)
    (q : list NarrationUnit) :
  whitespace_only intro = false ->
  SingleArticle.addPerspective c intro p q
  = q ++ map (unit_of c) (perspectiveLines intro p).
Proof.
  intros Hintro. unfold SingleArticle.addPerspective. cbv zeta.
  rewrite points_said, addToQueue_said.
  rewrite (addToQueue_heading c "Key talking points include:") by reflexivity.
  rewrite (addToQueue_heading c intro) by exact Hintro.
  unfold perspectiveLines. rewrite !map_app. cbn [map app].
  rewrite <- !app_assoc. reflexivity.
Qed.

Lemma single_buildQueue_lines (analysis : SingleArticle.AnalysisResult) :
  SingleArticle.buildQueue analysis
  = map (unit_of "article-details") (detailLines analysis)
    ++ map (unit_of "left-wing")
         (perspectiveLines "Left-Wing Perspective."
            (SingleArticle.leftWingPerspective analysis))
    ++ map (unit_of "right-wing")
         (perspectiveLines "Right-Wing Perspective."
            (SingleArticle.rightWingPerspective analysis))
    ++ map (unit_of "socialist")
         (perspectiveLines "Socialist Perspective."
            (SingleArticle.socialistPerspective analysis)).
Proof.
  unfold SingleArticle.buildQueue. cbv zeta.
  rewrite !addPerspective_lines by reflexivity.
  rewrite addToQueue_said.
  repeat rewrite addToQueue_heading by reflexivity.
  unfold detailLines. rewrite !map_app. cbn [map app].
  rewrite <- !app_assoc. reflexivity.
Qed.


(** A summary with an exclamation, an ellipsis and no final full stop. *)
Example split_example :
  addToQueue "right-wing"
    (Some " Prices rose again. Who pays?! Nobody knows... yet") true [] =
  [ unit_of "right-wing" "Prices rose again.";
    unit_of "right-wing" "Who pays?";
    unit_of "right-wing" "Nobody knows.";
    unit_of "right-wing" "yet" ].
Proof. reflexivity. Qed.

End QueueClaim.


(** * Further properties *)

(** ** Playing the queue *)

Section PlaybackProperties.

Import Speech Narration Playback.

Lemma stopSpeech_at_rest (st : State) (p : Player) :
  at_rest (with_app (with_session (stopSpeech (session st)) st) p).
Proof. unfold at_rest. simpl. repeat split. lia. Qed.

Lemma onerror_at_rest (reason : string) (d : Synth) (p : Player) :
  at_rest (onerror reason d p).
Proof. unfold onerror. cbv zeta. apply stopSpeech_at_rest. Qed.

Lemma speakNext_at_rest (d : Synth) (p : Player) :
  at_rest p -> at_rest (speakNext d p) /\ handed (speakNext d p) = handed p.
Proof.
  intros (Hs & Hq & Hi). unfold speakNext. cbv zeta.
  change (speechQueueRef (session (observe d (app p))))
    with (speechQueueRef (session (app p))).
  rewrite Hq. simpl List.length.
  replace (Z.of_nat 0 <=? currentIndex (speechQueueRef (session (app p))))
    with true by (symmetry; apply Z.leb_le; simpl; lia).
  split; [apply stopSpeech_at_rest|reflexivity].
Qed.

Lemma deliver_at_rest (c : Callback) (p : Player) :
  at_rest p -> at_rest (deliver p c) /\ handed (deliver p c) = handed p.
Proof.
  intros Hrest. destruct c as [d|k|k|reason d]; simpl.
  - destruct (timers (app p)) as [|t rest]; [split; [exact Hrest|reflexivity]|].
    apply (speakNext_at_rest d (with_app (with_timers rest (app p)) p)).
    exact Hrest.
  - unfold onstart. destruct (nth_error (handed p) k);
      [|split; [exact Hrest|reflexivity]].
    destruct Hrest as (Hs & Hq & Hi). unfold at_rest. simpl. auto.
  - unfold onend. destruct (nth_error (handed p) k);
      [|split; [exact Hrest|reflexivity]].
    destruct Hrest as (Hs & Hq & Hi). unfold at_rest. simpl.
    repeat split; auto. lia.
  - split; [apply onerror_at_rest|reflexivity].
Qed.

Lemma run_at_rest (cs : list Callback) (p : Player) :
  at_rest p -> at_rest (run cs p) /\ handed (run cs p) = handed p.
Proof.
  revert p. induction cs as [|c cs IH]; intros p Hrest; simpl.
  - split; [exact Hrest|reflexivity].
  - destruct (deliver_at_rest c p Hrest) as [Hrest' Hh].
    destruct (IH _ Hrest') as [Hfinal Hh']. unfold run in *.
    split; [exact Hfinal|]. rewrite Hh'. exact Hh.
Qed.

(** X1.  Once the narration has been stopped it stays stopped, whatever
    the browser still calls back.  After [stopSpeech], and after the
    failure of an utterance, which also sets the failure message as the
    error, the session is stopped with an empty queue, and no later timer,
    start, end or failure callback hands another utterance to the device
    or takes the session out of the stopped state. *)
Theorem nothing_is_spoken_once_stopped :
  forall (p : Player) (cs : list Callback),
    (forall st : State,
        at_rest (run cs (with_app (with_session (stopSpeech (session st)) st) p))
        /\ handed (run cs (with_app
                             (with_session (stopSpeech (session st)) st) p))
           = handed p)
    /\ (forall (reason : string) (d : Synth),
          error (app (onerror reason d p)) = Some (failure_message reason)
          /\ at_rest (run cs (onerror reason d p))
          /\ handed (run cs (onerror reason d p)) = handed p).
Proof.
  intros p cs. split.
  - intros st.
    destruct (run_at_rest cs _ (stopSpeech_at_rest st p)) as [Hrest Hh].
    split; [exact Hrest|]. rewrite Hh. reflexivity.
  - intros reason d. split; [reflexivity|].
    destruct (run_at_rest cs (onerror reason d p) (onerror_at_rest reason d p))
      as [Hrest Hh].
    split; [exact Hrest|]. rewrite Hh. reflexivity.
Qed.

Lemma speakNext_more (d : Synth) (p : Player) (item : QueueItem)
    (done rest : list QueueItem) :
  utterances (speechQueueRef (session (app p))) = done ++ item :: rest ->
  currentIndex (speechQueueRef (session (app p))) = Z.of_nat (List.length done) ->
  speakNext d p
  = {| app := observe d (app p); handed := handed p ++ [item]; shown := shown p |}.
Proof.
  intros Hq Hi. unfold speakNext. cbv zeta.
  change (speechQueueRef (session (observe d (app p))))
    with (speechQueueRef (session (app p))).
  rewrite Hq, Hi.
  replace (Z.of_nat (List.length (done ++ item :: rest)) <=? Z.of_nat (List.length done))
    with false
    by (symmetry; apply Z.leb_gt; rewrite length_app; simpl; lia).
  replace (Z.of_nat (List.length done) <? 0) with false
    by (symmetry; apply Z.ltb_ge; lia).
  rewrite Nat2Z.id, nth_error_app2, Nat.sub_diag by lia. reflexivity.
Qed.

Lemma speakNext_finished (d : Synth) (p : Player) :
  currentIndex (speechQueueRef (session (app p)))
  = Z.of_nat (List.length (utterances (speechQueueRef (session (app p))))) ->
  speakNext d p
  = with_app (with_session (stopSpeech (session (observe d (app p))))
                           (observe d (app p))) p.
Proof.
  intros Hi. unfold speakNext. cbv zeta.
  change (speechQueueRef (session (observe d (app p))))
    with (speechQueueRef (session (app p))).
  rewrite Hi, Z.leb_refl. reflexivity.
Qed.

Lemma listen_run (rest : list QueueItem) :
  forall (done : list QueueItem) (t : Z) (ds : list Synth) (last : Synth)
         (p : Player),
    utterances (speechQueueRef (session (app p))) = done ++ rest ->
    currentIndex (speechQueueRef (session (app p))) = Z.of_nat (List.length done) ->
    timers (app p) = [t] ->
    handed p = done ->
    List.length ds = List.length rest ->
    let final := run (listen (List.length done) ds last) p in
    handed final = done ++ rest
    /\ shown final = shown p ++ map cardId rest
    /\ globalSpeechState (session (app final)) = stopped
    /\ currentlySpeakingCard (session (app final)) = None
    /\ speechQueueRef (session (app final))
       = {| utterances := []; currentIndex := 0 |}
    /\ timers (app final) = []
    /\ error (app final) = error (app p).
Proof.
  induction rest as [|item rest IH]; intros done t ds last p Hq Hi Ht Hh Hlen.
  - destruct ds as [|? ?]; [|discriminate]. cbv zeta.
    unfold listen, run. cbn [fold_left deliver]. rewrite Ht.
    rewrite speakNext_finished
      by (cbn [with_app app with_timers session]; rewrite Hq, Hi, app_nil_r;
          reflexivity).
    simpl. rewrite Hh, !app_nil_r. repeat split; reflexivity.
  - destruct ds as [|d ds]; [discriminate|]. injection Hlen as Hlen.
    cbv zeta. cbn [listen].
    change (run (TimerFired d :: Started (List.length done)
                   :: Ended (List.length done)
                   :: listen (S (List.length done)) ds last) p)
      with (run (listen (S (List.length done)) ds last)
                (onend (List.length done)
                   (onstart (List.length done) (deliver p (TimerFired d))))).
    assert (Hstep1 : deliver p (TimerFired d)
                     = {| app := observe d (with_timers [] (app p));
                          handed := done ++ [item];
                          shown := shown p |}).
    { cbn [deliver]. rewrite Ht.
      rewrite (speakNext_more d _ item done rest)
        by (cbn [with_app app with_timers session]; assumption).
      cbn [with_app app handed shown]. rewrite Hh. reflexivity. }
    rewrite Hstep1. unfold onstart. cbn [handed].
    rewrite nth_error_app2, Nat.sub_diag by lia. cbn [nth_error].
    unfold onend. cbn [handed].
    rewrite nth_error_app2, Nat.sub_diag by lia. cbn [nth_error]. cbv zeta.
    match goal with
    | |- context [run _ ?q] => set (p' := q)
    end.
    assert (Hlen' : List.length (done ++ [item]) = S (List.length done))
      by (rewrite length_app; simpl; lia).
    rewrite <- Hlen'.
    specialize (IH (done ++ [item]) 50 ds last p').
    cbv zeta in IH.
    destruct IH as (H1 & H2 & H3 & H4 & H5 & H6 & H7).
    + subst p'. simpl. rewrite Hq, <- app_assoc. reflexivity.
    + subst p'. simpl. rewrite Hi, Hlen'. lia.
    + subst p'. reflexivity.
    + subst p'. reflexivity.
    + exact Hlen.
    + rewrite H1, H2, <- app_assoc. subst p'. simpl.
      rewrite <- app_assoc. repeat split; assumption.
Qed.

(** X2.  The narration visits the cards in a fixed order and never comes
    back to one it has left.  In [index.tsx] the cards of the queue are a
    run of right-wing units, then left-wing, then leftist-points, then
    socialist-points; each article card has at least its five fixed lines
    and each card of talking points at least its heading, whatever the
    analysis holds, so the queue is never empty.  In the one-article
    variant the runs are article-details (at least four units), then
    left-wing, right-wing and socialist (at least two units each). *)
Theorem narration_visits_cards_in_order :
  (forall analysis : AnalysisResult,
      exists n1 n2 n3 n4 : nat,
        map unitCard (buildQueue analysis)
        = repeat "right-wing" n1 ++ repeat "left-wing" n2
          ++ repeat "leftist-points" n3 ++ repeat "socialist-points" n4
        /\ (5 <= n1)%nat /\ (5 <= n2)%nat /\ (1 <= n3)%nat /\ (1 <= n4)%nat)
  /\ (forall analysis : SingleArticle.AnalysisResult,
        exists n1 n2 n3 n4 : nat,
          map unitCard (SingleArticle.buildQueue analysis)
          = repeat "article-details" n1 ++ repeat "left-wing" n2
            ++ repeat "right-wing" n3 ++ repeat "socialist" n4
          /\ (4 <= n1)%nat /\ (2 <= n2)%nat /\ (2 <= n3)%nat /\ (2 <= n4)%nat).
Proof.
  split; intros analysis.
  - rewrite buildQueue_lines.
    eexists _, _, _, _. rewrite !map_app, !cards_of_lines.
    split; [reflexivity|].
    unfold articleLines, pointLines.
    repeat rewrite length_app. simpl. repeat split; lia.
  - rewrite single_buildQueue_lines.
    eexists _, _, _, _. rewrite !map_app, !cards_of_lines.
    split; [reflexivity|].
    unfold detailLines, perspectiveLines.
    repeat rewrite length_app. simpl. repeat split; lia.
Qed.

Lemma buildQueue_not_empty (analysis : AnalysisResult) :
  buildQueue analysis <> [].
Proof. rewrite buildQueue_lines. discriminate. Qed.

(** X3.  Read to the end, the narration speaks every unit of the queue
    once and in order.  From a stopped session with no timer pending, a
    click starts playing without handing anything over; then, timer by
    timer, the device is handed exactly the utterances made from
    [buildQueue], each with the selected voice, and the highlight goes
    through their cards in the same order; the last timer finds the queue
    exhausted and leaves the session stopped, without highlight, with an
    empty queue at index 0, no timer pending and the error untouched. *)
Theorem narration_plays_every_unit_once_in_order :
  forall (analysis : AnalysisResult) (st : State) (d : Synth)
         (ds : list Synth) (last : Synth),
    globalSpeechState (session st) = stopped ->
    timers st = [] ->
    List.length ds = List.length (buildQueue analysis) ->
    let started := click (Some analysis) d (fresh_player st) in
    let final := run (listen 0 ds last) started in
    globalSpeechState (session (app started)) = playing
    /\ handed started = []
    /\ handed final = utterancesOf (preferredVoice st) (buildQueue analysis)
    /\ shown final = map unitCard (buildQueue analysis)
    /\ globalSpeechState (session (app final)) = stopped
    /\ currentlySpeakingCard (session (app final)) = None
    /\ speechQueueRef (session (app final))
       = {| utterances := []; currentIndex := 0 |}
    /\ timers (app final) = []
    /\ error (app final) = error st.
Proof.
  intros analysis st d ds last Hs Ht Hlen started final.
  assert (Hstarted :
            globalSpeechState (session (app started)) = playing
            /\ utterances (speechQueueRef (session (app started)))
               = utterancesOf (preferredVoice st) (buildQueue analysis)
            /\ currentIndex (speechQueueRef (session (app started))) = 0
            /\ timers (app started) = [100]
            /\ error (app started) = error st).
  { subst started. unfold click, fresh_player. cbn [with_app app].
    unfold handleGlobalSpeech.
    change (speechSynthesis (session (observe d st))) with (Some d).
    change (globalSpeechState (session (observe d st)))
      with (globalSpeechState (session st)).
    rewrite Hs. cbv zeta.
    change (preferredVoice (observe d st)) with (preferredVoice st).
    destruct (utterancesOf (preferredVoice st) (buildQueue analysis))
      as [|item items] eqn:Hu.
    - apply map_eq_nil in Hu. destruct (buildQueue_not_empty analysis Hu).
    - simpl. rewrite Ht. destruct (speaking d || pending d); repeat split. }
  destruct Hstarted as (Hplaying & Hq & Hi & Htimers & Herr).
  split; [exact Hplaying|]. split; [reflexivity|].
  assert (Hlen' : List.length ds
                  = List.length (utterancesOf (preferredVoice st)
                                              (buildQueue analysis)))
    by (unfold utterancesOf; rewrite length_map; exact Hlen).
  pose proof (listen_run
                (utterancesOf (preferredVoice st) (buildQueue analysis))
                [] 100 ds last started Hq Hi Htimers eq_refl Hlen') as Hrun.
  cbv zeta in Hrun.
  change (List.length (@nil QueueItem)) with 0%nat in Hrun.
  rewrite app_nil_l in Hrun.
  destruct Hrun as (H1 & H2 & H3 & H4 & H5 & H6 & H7).
  subst final. split; [exact H1|].
  split.
  { rewrite H2. unfold utterancesOf. rewrite map_map. reflexivity. }
  rewrite H7. repeat split; assumption.
Qed.

(** A device that stays silent between the steps. *)
Lemma narration_plays_every_unit_once_in_order_witness :
  let ds := repeat Sample.device
                   (List.length (buildQueue Sample.analysis)) in
  let final :=
    run (listen 0 ds Sample.device)
        (click (Some Sample.analysis) Sample.device
               (fresh_player fresh)) in
  shown final = map unitCard (buildQueue Sample.analysis)
  /\ globalSpeechState (session (app final)) = stopped.
Proof.
  pose proof (narration_plays_every_unit_once_in_order
                Sample.analysis fresh Sample.device
                (repeat Sample.device
                        (List.length (buildQueue Sample.analysis)))
                Sample.device eq_refl eq_refl
                ltac:(vm_compute; reflexivity)) as H.
  cbv zeta in H. cbv zeta.
  split; [exact (proj1 (proj2 (proj2 (proj2 H))))
         |exact (proj1 (proj2 (proj2 (proj2 (proj2 H)))))].
Defined.

End PlaybackProperties.

(** ** The requests of an analysis *)

Lemma requestsOf_app (t u : list event) :
  requestsOf (t ++ u) = requestsOf t ++ requestsOf u.
Proof.
  induction t as [|e t IH]; simpl; [reflexivity|].
  destruct e; simpl; rewrite IH; reflexivity.
Qed.

Lemma silent_requests (t : list event) :
  Forall silent t -> requestsOf t = [].
Proof.
  induction 1 as [|e t He _ IH]; simpl; [reflexivity|].
  destruct e; simpl in He |- *; try exact IH. contradiction.
Qed.

Lemma reqs_silent {A} (m : M A) : emits silent m -> reqs m = [].
Proof. apply silent_requests. Qed.

Lemma reqs_bind {A B} (m : M A) (k : A -> M B) :
  (forall a, regular (k a)) ->
  reqs (bind m k) =
  match outcome m with
  | inl _ => reqs m
  | inr a => reqs m ++ reqs (k a)
  end.
Proof.
  intros Hk. unfold reqs. rewrite trace_bind by exact Hk.
  destruct (outcome m); [reflexivity|apply requestsOf_app].
Qed.

Lemma reqs_try_catch {A} (m : M A) (h : exn -> M A) :
  (forall e, regular (h e)) ->
  reqs (try_catch m h) =
  match outcome m with
  | inl e => reqs m ++ reqs (h e)
  | inr _ => reqs m
  end.
Proof.
  intros Hh. unfold reqs. rewrite trace_try_catch by exact Hh.
  destruct (outcome m); [apply requestsOf_app|reflexivity].
Qed.

Lemma shape_bind_silent {A B} (S : list Prompt -> Prop) (m : M A)
    (k : A -> M B) :
  S [] -> emits silent m -> (forall a, regular (k a)) ->
  (forall a, S (reqs (k a))) -> S (reqs (bind m k)).
Proof.
  intros Hnil Hm Hreg Hk. rewrite reqs_bind by exact Hreg.
  rewrite (reqs_silent m Hm). destruct (outcome m); [exact Hnil|apply Hk].
Qed.

Ltac silent :=
  unfold Pipeline.normalizeArticle, Pipeline.articleDate, Pipeline.slice2,
    safeParseJson, Pipeline.requireTitles, Json.getp;
  repeat emits_step.

Ltac shape_step :=
  first
    [ progress cbv zeta
    | apply shape_bind_silent;
      [left; reflexivity|solve [silent]|intros; regular|intros ?]
    | match goal with
      | |- _ (reqs (if ?b then _ else _)) => destruct b
      end ].

Section Requests.

Import Json Pipeline.

Context `{P : Platform} `{E : Environment}.

Lemma reqs_request (p : Prompt) : reqs (request p) = [p].
Proof.
  unfold reqs, request, trace, bind, emit. simpl.
  destruct (generateContent p); reflexivity.
Qed.

Lemma outcome_request (p : Prompt) :
  outcome (request p) = generateContent p.
Proof.
  unfold request, outcome, bind, emit. simpl.
  destruct (generateContent p); reflexivity.
Qed.

Lemma reqs_classifySides (v : jsval) : classification (reqs (classifySides v)).
Proof.
  unfold classifySides. do 4 shape_step.
  rewrite reqs_bind by (intros; regular). rewrite reqs_request.
  right. do 4 eexists.
  destruct (outcome (request _)) as [e|classifyText]; [reflexivity|].
  rewrite reqs_silent; [reflexivity|].
  silent.
Qed.

Lemma reqs_assignSides (v : jsval) : classification (reqs (assignSides v)).
Proof.
  unfold assignSides. do 2 shape_step.
  destruct (truthy a && truthy a0).
  - left. apply reqs_silent. silent.
  - do 2 shape_step. destruct a2.
    + do 2 shape_step. apply reqs_classifySides.
    + left. reflexivity.
Qed.

Lemma reqs_analyzeArticles (topic : string) (r l : jsval) :
  analysisOf topic (reqs (analyzeArticles topic r l)).
Proof.
  unfold analyzeArticles. do 7 shape_step.
  rewrite reqs_bind by (intros; regular). rewrite reqs_request.
  right. do 6 eexists.
  destruct (outcome (request _)) as [e|analysisText]; [reflexivity|].
  rewrite reqs_silent; [reflexivity|].
  silent.
Qed.

Lemma reqs_findAndAnalyze (topic : string) :
  request_shape topic (reqs (findAndAnalyze topic)).
Proof.
  unfold findAndAnalyze. do 2 shape_step.
  rewrite reqs_bind by (intros; regular). rewrite reqs_request.
  right.
  destruct (outcome (request _)) as [e|searchText].
  { exists [], []. repeat split; left; reflexivity. }
  cbn [app]. 
  rewrite reqs_bind by (intros; regular).
  rewrite (reqs_silent (safeParseJson searchText)) by silent.
  destruct (outcome (safeParseJson searchText)) as [e|parsedResponse].
  { exists [], []. repeat split; left; reflexivity. }
  cbn [app].
  rewrite reqs_bind by (intros; regular).
  pose proof (reqs_assignSides parsedResponse) as Hcls.
  destruct (outcome (assignSides parsedResponse)) as [e|sides].
  { exists (reqs (assignSides parsedResponse)), [].
    rewrite app_nil_r. repeat split; [exact Hcls|left; reflexivity]. }
  eexists _, _. split; [reflexivity|]. split; [exact Hcls|].
  shape_step. apply reqs_analyzeArticles.
Qed.

Lemma reqs_getAnalysis (topic : string) (st : State) :
  reqs (getAnalysis topic st) = reqs (findAndAnalyze topic).
Proof.
  unfold getAnalysis.
  rewrite reqs_bind by (intros; regular).
  change (outcome (emit ?e)) with (@inr exn _ tt). cbv iota beta zeta.
  change (reqs (emit (LoadingMessage "Initializing analysis..."))) with (@nil Prompt).
  rewrite app_nil_l.
  rewrite reqs_bind by (intros; regular).
  assert (Hbody :
            reqs (try_catch
                    (finalResult <- findAndAnalyze topic ;;
                     ret {| analysis := Some finalResult;
                            loading := true;
                            loadingMessage := "Initializing analysis...";
                            error := None;
                            speech := Speech.stopSpeech (speech st) |})
                    (fun err =>
                       emit (ConsoleError (printed err)) ;;;
                       ret {| analysis := None;
                              loading := true;
                              loadingMessage := "Initializing analysis...";
                              error := Some (message err);
                              speech := Speech.stopSpeech (speech st) |}))
            = reqs (findAndAnalyze topic)).
  { rewrite reqs_try_catch by (intros; regular).
    rewrite reqs_bind by (intros; regular).
    rewrite outcome_bind by (intros; regular).
    destruct (outcome (findAndAnalyze topic)) as [e|r].
    - change (reqs (emit (ConsoleError (printed e)) ;;; ret _)) with (@nil Prompt).
      apply app_nil_r.
    - change (outcome (ret ?x)) with (@inr exn _ x). cbv iota.
      change (reqs (ret ?x)) with (@nil Prompt). apply app_nil_r. }
  cbn [analysis loading loadingMessage error speech] in Hbody |- *.
  rewrite Hbody.
  destruct (outcome (try_catch _ _)); [reflexivity|].
  change (reqs (emit (LoadingMessage EmptyString) ;;; ret _)) with (@nil Prompt).
  apply app_nil_r.
Qed.

(** X4.  One analysis costs at most three requests and none is ever sent
    twice: whatever the service answers, the requests of a run of
    [getAnalysis] are nothing at all, or the search for the requested
    topic, followed by at most one classification request and then at most
    one analysis request for that topic. *)
Theorem analysis_sends_at_most_three_requests :
  forall (topic : string) (st : State),
    request_shape topic (requestsOf (trace (getAnalysis topic st)))
    /\ (List.length (requestsOf (trace (getAnalysis topic st))) <= 3)%nat.
Proof.
  intros topic st. fold (reqs (getAnalysis topic st)).
  rewrite reqs_getAnalysis.
  pose proof (reqs_findAndAnalyze topic) as Hshape.
  split; [exact Hshape|].
  destruct Hshape as [->|(cls & ana & -> & Hcls & Hana)]; [simpl; lia|].
  destruct Hcls as [->|(a & sa & b & sb & ->)];
    destruct Hana as [->|(rt & rs & ru & lt & ls & lu & ->)]; simpl; lia.
Qed.

End Requests.

(** ** The analysis, step by step *)

Section AnalysisSteps.

Import Json Pipeline.

Context `{P : Platform} `{E : Environment}.

Lemma regular_afterSides (topic : string) (sides : jsval * jsval) :
  regular (afterSides topic sides).
Proof. unfold afterSides. regular. Qed.

Lemma regular_afterParse (topic : string) (p : jsval) :
  regular (afterParse topic p).
Proof. unfold afterParse, afterSides. regular. Qed.

Lemma regular_afterSearch (topic text : string) :
  regular (afterSearch topic text).
Proof. unfold afterSearch, afterParse, afterSides. regular. Qed.

Lemma outcome_findAndAnalyze (topic : string) :
  outcome (findAndAnalyze topic) =
  if client then
    match generateContent (SearchPrompt topic) with
    | inl e => inl e
    | inr text => outcome (afterSearch topic text)
    end
  else inl (Error "AI client not initialized.").
Proof.
  unfold findAndAnalyze. destruct client; [|reflexivity].
  rewrite outcome_bind by (intros; regular).
  change (outcome (ret ?x)) with (@inr exn _ x). cbv iota beta.
  rewrite outcome_bind by (intros; regular).
  change (outcome (emit ?e)) with (@inr exn _ tt). cbv iota beta.
  rewrite outcome_bind by (intros; regular).
  rewrite outcome_request. reflexivity.
Qed.

Lemma reqs_findAndAnalyze_steps (topic : string) :
  reqs (findAndAnalyze topic) =
  if client then
    SearchPrompt topic ::
    match generateContent (SearchPrompt topic) with
    | inl e => []
    | inr text => reqs (afterSearch topic text)
    end
  else [].
Proof.
  unfold findAndAnalyze. destruct client; [|reflexivity].
  rewrite reqs_bind by (intros; regular).
  change (outcome (ret ?x)) with (@inr exn _ x). cbv iota beta.
  change (reqs (ret tt)) with (@nil Prompt). rewrite app_nil_l.
  rewrite reqs_bind by (intros; regular).
  change (outcome (emit ?e)) with (@inr exn _ tt). cbv iota beta.
  change (reqs (emit (LoadingMessage "Finding relevant articles...")))
    with (@nil Prompt).
  rewrite app_nil_l.
  rewrite reqs_bind by (intros; regular).
  rewrite outcome_request, reqs_request.
  destruct (generateContent (SearchPrompt topic)); reflexivity.
Qed.

Lemma outcome_afterSearch (topic text : string) :
  outcome (afterSearch topic text) =
  match outcome (safeParseJson text) with
  | inl e => inl e
  | inr p => outcome (afterParse topic p)
  end.
Proof.
  unfold afterSearch. apply outcome_bind. intros. apply regular_afterParse.
Qed.

Lemma reqs_afterSearch (topic text : string) :
  reqs (afterSearch topic text) =
  match outcome (safeParseJson text) with
  | inl e => []
  | inr p => reqs (afterParse topic p)
  end.
Proof.
  unfold afterSearch.
  rewrite reqs_bind by (intros; apply regular_afterParse).
  rewrite (reqs_silent (safeParseJson text)) by silent. reflexivity.
Qed.

Lemma outcome_afterParse (topic : string) (p : jsval) :
  outcome (afterParse topic p) =
  match outcome (assignSides p) with
  | inl e => inl e
  | inr sides => outcome (afterSides topic sides)
  end.
Proof.
  unfold afterParse. apply outcome_bind. intros. apply regular_afterSides.
Qed.

Lemma reqs_afterParse (topic : string) (p : jsval) :
  reqs (afterParse topic p) =
  match outcome (assignSides p) with
  | inl e => reqs (assignSides p)
  | inr sides => reqs (assignSides p) ++ reqs (afterSides topic sides)
  end.
Proof.
  unfold afterParse. apply reqs_bind. intros. apply regular_afterSides.
Qed.

Lemma outcome_afterSides (topic : string) (r l : jsval) :
  outcome (afterSides topic (r, l)) =
  if articleMissing r l then inl ArticlesNotFound
  else outcome (analyzeArticles topic r l).
Proof.
  unfold afterSides. cbn [fst snd].
  rewrite outcome_bind by (intros; regular).
  rewrite outcome_requireTitles. destruct (articleMissing r l); reflexivity.
Qed.

Lemma reqs_afterSides (topic : string) (r l : jsval) :
  reqs (afterSides topic (r, l)) =
  if articleMissing r l then [] else reqs (analyzeArticles topic r l).
Proof.
  unfold afterSides. cbn [fst snd].
  rewrite reqs_bind by (intros; regular).
  rewrite (reqs_silent (requireTitles r l)) by silent.
  rewrite outcome_requireTitles. destruct (articleMissing r l); reflexivity.
Qed.

(** X5.  A run that cannot get a usable search response stops there and
    says why.  Without a client nothing is sent and the error reads
    [AI client not initialized.]; when the search request is rejected the
    error is the message of the rejection ([An unknown error occurred.]
    when the rejection is not an [Error]); when its text holds no JSON
    object that parses the error is the invalid-format message.  In the
    last two cases the search is the only request of the run. *)
Theorem failed_search_ends_the_run :
  forall (topic : string) (st : State),
    (client = false ->
     outcome (getAnalysis topic st)
     = inr (settled st (inl (Error "AI client not initialized.")))
     /\ requestsOf (trace (getAnalysis topic st)) = [])
    /\ (forall e,
          client = true ->
          generateContent (SearchPrompt topic) = inl e ->
          outcome (getAnalysis topic st) = inr (settled st (inl e))
          /\ requestsOf (trace (getAnalysis topic st)) = [SearchPrompt topic])
    /\ (forall text e,
          client = true ->
          generateContent (SearchPrompt topic) = inr text ->
          outcome (safeParseJson text) = inl e ->
          outcome (getAnalysis topic st)
          = inr (settled st (inl MalformedResponse))
          /\ error (settled st (inl MalformedResponse))
             = Some invalid_format_message
          /\ requestsOf (trace (getAnalysis topic st)) = [SearchPrompt topic]).
Proof.
  intros topic st. fold (reqs (getAnalysis topic st)).
  rewrite outcome_getAnalysis, reqs_getAnalysis.
  rewrite outcome_findAndAnalyze, reqs_findAndAnalyze_steps.
  split; [|split].
  - intros ->. split; reflexivity.
  - intros e -> ->. split; reflexivity.
  - intros text e -> -> Hparse.
    rewrite outcome_afterSearch, reqs_afterSearch, Hparse.
    assert (He : e = MalformedResponse).
    { unfold outcome in Hparse.
      destruct (safeParseJson_cases text)
        as [(i & j & _ & _ & _ & Heq)|[_ Heq]]; rewrite Heq in Hparse.
      - unfold parsed_or_malformed in Hparse.
        destruct (JSON_parse _); simpl in Hparse; congruence.
      - simpl in Hparse. congruence. }
    subst e. repeat split.
Qed.

Lemma assignSides_labelled (fields : list (string * jsval)) :
  truthy (lookup "rightWingArticle" fields) = true ->
  truthy (lookup "leftWingArticle" fields) = true ->
  forall t,
    assignSides (VObj fields) t =
    (inr (normalizedValue (clock 0) (lookup "rightWingArticle" fields),
          normalizedValue (clock 1) (lookup "leftWingArticle" fields)),
     (if negb (truthy (dateOf (lookup "leftWingArticle" fields)))
      then (if negb (truthy (dateOf (lookup "rightWingArticle" fields)))
            then t ++ [missing_date_event] else t) ++ [missing_date_event]
      else (if negb (truthy (dateOf (lookup "rightWingArticle" fields)))
            then t ++ [missing_date_event] else t))).
Proof.
  intros Hr Hl t. unfold assignSides. cbn [getp field].
  unfold bind, ret. rewrite Hr. cbn [getp field]. unfold ret.
  rewrite Hl. cbn [andb].
  rewrite !normalizeArticle_run, Hr, Hl. cbn [andb]. reflexivity.
Qed.

End AnalysisSteps.

Section AnalysisCases.

Import Json Pipeline.

Context `{P : Platform} `{E : Environment}.

(** X6.  A search response that already labels the two articles by side
    is taken at its word: the articles are the two labelled ones,
    normalized, whatever else the response holds (an [articles] list
    included), and the run sends no classification request: after the
    search it sends at most the analysis request. *)
Theorem labelled_articles_are_not_reclassified :
  forall (topic : string) (st : State) (text : string)
         (fields : list (string * jsval)),
    client = true ->
    generateContent (SearchPrompt topic) = inr text ->
    outcome (safeParseJson text) = inr (VObj fields) ->
    truthy (lookup "rightWingArticle" fields) = true ->
    truthy (lookup "leftWingArticle" fields) = true ->
    outcome (assignSides (VObj fields))
    = inr (normalizedValue (clock 0) (lookup "rightWingArticle" fields),
           normalizedValue (clock 1) (lookup "leftWingArticle" fields))
    /\ Forall (fun e => e = missing_date_event)
              (trace (assignSides (VObj fields)))
    /\ Forall not_classification (requestsOf (trace (getAnalysis topic st)))
    /\ exists ana,
         requestsOf (trace (getAnalysis topic st)) = SearchPrompt topic :: ana
         /\ analysisOf topic ana.
Proof.
  intros topic st text fields Hclient Hgen Hparse Hr Hl.
  pose proof (assignSides_labelled fields Hr Hl []) as Hrun.
  assert (Hout : outcome (assignSides (VObj fields))
                 = inr (normalizedValue (clock 0) (lookup "rightWingArticle" fields),
                        normalizedValue (clock 1) (lookup "leftWingArticle" fields)))
    by (unfold outcome; rewrite Hrun; reflexivity).
  assert (Htrace : Forall (fun e => e = missing_date_event)
                          (trace (assignSides (VObj fields)))).
  { unfold trace. rewrite Hrun. cbn [snd].
    destruct (negb (truthy (dateOf (lookup "leftWingArticle" fields))));
      destruct (negb (truthy (dateOf (lookup "rightWingArticle" fields))));
      repeat constructor. }
  assert (Hreqs : exists ana,
             requestsOf (trace (getAnalysis topic st)) = SearchPrompt topic :: ana
             /\ analysisOf topic ana).
  { fold (reqs (getAnalysis topic st)).
    rewrite reqs_getAnalysis, reqs_findAndAnalyze_steps, Hclient, Hgen.
    rewrite reqs_afterSearch, Hparse, reqs_afterParse, Hout.
    assert (Hnone : reqs (assignSides (VObj fields)) = []).
    { apply silent_requests. revert Htrace. apply Forall_impl.
      intros e ->. exact I. }
    rewrite Hnone, app_nil_l, reqs_afterSides.
    eexists. split; [reflexivity|].
    destruct (articleMissing _ _); [left; reflexivity|].
    apply reqs_analyzeArticles. }
  split; [exact Hout|]. split; [exact Htrace|]. split; [|exact Hreqs].
  destruct Hreqs as (ana & -> & [->|(rt & rs & ru & lt & ls & lu & ->)]);
    repeat constructor.
Qed.

Lemma assignSides_too_few (fields : list (string * jsval)) :
  undifferentiated fields ->
  (truthy (lookup "articles" fields) = false
   \/ exists items,
        lookup "articles" fields = VArr items /\ (List.length items < 2)%nat) ->
  forall t, assignSides (VObj fields) t = (inr (VUndefined, VUndefined), t).
Proof.
  unfold undifferentiated. intros Hund Harts t.
  assert (Henough :
            forall t',
              (if truthy (lookup "articles" fields)
               then len <- getp (lookup "articles" fields) "length" ;;
                    ret (ge len 2)
               else ret false) t' = (inr false, t')).
  { intros t'. destruct Harts as [->|(items & -> & Hlen)]; [reflexivity|].
    cbn [truthy getp field]. unfold bind, ret.
    destruct items as [|a [|b items]]; [reflexivity|reflexivity|].
    simpl in Hlen. lia. }
  unfold assignSides. cbn [getp field]. unfold bind at 1 2. unfold ret at 1.
  destruct (truthy (lookup "rightWingArticle" fields)) eqn:Hr.
  - cbn [getp field]. unfold ret at 1. cbn [andb] in Hund |- *.
    rewrite Hund. unfold bind at 1. unfold ret at 1.
    unfold bind. rewrite Henough. reflexivity.
  - unfold ret at 1. rewrite Hr. cbn [andb].
    unfold bind at 1. unfold ret at 1.
    unfold bind. rewrite Henough. reflexivity.
Qed.

(** X7.  When the search response names no pair by side and lists fewer
    than two articles (or none at all), the run ends with the
    [ArticlesNotFound] message without asking the service anything more:
    the search is its only request. *)
Theorem too_few_articles_is_not_found :
  forall (topic : string) (st : State) (text : string)
         (fields : list (string * jsval)),
    client = true ->
    generateContent (SearchPrompt topic) = inr text ->
    outcome (safeParseJson text) = inr (VObj fields) ->
    undifferentiated fields ->
    (truthy (lookup "articles" fields) = false
     \/ exists items,
          lookup "articles" fields = VArr items
          /\ (List.length items < 2)%nat) ->
    outcome (getAnalysis topic st) = inr (settled st (inl ArticlesNotFound))
    /\ requestsOf (trace (getAnalysis topic st)) = [SearchPrompt topic].
Proof.
  intros topic st text fields Hclient Hgen Hparse Hund Harts.
  pose proof (assignSides_too_few fields Hund Harts []) as Hrun.
  assert (Hout : outcome (assignSides (VObj fields))
                 = inr (VUndefined, VUndefined))
    by (unfold outcome; rewrite Hrun; reflexivity).
  assert (Hnone : reqs (assignSides (VObj fields)) = [])
    by (unfold reqs, trace; rewrite Hrun; reflexivity).
  fold (reqs (getAnalysis topic st)).
  rewrite outcome_getAnalysis, reqs_getAnalysis.
  rewrite outcome_findAndAnalyze, reqs_findAndAnalyze_steps, Hclient, Hgen.
  rewrite outcome_afterSearch, reqs_afterSearch, Hparse.
  rewrite outcome_afterParse, reqs_afterParse, Hout, Hnone.
  rewrite outcome_afterSides, reqs_afterSides. split; reflexivity.
Qed.

Lemma classifySides_null (a b : jsval) :
  a = VNull \/ b = VNull ->
  forall t, classifySides (VArr [a; b]) t = (inl (TypeError "title"), t)
            \/ (a <> VNull /\ a <> VUndefined
                /\ classifySides (VArr [a; b]) t = (inl (TypeError "title"), t)).
Proof.
  intros Hnull t. unfold classifySides. cbn [at_index nth].
  destruct Hnull as [->| ->].
  - left. reflexivity.
  - destruct a; try (left; reflexivity);
      right; (split; [discriminate|split; [discriminate|reflexivity]]).
Qed.

(** X8.  A [null] among the first two articles of an unlabelled list is
    not reported as missing articles: reading its title throws, so the
    run ends with the engine's [TypeError] as the error shown, not with
    the [ArticlesNotFound] message, and the classification request is
    never sent. *)
Theorem null_article_surfaces_as_type_error :
  forall (topic : string) (st : State) (text : string)
         (fields : list (string * jsval)) (a b : jsval) (rest : list jsval),
    client = true ->
    generateContent (SearchPrompt topic) = inr text ->
    outcome (safeParseJson text) = inr (VObj fields) ->
    undifferentiated fields ->
    lookup "articles" fields = VArr (a :: b :: rest) ->
    a = VNull \/ b = VNull ->
    outcome (getAnalysis topic st) = inr (settled st (inl (TypeError "title")))
    /\ error (settled st (inl (TypeError "title")))
       <> Some articles_not_found_message
    /\ requestsOf (trace (getAnalysis topic st)) = [SearchPrompt topic].
Proof.
  intros topic st text fields a b rest Hclient Hgen Hparse Hund Harts Hnull.
  assert (Hrun : assignSides (VObj fields) []
                 = (inl (TypeError "title"), [classifying_event])).
  { rewrite (assignSides_undifferentiated fields a b rest Hund Harts).
    destruct (classifySides_null a b Hnull ([] ++ [classifying_event]))
      as [H|(_ & _ & H)]; exact H. }
  assert (Hout : outcome (assignSides (VObj fields)) = inl (TypeError "title"))
    by (unfold outcome; rewrite Hrun; reflexivity).
  assert (Hnone : reqs (assignSides (VObj fields)) = [])
    by (unfold reqs, trace; rewrite Hrun; reflexivity).
  fold (reqs (getAnalysis topic st)).
  rewrite outcome_getAnalysis, reqs_getAnalysis.
  rewrite outcome_findAndAnalyze, reqs_findAndAnalyze_steps, Hclient, Hgen.
  rewrite outcome_afterSearch, reqs_afterSearch, Hparse.
  rewrite outcome_afterParse, reqs_afterParse, Hout, Hnone.
  split; [reflexivity|]. split; [discriminate|reflexivity].
Qed.

End AnalysisCases.

Lemma labelled_articles_are_not_reclassified_witness :
  outcome (@Pipeline.assignSides reference_platform
             (Scenario.env Responses.labelled Scenario.namesFox)
             (VObj [ ("rightWingArticle",
                       VObj [ ("title", VStr "A"); ("source", VStr "Fox News");
                              ("publishedAt", VStr "2025-08-27") ]);
                     ("leftWingArticle",
                       VObj [ ("title", VStr "B"); ("source", VStr "CNN") ]) ]))
  = inr (VObj [ ("title", VStr "A"); ("source", VStr "Fox News");
                ("publishedAt", VStr "2025-08-27") ],
         VObj [ ("title", VStr "B"); ("source", VStr "CNN");
                ("publishedAt", VStr Scenario.now) ]).
Proof.
  exact (proj1 (@labelled_articles_are_not_reclassified reference_platform
                  (Scenario.env Responses.labelled Scenario.namesFox)
                  "Budget vote" Scenario.initial Responses.labelled _
                  eq_refl eq_refl eq_refl eq_refl eq_refl)).
Defined.

Lemma too_few_articles_is_not_found_witness :
  requestsOf
    (trace (@Pipeline.getAnalysis reference_platform
              (Scenario.env Responses.oneArticle Scenario.namesFox)
              "Budget vote" Scenario.initial))
  = [SearchPrompt "Budget vote"].
Proof.
  refine (proj2 (@too_few_articles_is_not_found reference_platform
                   (Scenario.env Responses.oneArticle Scenario.namesFox)
                   "Budget vote" Scenario.initial Responses.oneArticle
                   [("articles",
                      VArr [VObj [("title", VStr "A");
                                  ("source", VStr "Fox News")]])]
                   eq_refl eq_refl eq_refl eq_refl _)).
  right. eexists. split; [reflexivity|]. simpl. lia.
Defined.

Lemma null_article_surfaces_as_type_error_witness :
  outcome (@Pipeline.getAnalysis reference_platform
             (Scenario.env Responses.nullFirst Scenario.namesFox)
             "Budget vote" Scenario.initial)
  = inr (settled Scenario.initial (inl (TypeError "title"))).
Proof.
  exact (proj1 (@null_article_surfaces_as_type_error reference_platform
                  (Scenario.env Responses.nullFirst Scenario.namesFox)
                  "Budget vote" Scenario.initial Responses.nullFirst
                  [("articles",
                     VArr [VNull;
                           VObj [("title", VStr "B"); ("source", VStr "CNN")]])]
                  VNull _ [] eq_refl eq_refl eq_refl eq_refl eq_refl
                  (or_introl eq_refl))).
Defined.


(** ** What a run leaves on the page *)

Lemma outcome_bind_inr {A B} (m : M A) (k : A -> M B) (b : B) :
  (forall a, regular (k a)) ->
  outcome (bind m k) = inr b ->
  exists a, outcome m = inr a /\ outcome (k a) = inr b.
Proof.
  intros Hk. rewrite outcome_bind by exact Hk.
  destruct (outcome m) as [e|a]; [discriminate|].
  intros Hb. exists a. split; [reflexivity|exact Hb].
Qed.

Section StoredAnalysis.

Import Json Pipeline.

Context `{P : Platform} `{E : Environment}.

Lemma analyzeArticles_result (topic : string) (r l result : jsval) :
  outcome (analyzeArticles topic r l) = inr result ->
  exists rSummary rSpin lSummary lPortrayal rest,
    result =
    VObj (("topic", VStr topic)
          :: ("rightWingArticle",
               VObj (set_field "spinAnalysis" rSpin
                       (set_field "summary" rSummary (spread r))))
          :: ("leftWingArticle",
               VObj (set_field "portrayalOfRight" lPortrayal
                       (set_field "summary" lSummary (spread l))))
          :: rest).
Proof.
  unfold analyzeArticles. intros H.
  repeat (apply outcome_bind_inr in H; [|intros; regular];
          destruct H as (? & _ & H)).
  injection H as <-. do 5 eexists. reflexivity.
Qed.

Lemma titled_is_object (v : jsval) :
  truthy (field v "title") = true ->
  exists fields, v = VObj fields /\ truthy (lookup "title" fields) = true.
Proof.
  destruct v; simpl; try discriminate.
  intros H. eexists. split; [reflexivity|exact H].
Qed.

Lemma findAndAnalyze_result (topic : string) (result : jsval) :
  outcome (findAndAnalyze topic) = inr result ->
  exists p r l,
    outcome (assignSides p) = inr (r, l)
    /\ articleMissing r l = false
    /\ outcome (analyzeArticles topic r l) = inr result
    /\ reqs (findAndAnalyze topic)
       = SearchPrompt topic
         :: reqs (assignSides p) ++ reqs (analyzeArticles topic r l).
Proof.
  rewrite outcome_findAndAnalyze, reqs_findAndAnalyze_steps.
  destruct client; [|discriminate].
  destruct (generateContent (SearchPrompt topic)) as [e|text]; [discriminate|].
  rewrite outcome_afterSearch, reqs_afterSearch.
  destruct (outcome (safeParseJson text)) as [e|p]; [discriminate|].
  rewrite outcome_afterParse, reqs_afterParse.
  destruct (outcome (assignSides p)) as [e|[r l]] eqn:Hsides; [discriminate|].
  rewrite outcome_afterSides, reqs_afterSides.
  destruct (articleMissing r l) eqn:Hm; [discriminate|].
  intros H. exists p, r, l. repeat split; assumption.
Qed.

Ltac invert_bind H :=
  apply outcome_bind_inr in H; [|intros; regular];
  let x := fresh "x" in
  let Hx := fresh "Hx" in
  destruct H as (x & Hx & H).

Lemma classifySides_normalized (v : jsval) (r l : jsval) :
  outcome (classifySides v) = inr (r, l) ->
  exists a b,
    r = normalizedValue (clock 0) a /\ l = normalizedValue (clock 1) b.
Proof.
  unfold classifySides. intros H.
  do 8 invert_bind H.
  destruct (strict_eq _ _).
  - do 2 invert_bind H. rewrite outcome_normalizeArticle in Hx7, Hx8.
    injection Hx7 as <-. injection Hx8 as <-. injection H as <- <-.
    eexists _, _. split; reflexivity.
  - do 2 invert_bind H. rewrite outcome_normalizeArticle in Hx7, Hx8.
    injection Hx7 as <-. injection Hx8 as <-. injection H as <- <-.
    eexists _, _. split; reflexivity.
Qed.

Lemma assignSides_normalized (p : jsval) (r l : jsval) :
  outcome (assignSides p) = inr (r, l) ->
  (r = VUndefined /\ l = VUndefined)
  \/ exists a b,
       r = normalizedValue (clock 0) a /\ l = normalizedValue (clock 1) b.
Proof.
  unfold assignSides. intros H.
  do 2 invert_bind H.
  destruct (truthy x && truthy x0).
  - do 2 invert_bind H. rewrite outcome_normalizeArticle in Hx1, Hx2.
    injection Hx1 as <-. injection Hx2 as <-. injection H as <- <-.
    right. eexists _, _. split; reflexivity.
  - do 2 invert_bind H. destruct x2.
    + do 2 invert_bind H. right. eapply classifySides_normalized. exact H.
    + injection H as <- <-. left. split; reflexivity.
Qed.

Lemma normalized_date (now : string) (a : jsval) :
  now <> EmptyString ->
  truthy (normalizedValue now a) = true ->
  truthy (field (normalizedValue now a) "publishedAt") = true.
Proof.
  intros Hnow. unfold normalizedValue.
  destruct (truthy a); [|discriminate]. intros _.
  cbn [field]. rewrite lookup_set_field_same.
  destruct (truthy (dateOf a)) eqn:Hd; [exact Hd|].
  simpl. destruct (String.eqb_spec now EmptyString); [contradiction|reflexivity].
Qed.

Lemma reqs_analyzeArticles_objects (topic : string)
    (rf lf : list (string * jsval)) :
  reqs (analyzeArticles topic (VObj rf) (VObj lf))
  = [AnalysisPrompt topic
       (lookup "title" rf) (lookup "source" rf) (lookup "url" rf)
       (lookup "title" lf) (lookup "source" lf) (lookup "url" lf)].
Proof.
  unfold analyzeArticles. cbn [getp field].
  rewrite reqs_bind by (intros; regular).
  change (outcome (emit ?e)) with (@inr exn _ tt). cbv iota beta.
  change (reqs (emit (LoadingMessage "Analyzing perspectives...")))
    with (@nil Prompt).
  rewrite app_nil_l.
  do 6 (rewrite reqs_bind by (intros; regular);
        change (outcome (ret ?x)) with (@inr exn _ x); cbv iota beta;
        change (reqs (ret ?x)) with (@nil Prompt); rewrite app_nil_l).
  rewrite reqs_bind by (intros; regular). rewrite reqs_request.
  destruct (outcome (request _)) as [e|analysisText]; [reflexivity|].
  rewrite reqs_silent; [reflexivity|]. silent.
Qed.

(** X9.  An analysis is only ever stored whole, and it is about the
    articles the service was asked about.  When a run of [getAnalysis]
    leaves a result on the page, no error is set and the loader is off;
    the result carries the requested topic; each of its two articles is
    an object with a non-empty title and, as long as the clock gives a
    non-empty time, a non-empty date; and the run sent the search, at most
    one classification request, and last the analysis request, whose
    titles, sources and URLs are those of the two articles stored. *)
Theorem stored_analysis_has_two_titled_articles :
  forall (topic : string) (st final : State) (result : jsval),
    outcome (getAnalysis topic st) = inr final ->
    analysis final = Some result ->
    let right := field result "rightWingArticle" in
    let left := field result "leftWingArticle" in
    error final = None
    /\ loading final = false
    /\ field result "topic" = VStr topic
    /\ truthy (field right "title") = true
    /\ truthy (field left "title") = true
    /\ ((forall k, clock k <> EmptyString) ->
        truthy (field right "publishedAt") = true
        /\ truthy (field left "publishedAt") = true)
    /\ exists cls,
         classification cls
         /\ requestsOf (trace (getAnalysis topic st))
            = SearchPrompt topic
              :: cls
              ++ [AnalysisPrompt topic
                    (field right "title") (field right "source")
                    (field right "url")
                    (field left "title") (field left "source")
                    (field left "url")].
Proof.
  intros topic st final result Hrun Hres.
  fold (reqs (getAnalysis topic st)). rewrite reqs_getAnalysis.
  rewrite outcome_getAnalysis in Hrun. injection Hrun as <-.
  unfold settled in Hres |- *. cbn [analysis error loading] in Hres |- *.
  destruct (outcome (findAndAnalyze topic)) as [e|v] eqn:Hout; [discriminate|].
  injection Hres as ->.
  destruct (findAndAnalyze_result topic result Hout)
    as (p & r & l & Hsides & Hm & Han & Hreqs).
  destruct (analyzeArticles_result topic r l result Han)
    as (rSummary & rSpin & lSummary & lPortrayal & rest & ->).
  unfold articleMissing in Hm.
  apply orb_false_iff in Hm. destruct Hm as [Hm Hlt].
  apply orb_false_iff in Hm. destruct Hm as [Hm Hrt].
  apply orb_false_iff in Hm. destruct Hm as [Hr Hl].
  apply negb_false_iff in Hlt, Hrt, Hr, Hl.
  assert (Hdates : (forall k, clock k <> EmptyString) ->
                   truthy (field r "publishedAt") = true
                   /\ truthy (field l "publishedAt") = true).
  { intros Hclock.
    destruct (assignSides_normalized p r l Hsides)
      as [[-> _]|(a & b & -> & ->)]; [discriminate|].
    split; apply normalized_date; auto. }
  destruct (titled_is_object r Hrt) as (rf & -> & Hrf).
  destruct (titled_is_object l Hlt) as (lf & -> & Hlf).
  rewrite reqs_analyzeArticles_objects in Hreqs.
  cbv zeta.
  cbn [field lookup String.eqb Ascii.eqb Bool.eqb spread] in Hdates |- *.
  rewrite !lookup_set_field_other by discriminate.
  split; [reflexivity|]. split; [reflexivity|]. split; [reflexivity|].
  split; [exact Hrf|]. split; [exact Hlf|]. split; [exact Hdates|].
  exists (reqs (assignSides p)). split; [apply reqs_assignSides|exact Hreqs].
Qed.

(** X10.  Started from the headlines, an analysis ends in one of three
    ways, with the loader off in each.  Nothing is stored, an error is
    set and the headlines are back; or a result is stored, no error is
    set, and the results are shown; or a result is stored that [Results]
    cannot render, and the page is blank.  The last happens in particular
    whenever the stored result has no array of leftist or of socialist
    talking points, which nothing checks before it is stored.  Unless the
    page is blank, [resetView] brings back the headlines without a
    banner. *)
Theorem analysis_ends_on_results_headlines_or_a_blank_page :
  forall (topic : string) (a : Screen.App),
    Screen.mainArea a = Screen.HeadlinesView ->
    exists page',
      let a' := {| Screen.page := page'; Screen.feed := Screen.feed a |} in
      let back := {| Screen.page := Screen.resetView page';
                     Screen.feed := Screen.feed a |} in
      outcome (getAnalysis topic (Screen.page a)) = inr page'
      /\ loading page' = false
      /\ ((analysis page' = None
           /\ (exists m, error page' = Some m)
           /\ Screen.mainArea a' = Screen.HeadlinesView)
          \/ (exists result,
                analysis page' = Some result
                /\ error page' = None
                /\ Screen.errorBanner a' = None
                /\ Screen.mainArea a'
                   = (if Screen.Results result then Screen.ResultsView
                      else Screen.RenderFailure)
                /\ ((forall items,
                        field result "leftistTalkingPoints" <> VArr items) ->
                    Screen.mainArea a' = Screen.RenderFailure)
                /\ ((forall items,
                        field result "socialistTalkingPoints" <> VArr items) ->
                    Screen.mainArea a' = Screen.RenderFailure)))
      /\ (Screen.mainArea a' <> Screen.RenderFailure ->
          Screen.mainArea back = Screen.HeadlinesView
          /\ Screen.errorBanner back = None).
Proof.
  intros topic [page feed] Hshown. cbn [Screen.page Screen.feed].
  rewrite outcome_getAnalysis. eexists. cbv zeta.
  split; [reflexivity|].
  unfold Screen.mainArea in Hshown |- *. cbn [Screen.page Screen.feed] in *.
  destruct (analysis page) as [v|];
    [destruct (Screen.Results v); discriminate|].
  destruct (Headlines.headlinesLoading feed); [discriminate|].
  destruct (Screen.shown_text (Headlines.headlinesError feed)); [discriminate|].
  destruct (Headlines.headlines feed); [|discriminate].
  unfold settled, Screen.errorBanner, Screen.resetView.
  cbn [analysis error loading Screen.page].
  split; [reflexivity|].
  destruct (outcome (findAndAnalyze topic)) as [e|result].
  - split; [|intros _; split; reflexivity].
    left. split; [reflexivity|]. split; [eexists; reflexivity|reflexivity].
  - split; [|intros _; split; reflexivity].
    right. exists result.
    split; [reflexivity|]. split; [reflexivity|]. split; [reflexivity|].
    split; [reflexivity|].
    unfold Screen.Results, Screen.points.
    split; intros Hnone.
    + destruct (field result "leftistTalkingPoints") as [| | | | |items|];
        try (rewrite ?andb_false_r; reflexivity).
      destruct (Hnone items eq_refl).
    + destruct (field result "socialistTalkingPoints") as [| | | | |items|];
        try (rewrite ?andb_false_r; reflexivity).
      destruct (Hnone items eq_refl).
Qed.

End StoredAnalysis.

Lemma stored_analysis_has_two_titled_articles_witness :
  Json.field Success.result "topic" = VStr "Budget vote"
  /\ Json.truthy
       (Json.field (Json.field Success.result "rightWingArticle") "title")
     = true.
Proof.
  pose proof (@stored_analysis_has_two_titled_articles reference_platform
                (Scenario.env Scenario.twoArticles Scenario.namesFox)
                "Budget vote" Scenario.initial Success.final Success.result
                ltac:(vm_compute; reflexivity) ltac:(vm_compute; reflexivity))
    as (_ & _ & Htopic & Hright & _).
  split; [exact Htopic|exact Hright].
Defined.

(** A run that stores a result without its lists: the page is blank. *)
Lemma analysis_ends_on_results_headlines_or_a_blank_page_witness :
  exists page',
    outcome (@Pipeline.getAnalysis reference_platform Listless.env
               "Budget vote" Scenario.initial) = inr page'
    /\ Pipeline.error page' = None
    /\ Screen.mainArea {| Screen.page := page'; Screen.feed := Example.final |}
       = Screen.RenderFailure.
Proof.
  destruct (@analysis_ends_on_results_headlines_or_a_blank_page
              reference_platform Listless.env "Budget vote"
              {| Screen.page := Scenario.initial;
                 Screen.feed := Example.final |} eq_refl)
    as (page' & Hrun & _ & Hends & _).
  cbn [Screen.page Screen.feed] in Hrun, Hends.
  exists page'. split; [exact Hrun|].
  destruct Hends as [(Hnone & _ & _)|(result & Hres & Herr & _ & _ & Hleft & _)].
  - vm_compute in Hrun. injection Hrun as <-. discriminate.
  - split; [exact Herr|]. apply Hleft.
    vm_compute in Hrun. injection Hrun as <-.
    injection Hres as <-. intros items. discriminate.
Defined.

(** ** The headline lists *)

Section HeadlineLists.

Import Headlines.

Context `{P : Platform}.

Lemma stable_all_equal {A : Type} (cmp : A -> A -> option Z) (l : list A) :
  (forall a b, In a l -> In b l -> cmp a b = None) ->
  JSArray.stable cmp l = l.
Proof.
  induction l as [|x l IH]; intros Hcmp; simpl; [reflexivity|].
  rewrite IH by (intros a b Ha Hb; apply Hcmp; right; assumption).
  destruct l as [|y l]; simpl; [reflexivity|].
  unfold JSArray.compare_value.
  rewrite (Hcmp x y) by (simpl; auto). reflexivity.
Qed.

Lemma sort_all_equal {A : Type} (cmp : A -> A -> option Z) (l : list A) :
  (forall a b, In a l -> In b l -> cmp a b = None) ->
  JSArray.sort cmp l = l.
Proof.
  intros Hcmp. rewrite (sort_keyed cmp (fun _ => 0) l).
  - apply stable_all_equal. exact Hcmp.
  - intros a b Ha Hb. unfold JSArray.compare_value.
    rewrite (Hcmp a b Ha Hb). reflexivity.
Qed.

Lemma byRecency_undated (l : list Headline) :
  (forall h, In h l -> undated h) ->
  forall a b, In a l -> In b l -> byRecency a b = None.
Proof.
  intros Hu a b Ha Hb. unfold byRecency.
  rewrite (Hu b Hb). reflexivity.
Qed.

(** X11.  Each side list the page shows is its side of the response
    without the headlines that bear the text of a latest one: nothing is
    added, moved to the other side, duplicated or lost.  When the dates of
    a side can be read it is shown most recent first. *)
Theorem side_lists_are_own_side_most_recent_first :
  forall (parsedJson : Headlines) (st : State),
    exists final sides,
      outcome (fetchHeadlines true (inr parsedJson) st) = inr final
      /\ headlines final = Some sides
      /\ Permutation (leftHeadlines sides)
                     (filter (not_latest parsedJson) (leftHeadlines parsedJson))
      /\ Permutation (rightHeadlines sides)
                     (filter (not_latest parsedJson) (rightHeadlines parsedJson))
      /\ ((forall h, In h (leftHeadlines parsedJson) -> dated h) ->
          StronglySorted (descending recency) (leftHeadlines sides))
      /\ ((forall h, In h (rightHeadlines parsedJson) -> dated h) ->
          StronglySorted (descending recency) (rightHeadlines sides)).
Proof.
  intros parsedJson st. rewrite fetchHeadlines_success.
  eexists. eexists. split; [reflexivity|]. split; [reflexivity|].
  cbn [leftHeadlines rightHeadlines remainingOf]. unfold sortHeadlines.
  fold (not_latest parsedJson).
  split; [apply sort_perm|]. split; [apply sort_perm|].
  split; intros Hd; apply sort_sorted; intros a b Ha Hb;
    apply filter_In in Ha; apply filter_In in Hb;
    apply byRecency_dated; apply Hd; tauto.
Qed.

(** X12.  When no date of the response can be read the order of the
    response decides: the latest list is the first two headlines of the
    pooled list, left side before right side, and each side list keeps
    the order the response gave it. *)
Theorem undated_headlines_keep_response_order :
  forall (parsedJson : Headlines),
    (forall h, In h (pool parsedJson) -> undated h) ->
    latestOf parsedJson = firstn 2 (pool parsedJson)
    /\ leftHeadlines (remainingOf parsedJson)
       = filter (not_latest parsedJson) (leftHeadlines parsedJson)
    /\ rightHeadlines (remainingOf parsedJson)
       = filter (not_latest parsedJson) (rightHeadlines parsedJson).
Proof.
  intros parsedJson Hu. unfold pool in Hu.
  split; [|split].
  - unfold latestOf, JSArray.slice0, pool.
    rewrite sort_all_equal; [reflexivity|].
    apply byRecency_undated. exact Hu.
  - cbn [leftHeadlines remainingOf]. unfold sortHeadlines.
    apply sort_all_equal, byRecency_undated.
    intros h Hh. apply filter_In in Hh. apply Hu, in_or_app. tauto.
  - cbn [rightHeadlines remainingOf]. unfold sortHeadlines.
    apply sort_all_equal, byRecency_undated.
    intros h Hh. apply filter_In in Hh. apply Hu, in_or_app. tauto.
Qed.

(** X13.  Once the mount effect and its request have come to an end the
    page is never blank (nothing to show, or a render that throws), never
    left on the loader and never on results:
    it shows the headlines exactly when
    there was an API key and the request succeeded, the text
    [Failed to fetch headlines.] when the request failed, and, without an
    API key, [API_KEY is not set.] together with the banner about the
    environment variables, in which case nothing was requested or logged. *)
Theorem mount_shows_headlines_or_an_error :
  forall (apiKey : bool) (device : option Speech.Synth)
         (response : exn + Headlines),
    exists a,
      outcome (Screen.mount apiKey device response) = inr a
      /\ Screen.mainArea a <> Screen.NothingShown
      /\ Screen.mainArea a <> Screen.RenderFailure
      /\ Screen.mainArea a <> Screen.HeadlinesLoader
      /\ Screen.mainArea a <> Screen.ResultsView
      /\ (Screen.mainArea a = Screen.HeadlinesView
          <-> apiKey = true /\ exists parsedJson, response = inr parsedJson)
      /\ (apiKey = true -> (exists e, response = inl e) ->
          Screen.mainArea a
          = Screen.HeadlinesErrorView "Failed to fetch headlines."
          /\ Screen.errorBanner a = None)
      /\ (apiKey = false ->
          Screen.mainArea a = Screen.HeadlinesErrorView "API_KEY is not set."
          /\ Screen.errorBanner a
             = Some "API_KEY is not set. Please check your environment variables."
          /\ trace (Screen.mount apiKey device response) = []).
Proof.
  intros apiKey device response. destruct apiKey.
  - destruct response as [e|parsedJson].
    + eexists. split; [reflexivity|]. cbn.
      split; [discriminate|]. split; [discriminate|]. split; [discriminate|].
      split; [discriminate|].
      split; [split; [discriminate|intros [_ [p Hp]]; discriminate]|].
      split; [intros _ _; split; reflexivity|discriminate].
    + eexists. split; [reflexivity|]. cbn.
      split; [discriminate|]. split; [discriminate|]. split; [discriminate|].
      split; [discriminate|].
      split.
      { split; [|reflexivity].
        intros _. split; [reflexivity|]. eexists. reflexivity. }
      split; [intros _ [e He]; discriminate|discriminate].
  - eexists. split; [reflexivity|]. cbn.
    split; [discriminate|]. split; [discriminate|]. split; [discriminate|].
    split; [discriminate|].
    split; [split; [discriminate|intros [H _]; discriminate]|].
    split; [discriminate|]. intros _. repeat split.
Qed.

End HeadlineLists.

Lemma undated_headlines_keep_response_order_witness :
  @Headlines.latestOf reference_platform Undated.response
  = [Undated.a1; Undated.a2].
Proof.
  refine (proj1 (@undated_headlines_keep_response_order reference_platform
                   Undated.response _)).
  intros h Hh. simpl in Hh.
  destruct Hh as [<-|[<-|[<-|[<-|[]]]]]; reflexivity.
Defined.

(** ** The second variant: ticker and analysis *)

Section DirectProperties.

Import Json Direct.

Lemma withDefaults_items (clock : nat -> string) (items : list TickerItem) :
  forall i,
    List.length (withDefaults clock i items) = List.length items
    /\ map headline (withDefaults clock i items) = map itemHeadline items
    /\ map source (withDefaults clock i items) = map itemSource items
    /\ map url (withDefaults clock i items) = map itemUrl items
    /\ Forall (fun h => emoji h = defaultEmoji) (withDefaults clock i items).
Proof.
  induction items as [|x items IH]; intros i; simpl.
  - repeat split. constructor.
  - destruct (IH (S i)) as (H1 & H2 & H3 & H4 & H5).
    rewrite H1, H2, H3, H4. repeat split. constructor; [reflexivity|exact H5].
Qed.

(** X14.  A refresh of the ticker never fails and never shows a partial
    list.  When the request succeeds the ticker becomes the headlines of
    the response, in order, each with its headline, source and URL
    unchanged and the default emoji, so that an empty response hides the
    ticker; when the client is missing or the request or its parsing
    fails, the ticker keeps what it showed, and only the failure is
    logged. *)
Theorem ticker_refresh_replaces_or_keeps :
  forall (clock : nat -> string) (tickerHeadlines : list Headline),
    (forall items,
        exists new,
          fetchTickerHeadlines true (inr items) clock tickerHeadlines []
          = (inr new, [])
          /\ List.length new = List.length items
          /\ map headline new = map itemHeadline items
          /\ map source new = map itemSource items
          /\ map url new = map itemUrl items
          /\ Forall (fun h => emoji h = defaultEmoji) new
          /\ (tickerItems new = None <-> items = []))
    /\ (forall e,
          fetchTickerHeadlines true (inl e) clock tickerHeadlines []
          = (inr tickerHeadlines,
             [ConsoleError "Failed to fetch ticker headlines:"]))
    /\ (forall response,
          fetchTickerHeadlines false response clock tickerHeadlines []
          = (inr tickerHeadlines, [])).
Proof.
  intros clock tickerHeadlines. split; [|split].
  - intros items. eexists. split; [reflexivity|].
    destruct (withDefaults_items clock items 0) as (H1 & H2 & H3 & H4 & H5).
    repeat (split; [assumption|]).
    destruct items; simpl; split; intros H; try reflexivity; discriminate.
  - intros e. reflexivity.
  - intros response. reflexivity.
Qed.

Lemma lookup_overlay (extra : list (string * jsval)) :
  NoDup (map fst extra) ->
  forall (base : list (string * jsval)) (k : string),
    (In k (map fst extra) -> lookup k (overlay base extra) = lookup k extra)
    /\ (~ In k (map fst extra) -> lookup k (overlay base extra) = lookup k base).
Proof.
  induction extra as [|[k1 v1] extra IH]; intros Hnd base k.
  - split; [intros []|reflexivity].
  - inversion Hnd as [|? ? Hnotin Hnd']; subst.
    unfold overlay. cbn [fold_left fst snd map].
    fold (overlay (set_field k1 v1 base) extra).
    destruct (IH Hnd' (set_field k1 v1 base) k) as [Hin Hout].
    cbn [lookup]. destruct (String.eqb_spec k1 k) as [->|Hne].
    + split.
      * intros _. rewrite Hout by exact Hnotin.
        apply lookup_set_field_same.
      * intros Hk. exfalso. apply Hk. left. reflexivity.
    + split.
      * intros [Hk|Hk]; [congruence|]. apply Hin. exact Hk.
      * intros Hk. rewrite Hout by (intros Hk'; apply Hk; right; exact Hk').
        apply lookup_set_field_other. congruence.
Qed.

Context `{P : Platform} `{S : Service}.

(** X15.  In the one-request variant the fields of the response win over
    what the program knows of the clicked headline: the stored result has
    every property of the parsed response with its value, a [topic] or an
    [article] of the response included, and takes [topic] and [article]
    from the headline only when the response has none. *)
Theorem response_fields_override_the_headline :
  forall (h : Headline) (st : Pipeline.State) (text : string)
         (fields : list (string * jsval)),
    ready = true ->
    analyzeArticle (headline h) (source h) (url h) = inr text ->
    outcome (safeParseJson text) = inr (VObj fields) ->
    NoDup (map fst fields) ->
    exists result,
      outcome (getAnalysis h st)
      = inr {| Pipeline.analysis := Some (VObj result);
               Pipeline.loading := false;
               Pipeline.loadingMessage := EmptyString;
               Pipeline.error := None;
               Pipeline.speech := Speech.stopSpeech (Pipeline.speech st) |}
      /\ (forall k, In k (map fst fields) -> lookup k result = lookup k fields)
      /\ (forall k, ~ In k (map fst fields) ->
                    lookup k result = lookup k (ownFields h)).
Proof.
  intros h st text fields Hready Htext Hparse Hnd.
  exists (overlay (ownFields h) fields). split.
  - unfold getAnalysis, analyze. rewrite Hready, Htext.
    rewrite outcome_bind by (intros; regular).
    change (outcome (emit ?e)) with (@inr exn _ tt). cbv iota beta zeta.
    rewrite outcome_bind by (intros; regular).
    rewrite outcome_try_catch by (intros; regular).
    rewrite outcome_bind by (intros; regular).
    rewrite outcome_bind by (intros; regular).
    change (outcome (ret ?x)) with (@inr exn _ x). cbv iota beta.
    rewrite outcome_bind by (intros; regular).
    change (outcome (ret ?x)) with (@inr exn _ x). cbv iota beta.
    rewrite outcome_bind by (intros; regular).
    rewrite Hparse. reflexivity.
  - split; intros k Hk; apply (lookup_overlay fields Hnd (ownFields h) k); exact Hk.
Qed.

End DirectProperties.

Lemma response_fields_override_the_headline_witness :
  exists result,
    outcome (@Direct.getAnalysis reference_platform Ticker.service
               Ticker.clicked Scenario.initial)
    = inr {| Pipeline.analysis := Some (VObj result);
             Pipeline.loading := false;
             Pipeline.loadingMessage := EmptyString;
             Pipeline.error := None;
             Pipeline.speech := Speech.stopSpeech (Pipeline.speech Scenario.initial) |}
    /\ Json.lookup "topic" result = VStr "Weather".
Proof.
  destruct (@response_fields_override_the_headline reference_platform
              Ticker.service Ticker.clicked Scenario.initial
              (json_text "{'topic':'Weather','category':'National News','spectrumScore':-2}")
              [ ("topic", VStr "Weather");
                ("category", VStr "National News");
                ("spectrumScore", VNum (-2)) ]
              eq_refl eq_refl ltac:(vm_compute; reflexivity)
              ltac:(repeat constructor; simpl; intuition discriminate))
    as (result & Hrun & Hin & _).
  exists result. split; [exact Hrun|].
  rewrite (Hin "topic") by (simpl; auto). reflexivity.
Defined.

(** ** The two JSON extractions *)

Section Trimmed.

Lemma trimStart_split (s : string) :
  exists pre,
    s = (pre ++ JS.trimStart s)%string /\ whitespace_only pre = true.
Proof.
  induction s as [|c s (pre & Hs & Hpre)]; simpl.
  - exists EmptyString. split; reflexivity.
  - destruct (JS.is_ws c) eqn:Hc.
    + exists (String c pre). simpl. rewrite Hc, Hpre, <- Hs. split; reflexivity.
    + exists EmptyString. split; reflexivity.
Qed.

Lemma trimEnd_split (s : string) :
  exists post,
    s = (JS.trimEnd s ++ post)%string /\ whitespace_only post = true.
Proof.
  induction s as [|c s (post & Hs & Hpost)]; simpl.
  - exists EmptyString. split; reflexivity.
  - destruct (JS.trimEnd s) as [|a t] eqn:Ht.
    + simpl in Hs. subst post. destruct (JS.is_ws c) eqn:Hc.
      * exists (String c s). simpl. rewrite Hc, Hpost. split; reflexivity.
      * exists s. split; [reflexivity|exact Hpost].
    + exists post. simpl. rewrite Hs at 1. split; [reflexivity|exact Hpost].
Qed.

Lemma trim_split (s : string) :
  exists pre post,
    s = (pre ++ (JS.trim s ++ post))%string
    /\ whitespace_only pre = true /\ whitespace_only post = true.
Proof.
  destruct (trimStart_split s) as (pre & Hs & Hpre).
  destruct (trimEnd_split (JS.trimStart s)) as (post & Ht & Hpost).
  exists pre, post. unfold JS.trim. rewrite <- Ht, <- Hs. auto.
Qed.

Lemma whitespace_only_get (w : string) (i : nat) (c : ascii) :
  whitespace_only w = true -> String.get i w = Some c -> JS.is_ws c = true.
Proof.
  revert i. induction w as [|a w IH]; intros i Hw Hget; simpl in *.
  - discriminate.
  - apply andb_true_iff in Hw. destruct Hw as [Ha Hw].
    destruct i as [|i]; [congruence|]. exact (IH i Hw Hget).
Qed.

Variables (pre t post : string).

Hypothesis Hpre : whitespace_only pre = true.
Hypothesis Hpost : whitespace_only post = true.

Lemma get_core (i : nat) :
  (i < String.length t)%nat ->
  String.get (i + String.length pre) (pre ++ (t ++ post))%string
  = String.get i t.
Proof.
  intros Hi. rewrite <- append_correct2.
  symmetry. apply append_correct1. exact Hi.
Qed.

Lemma get_outside (k : nat) (c : ascii) :
  String.get k (pre ++ (t ++ post))%string = Some c -> JS.is_ws c = false ->
  exists i, k = (i + String.length pre)%nat /\ (i < String.length t)%nat
            /\ String.get i t = Some c.
Proof.
  intros Hget Hc.
  destruct (Nat.lt_ge_cases k (String.length pre)) as [Hlt|Hge].
  - rewrite <- (append_correct1 pre _ k Hlt) in Hget.
    rewrite (whitespace_only_get pre k c Hpre Hget) in Hc. discriminate.
  - replace k with ((k - String.length pre) + String.length pre)%nat in Hget
      by lia.
    rewrite <- append_correct2 in Hget.
    destruct (Nat.lt_ge_cases (k - String.length pre) (String.length t))
      as [Hlt|Hge'].
    + exists (k - String.length pre)%nat. split; [lia|]. split; [exact Hlt|].
      rewrite (append_correct1 t post _ Hlt). exact Hget.
    + replace (k - String.length pre)%nat
        with ((k - String.length pre - String.length t) + String.length t)%nat
        in Hget by lia.
      rewrite <- append_correct2 in Hget.
      rewrite (whitespace_only_get post _ c Hpost Hget) in Hc. discriminate.
Qed.

Lemma first_at_padded (c : ascii) (i : nat) :
  JS.is_ws c = false -> first_at c i t ->
  first_at c (i + String.length pre) (pre ++ (t ++ post))%string.
Proof.
  intros Hc [Hget Hmin].
  pose proof (get_lt_length t i c Hget) as Hlt.
  split; [rewrite get_core by exact Hlt; exact Hget|].
  intros k Hk Hgetk.
  destruct (get_outside k c Hgetk Hc) as (i' & -> & _ & Hget').
  apply (Hmin i'); [lia|exact Hget'].
Qed.

Lemma last_at_padded (c : ascii) (j : nat) :
  JS.is_ws c = false -> last_at c j t ->
  last_at c (j + String.length pre) (pre ++ (t ++ post))%string.
Proof.
  intros Hc [Hget Hmax].
  pose proof (get_lt_length t j c Hget) as Hlt.
  split; [rewrite get_core by exact Hlt; exact Hget|].
  intros k Hk Hgetk.
  destruct (get_outside k c Hgetk Hc) as (j' & -> & _ & Hget').
  apply (Hmax j'); [lia|exact Hget'].
Qed.

Lemma braces_padded :
  no_braces (pre ++ (t ++ post))%string = no_braces t
  /\ (no_braces t = false ->
      between_braces (pre ++ (t ++ post))%string = between_braces t).
Proof.
  destruct (brace_indices t)
    as [(i & j & Hi & Hj & Hle & Htest & Htext)|[Hno Htest]].
  - pose proof (first_at_padded "{" i eq_refl Hi) as Hi'.
    pose proof (last_at_padded "}" j eq_refl Hj) as Hj'.
    destruct (brace_indices (pre ++ (t ++ post))%string)
      as [(i' & j' & Hi2 & Hj2 & Hle2 & Htest2 & Htext2)|[Hno2 _]].
    + rewrite Htest, Htest2. split; [reflexivity|]. intros _.
      rewrite Htext, Htext2.
      rewrite (first_at_unique "{" (pre ++ (t ++ post))%string i' (i + String.length pre) Hi2 Hi').
      rewrite (last_at_unique "}" (pre ++ (t ++ post))%string j' (j + String.length pre) Hj2 Hj').
      replace (j + String.length pre - (i + String.length pre) + 1)%nat with (j - i + 1)%nat by lia.
      apply get_correct. intros p.
      destruct (Nat.lt_ge_cases p (j - i + 1)) as [Hp|Hp].
      * rewrite !substring_correct1 by exact Hp.
        pose proof (get_lt_length t j "}"%char (proj1 Hj)) as Hlt.
        replace (p + (i + String.length pre))%nat with ((p + i) + String.length pre)%nat by lia.
        apply get_core. lia.
      * rewrite !substring_correct2 by exact Hp. reflexivity.
    + exfalso. specialize (Hno2 _ _ (proj1 Hi') (proj1 Hj')). lia.
  - rewrite Htest. split; [|discriminate].
    destruct (brace_indices (pre ++ (t ++ post))%string)
      as [(i' & j' & Hi2 & Hj2 & Hle2 & _ & _)|[_ Htest2]];
      [|exact Htest2].
    exfalso.
    destruct (get_outside i' "{" (proj1 Hi2) eq_refl) as (a & -> & _ & Ha).
    destruct (get_outside j' "}" (proj1 Hj2) eq_refl) as (b & -> & _ & Hb).
    specialize (Hno a b Ha Hb). lia.
Qed.

End Trimmed.

Lemma braces_of_trim (s : string) :
  no_braces (JS.trim s) = no_braces s
  /\ (no_braces s = false ->
      between_braces (JS.trim s) = between_braces s).
Proof.
  destruct (trim_split s) as (pre & post & Hs & Hpre & Hpost).
  destruct (braces_padded pre (JS.trim s) post Hpre Hpost) as [Htest Htext].
  rewrite <- Hs in Htest, Htext.
  split; [symmetry; exact Htest|]. intros Hno. symmetry. apply Htext.
  rewrite <- Htest. exact Hno.
Qed.

Section Agreement.

Context `{P : Platform}.

Lemma outcome_safeParseJson (s : string) :
  outcome (safeParseJson s) =
  if no_braces s then inl MalformedResponse
  else match JSON_parse (between_braces s) with
       | Some v => inr v
       | None => inl MalformedResponse
       end.
Proof.
  unfold outcome, safeParseJson, try_catch.
  fold (no_braces s). fold (between_braces s).
  destruct (no_braces s); [reflexivity|].
  destruct (JSON_parse _); reflexivity.
Qed.

Lemma outcome_extractJson (s : string) :
  outcome (FirstVariant.extractJson s) =
  if no_braces s then inl (Error FirstVariant.no_json_message)
  else match JSON_parse (between_braces s) with
       | Some v => inr v
       | None => inl MalformedResponse
       end.
Proof.
  destruct (braces_of_trim s) as [Htest Htext].
  unfold outcome, FirstVariant.extractJson. cbv zeta.
  fold (no_braces (JS.trim s)). fold (between_braces (JS.trim s)).
  rewrite Htest. destruct (no_braces s); [reflexivity|].
  rewrite Htext by reflexivity.
  destruct (JSON_parse _); reflexivity.
Qed.

(** X16.  The extraction written inline in the first variant and
    [safeParseJson] agree on every text: one returns a value exactly when
    the other does, and it is the same value; trimming the text first
    changes nothing.  They differ only in the message of a failure:
    where [safeParseJson] always throws [MalformedResponse], the inline
    extraction says that no JSON object was found when the braces are
    missing, and throws [MalformedResponse] too when the text between them
    does not parse. *)
Theorem both_extractions_agree :
  forall s : string,
    (forall v,
        outcome (FirstVariant.extractJson s) = inr v
        <-> outcome (safeParseJson s) = inr v)
    /\ outcome (safeParseJson (JS.trim s)) = outcome (safeParseJson s)
    /\ (forall e,
          outcome (FirstVariant.extractJson s) = inl e ->
          outcome (safeParseJson s) = inl MalformedResponse
          /\ (e = MalformedResponse
              \/ e = Error FirstVariant.no_json_message))
    /\ (forall e,
          outcome (safeParseJson s) = inl e ->
          exists e', outcome (FirstVariant.extractJson s) = inl e').
Proof.
  intros s. rewrite outcome_extractJson, !outcome_safeParseJson.
  destruct (braces_of_trim s) as [Htest Htext]. rewrite Htest.
  destruct (no_braces s) eqn:Hno.
  - split; [intros v; split; discriminate|]. split; [reflexivity|].
    split.
    + intros e He. injection He as <-. split; [reflexivity|]. right. reflexivity.
    + intros e _. eexists. reflexivity.
  - rewrite Htext by reflexivity.
    destruct (JSON_parse (between_braces s)) as [v|].
    + split; [intros v'; tauto|]. split; [reflexivity|].
      split; [discriminate|discriminate].
    + split; [intros v'; split; discriminate|]. split; [reflexivity|].
      split.
      * intros e He. injection He as <-. split; [reflexivity|]. left. reflexivity.
      * intros e _. eexists. reflexivity.
Qed.

End Agreement.

Section GroundedProperties.

Context `{P : Platform}.

Lemma regular_extractJson (s : string) : regular (FirstVariant.extractJson s).
Proof. unfold FirstVariant.extractJson. regular. Qed.

Lemma outcome_grounded (client : bool) (response : exn + string)
    (st : Grounded.State) :
  outcome (Grounded.getAnalysis client response st) =
  inr (grounded_settled st
         (if client then
            match response with
            | inl e => inl e
            | inr text => outcome (FirstVariant.extractJson text)
            end
          else inl (Error "AI client not initialized."))).
Proof.
  unfold Grounded.getAnalysis. cbv zeta.
  assert (Hreg : forall s, regular (FirstVariant.extractJson s))
    by apply regular_extractJson.
  rewrite outcome_bind by (intros; regular).
  rewrite outcome_try_catch by (intros; regular).
  destruct client; [|reflexivity].
  rewrite outcome_bind by (intros; regular; apply Hreg).
  change (outcome (ret ?x)) with (@inr exn _ x). cbv iota beta.
  destruct response as [e|text]; [reflexivity|].
  rewrite outcome_bind by (intros; regular; apply Hreg).
  change (outcome (ret ?x)) with (@inr exn _ x). cbv iota beta.
  rewrite outcome_bind by (intros; regular).
  destruct (outcome (FirstVariant.extractJson text)); reflexivity.
Qed.

(** X17.  [getAnalysis] of the first variant always comes back with the
    loader off and the speech stopped, and stores exactly what
    [safeParseJson] would extract from the text of the response, without
    looking at its fields.  Otherwise nothing is stored and the error says
    why: the client is missing, the request was rejected (its own
    message, or [An unknown error occurred.] when the rejection is not an
    [Error]), the text has no braces in order, or what is between them
    does not parse. *)
Theorem first_variant_stores_the_extracted_object :
  forall (client : bool) (response : exn + string) (st : Grounded.State),
    exists final,
      outcome (Grounded.getAnalysis client response st) = inr final
      /\ Grounded.loading final = false
      /\ Grounded.speech final = Speech.stopSpeech_v1 (Grounded.speech st)
      /\ (forall v,
            Grounded.analysis final = Some v
            <-> client = true
                /\ exists text,
                     response = inr text
                     /\ outcome (safeParseJson text) = inr v)
      /\ (Grounded.analysis final = None <-> Grounded.error final <> None)
      /\ (client = false ->
          Grounded.error final = Some "AI client not initialized.")
      /\ (forall e,
            client = true -> response = inl e ->
            Grounded.error final = Some (message e))
      /\ (forall text,
            client = true -> response = inr text ->
            outcome (safeParseJson text) = inl MalformedResponse ->
            Grounded.error final
            = Some (if no_braces text then FirstVariant.no_json_message
                    else invalid_format_message)).
Proof.
  intros client response st. rewrite outcome_grounded.
  eexists. split; [reflexivity|].
  unfold grounded_settled.
  cbn [Grounded.loading Grounded.speech Grounded.analysis Grounded.error].
  split; [reflexivity|]. split; [reflexivity|].
  destruct client.
  - destruct response as [e|text].
    + split; [intros v; split; [discriminate|intros (_ & t & Ht & _); discriminate]|].
      split; [split; [discriminate|reflexivity]|].
      split; [discriminate|].
      split; [intros e' _ He; injection He as <-; reflexivity|].
      intros t _ Ht; discriminate.
    + rewrite outcome_extractJson.
      assert (Hsafe := outcome_safeParseJson text).
      destruct (no_braces text) eqn:Hno;
        [|destruct (JSON_parse (between_braces text)) as [w|] eqn:Hp].
      * split.
        { intros v. split; [discriminate|].
          intros (_ & t & Ht & Hv). injection Ht as <-. congruence. }
        split; [split; [discriminate|reflexivity]|].
        split; [discriminate|]. split; [discriminate|].
        intros t _ Ht _. injection Ht as <-. rewrite Hno. reflexivity.
      * split.
        { intros v. split.
          - intros Hv. injection Hv as <-. split; [reflexivity|].
            exists text. split; [reflexivity|exact Hsafe].
          - intros (_ & t & Ht & Hv). injection Ht as <-. congruence. }
        split; [split; [discriminate|intros H; exfalso; apply H; reflexivity]|].
        split; [discriminate|]. split; [discriminate|].
        intros t _ Ht Hparse. injection Ht as <-. congruence.
      * split.
        { intros v. split; [discriminate|].
          intros (_ & t & Ht & Hv). injection Ht as <-. congruence. }
        split; [split; [discriminate|reflexivity]|].
        split; [discriminate|]. split; [discriminate|].
        intros t _ Ht _. injection Ht as <-. rewrite Hno. reflexivity.
  - split; [intros v; split; [discriminate|intros (Hc & _); discriminate]|].
    split; [split; [discriminate|reflexivity]|].
    split; [reflexivity|]. split; [discriminate|]. discriminate.
Qed.

End GroundedProperties.

(** ** Voices and the read-aloud button *)

Section BestVoice.

Import Speech Narration.

Lemma firstPremium_us (names : list string) (vcs : list Voice) (v : Voice) :
  firstPremium names vcs = Some v -> In v vcs /\ lang v = "en-US".
Proof.
  induction names as [|n names IH]; simpl; [discriminate|].
  unfold JS.find.
  destruct (List.find _ vcs) as [w|] eqn:Hfind; [|exact IH].
  intros Heq. injection Heq as <-.
  apply find_some in Hfind. destruct Hfind as [Hin Htest].
  apply andb_true_iff in Htest. destruct Htest as [_ Hlang].
  apply String.eqb_eq in Hlang. auto.
Qed.

Lemma us_is_english (v : Voice) : lang v = "en-US" -> english v = true.
Proof. unfold english. intros ->. reflexivity. Qed.

(** X18.  [getBestVoice] answers with a voice of the list that speaks
    English whenever the list has one, and with nothing only when it has
    none; and it answers with an en-US voice whenever the list has one,
    whatever other English voices come first. *)
Theorem best_voice_is_english_and_american_first :
  forall vcs : list Voice,
    (getBestVoice vcs = None
     <-> forall v, In v vcs -> english v = false)
    /\ (forall v,
          getBestVoice vcs = Some v ->
          In v vcs
          /\ english v = true
          /\ ((exists u, In u vcs /\ lang u = "en-US") -> lang v = "en-US")).
Proof.
  intros vcs. unfold getBestVoice, JS.find.
  destruct vcs as [|v0 vcs0]; [split; [split; [intros _ v []|reflexivity]|discriminate]|].
  set (vcs := v0 :: vcs0).
  destruct (firstPremium premiumNames vcs) as [p|] eqn:Hp.
  { destruct (firstPremium_us _ _ _ Hp) as [Hin Hus].
    split.
    - split; [discriminate|]. intros Hnone.
      pose proof (us_is_english p Hus) as Hen.
      rewrite (Hnone p Hin) in Hen. discriminate.
    - intros v Hv. injection Hv as <-.
      split; [exact Hin|]. split; [apply us_is_english; exact Hus|].
      intros _. exact Hus. }
  destruct (List.find (fun v => String.eqb (lang v) "en-US" && localService v) vcs)
    as [p|] eqn:Hlocal.
  { apply find_some in Hlocal. destruct Hlocal as [Hin Htest].
    apply andb_true_iff in Htest. destruct Htest as [Hus _].
    apply String.eqb_eq in Hus.
    split.
    - split; [discriminate|]. intros Hnone.
      pose proof (us_is_english p Hus) as Hen.
      rewrite (Hnone p Hin) in Hen. discriminate.
    - intros v Hv. injection Hv as <-.
      split; [exact Hin|]. split; [apply us_is_english; exact Hus|].
      intros _. exact Hus. }
  destruct (List.find (fun v => String.eqb (lang v) "en-US") vcs)
    as [p|] eqn:Hany.
  { apply find_some in Hany. destruct Hany as [Hin Hus].
    apply String.eqb_eq in Hus.
    split.
    - split; [discriminate|]. intros Hnone.
      pose proof (us_is_english p Hus) as Hen.
      rewrite (Hnone p Hin) in Hen. discriminate.
    - intros v Hv. injection Hv as <-.
      split; [exact Hin|]. split; [apply us_is_english; exact Hus|].
      intros _. exact Hus. }
  split.
  - split.
    + intros Hnone v Hin. exact (find_none _ _ Hnone v Hin).
    + intros Hnone.
      destruct (List.find (fun v => JS.startsWith "en" (lang v)) vcs)
        as [p|] eqn:Hen; [|reflexivity].
      apply find_some in Hen. destruct Hen as [Hin Htest].
      unfold english in Hnone. rewrite (Hnone p Hin) in Htest. discriminate.
  - intros v Hv. apply find_some in Hv. destruct Hv as [Hin Htest].
    split; [exact Hin|]. split; [exact Htest|].
    intros (u & Hu & Hus). exfalso.
    pose proof (find_none _ _ Hany u Hu) as Hnot. cbv beta in Hnot.
    rewrite Hus in Hnot. discriminate.
Qed.

(** X19.  The read-aloud button pauses and resumes without touching the
    narration: a click while playing pauses the device and a second click
    resumes it, after which the session, queue, index, highlight, voices
    and timers are what they were (and likewise from paused to playing and
    back); the analysis on the page plays no part.  A click while stopped
    with no analysis changes nothing, and without a speech device a click
    only sets the error and leaves the session alone. *)
Theorem pause_and_resume_come_back_to_the_same_state :
  forall (a1 a2 : option AnalysisResult) (st : State),
    (forall d,
        speechSynthesis (session st) = Some d ->
        globalSpeechState (session st) = playing ->
        devicePaused d = false ->
        globalSpeechState (session (handleGlobalSpeech a1 st)) = paused
        /\ speechSynthesis (session (handleGlobalSpeech a1 st))
           = Some (pause d)
        /\ handleGlobalSpeech a2 (handleGlobalSpeech a1 st) = st)
    /\ (forall d,
          speechSynthesis (session st) = Some d ->
          globalSpeechState (session st) = paused ->
          devicePaused d = true ->
          globalSpeechState (session (handleGlobalSpeech a1 st)) = playing
          /\ speechSynthesis (session (handleGlobalSpeech a1 st))
             = Some (resume d)
          /\ handleGlobalSpeech a2 (handleGlobalSpeech a1 st) = st)
    /\ (forall d,
          speechSynthesis (session st) = Some d ->
          globalSpeechState (session st) = stopped ->
          handleGlobalSpeech None st = st)
    /\ (speechSynthesis (session st) = None ->
        session (handleGlobalSpeech a1 st) = session st
        /\ timers (handleGlobalSpeech a1 st) = timers st
        /\ error (handleGlobalSpeech a1 st)
           = Some "Sorry, your browser does not support text-to-speech.").
Proof.
  intros a1 a2 [[g card q dev] vs uri err ts]. cbn [session speechSynthesis
    globalSpeechState]. split; [|split; [|split]].
  - intros [sp pe pa] -> -> Hpa. cbn in Hpa. subst pa.
    unfold handleGlobalSpeech. cbn. repeat split.
  - intros [sp pe pa] -> -> Hpa. cbn in Hpa. subst pa.
    unfold handleGlobalSpeech. cbn. repeat split.
  - intros d -> ->. reflexivity.
  - intros ->. unfold handleGlobalSpeech. cbn. repeat split.
Qed.

End BestVoice.

(** ** Headlines published at the same time *)

Section Stability.

Context `{P : Platform} {A : Type}.
Variable comparefn : A -> A -> option Z.
Variable key : A -> Z.

Lemma insert_stable (t : Z) (x : A) (l : list A) :
  (forall y, In y l -> JSArray.compare_value comparefn x y = key y - key x) ->
  filter (fun a => key a =? t) (JSArray.insert comparefn x l)
  = filter (fun a => key a =? t) (x :: l).
Proof.
  induction l as [|y l IH]; intros Hcmp; [reflexivity|].
  cbn [JSArray.insert].
  destruct (JSArray.compare_value comparefn x y <=? 0) eqn:Hle; [reflexivity|].
  apply Z.leb_gt in Hle. rewrite (Hcmp y) in Hle by (left; reflexivity).
  cbn [filter]. rewrite IH by (intros z Hz; apply Hcmp; right; exact Hz).
  cbn [filter].
  destruct (key y =? t) eqn:Hy; destruct (key x =? t) eqn:Hx; try reflexivity.
  apply Z.eqb_eq in Hy, Hx. lia.
Qed.

Lemma stable_keeps_ties (t : Z) (l : list A) :
  (forall a b, In a l -> In b l ->
               JSArray.compare_value comparefn a b = key b - key a) ->
  filter (fun a => key a =? t) (JSArray.stable comparefn l)
  = filter (fun a => key a =? t) l.
Proof.
  induction l as [|x l IH]; intros Hcmp; [reflexivity|].
  cbn [JSArray.stable]. rewrite insert_stable.
  - cbn [filter].
    rewrite IH by (intros a b Ha Hb; apply Hcmp; right; assumption).
    reflexivity.
  - intros y Hy. apply Hcmp; [left; reflexivity|].
    right. apply (Permutation_in _ (stable_perm comparefn l)). exact Hy.
Qed.

Lemma sort_stable (t : Z) (l : list A) :
  (forall a b, In a l -> In b l ->
               JSArray.compare_value comparefn a b = key b - key a) ->
  filter (fun a => key a =? t) (JSArray.sort comparefn l)
  = filter (fun a => key a =? t) l.
Proof.
  intros Hcmp. rewrite (sort_keyed comparefn key l Hcmp).
  apply stable_keeps_ties. exact Hcmp.
Qed.

End Stability.

Section Ties.

Import Headlines.

Context `{P : Platform}.

(** X20.  Sorting by recency never reorders headlines published at the
    same time: among the headlines of a list whose dates can be read,
    those that share a publication time come out of [sortHeadlines] in
    the order the response had them, and none is lost or repeated. *)
Theorem same_time_headlines_keep_response_order :
  forall (hs : list Headline),
    (forall h, In h hs -> dated h) ->
    forall t, published_at t (sortHeadlines hs) = published_at t hs.
Proof.
  intros hs Hd t. unfold published_at, sortHeadlines.
  apply (sort_stable byRecency recency).
  intros a b Ha Hb. apply byRecency_dated; auto.
Qed.

End Ties.

Lemma same_time_headlines_keep_response_order_witness :
  @published_at reference_platform 1754352000000
    (@Headlines.sortHeadlines reference_platform
       [Ties.early; Ties.first; Ties.second])
  = [Ties.first; Ties.second].
Proof.
  refine (@same_time_headlines_keep_response_order reference_platform
            [Ties.early; Ties.first; Ties.second] _ 1754352000000).
  intros h [<-|[<-|[<-|[]]]]; discriminate.
Defined.

(** ** The errors a run can show *)

Section Explained.

Import Json Pipeline.

Context `{P : Platform} `{E : Environment}.

Lemma explained_ret {A} (a : A) : explained (ret a).
Proof. intros e He. discriminate. Qed.

Lemma explained_emit (ev : event) : explained (emit ev).
Proof. intros e He. discriminate. Qed.

Lemma explained_throw {A} (e : exn) : own_failure e -> explained (@throw A e).
Proof.
  intros Hown e' He. change (outcome (@throw A e)) with (@inl exn A e) in He.
  injection He as <-. left. exact Hown.
Qed.

Lemma explained_bind {A B} (m : M A) (k : A -> M B) :
  (forall a, regular (k a)) ->
  explained m -> (forall a, explained (k a)) -> explained (bind m k).
Proof.
  intros Hreg Hm Hk e He.
  rewrite outcome_bind in He by exact Hreg.
  rewrite reqs_bind by exact Hreg.
  destruct (outcome m) as [e'|a] eqn:Hout.
  - injection He as <-. apply Hm. exact Hout.
  - destruct (Hk a e He) as [Hown|(p & Hin & Hp)]; [left; exact Hown|].
    right. exists p. split; [apply in_or_app; right; exact Hin|exact Hp].
Qed.

Lemma explained_getp (v : jsval) (k : string) : explained (getp v k).
Proof.
  intros e He. left. right. right. right.
  destruct v; try discriminate; injection He as <-; eexists; reflexivity.
Qed.

Lemma explained_safeParseJson (s : string) : explained (safeParseJson s).
Proof.
  intros e He. left. right. left.
  rewrite outcome_safeParseJson in He.
  destruct (no_braces s); [congruence|].
  destruct (JSON_parse _); congruence.
Qed.

Lemma explained_normalizeArticle (now : string) (a : jsval) :
  explained (normalizeArticle now a).
Proof. intros e He. rewrite outcome_normalizeArticle in He. discriminate. Qed.

Lemma explained_slice2 (v : jsval) : explained (slice2 v).
Proof.
  intros e He. left. right. right. right.
  destruct v; try discriminate; injection He as <-; eexists; reflexivity.
Qed.

Lemma explained_request (p : Prompt) : explained (request p).
Proof.
  intros e He. right. exists p. rewrite reqs_request.
  split; [left; reflexivity|]. rewrite outcome_request in He. exact He.
Qed.

Ltac explained_step :=
  first
    [ apply explained_ret
    | apply explained_emit
    | apply explained_getp
    | apply explained_safeParseJson
    | apply explained_normalizeArticle
    | apply explained_slice2
    | apply explained_request
    | progress cbv zeta
    | apply explained_bind; [intros; regular| |intros ?]
    | match goal with
      | |- explained (if ?b then _ else _) => destruct b
      end ].

Lemma explained_classifySides (v : jsval) : explained (classifySides v).
Proof. unfold classifySides. repeat explained_step. Qed.

Lemma explained_assignSides (v : jsval) : explained (assignSides v).
Proof.
  unfold assignSides.
  repeat first [apply explained_classifySides | explained_step].
Qed.

Lemma explained_requireTitles (r l : jsval) : explained (requireTitles r l).
Proof.
  unfold requireTitles. repeat explained_step.
  apply explained_throw. right. right. left. reflexivity.
Qed.

Lemma explained_analyzeArticles (topic : string) (r l : jsval) :
  explained (analyzeArticles topic r l).
Proof. unfold analyzeArticles. repeat explained_step. Qed.

Lemma explained_findAndAnalyze (topic : string) :
  explained (findAndAnalyze topic).
Proof.
  unfold findAndAnalyze.
  repeat first [ apply explained_assignSides
               | apply explained_requireTitles
               | apply explained_analyzeArticles
               | explained_step ].
  apply explained_throw. left. reflexivity.
Qed.

(** X21.  Every error [getAnalysis] leaves on the page is accounted for.
    When a run ends with an error nothing is stored, and the message is
    that of a missing client, of a malformed response, of articles not
    found, of a [TypeError] of the engine, or it comes from the rejection
    of one of the requests the run has sent: the message of the rejection
    when it is an [Error], and [An unknown error occurred.] when it is
    not. *)
Theorem every_error_shown_is_accounted_for :
  forall (topic : string) (st final : State) (m : string),
    outcome (getAnalysis topic st) = inr final ->
    error final = Some m ->
    analysis final = None
    /\ (m = "AI client not initialized."
        \/ m = invalid_format_message
        \/ m = articles_not_found_message
        \/ (exists what, m = message (TypeError what))
        \/ exists p e,
             In p (requestsOf (trace (getAnalysis topic st)))
             /\ generateContent p = inl e
             /\ m = match e with
                    | Error text => text
                    | TypeError what => message (TypeError what)
                    | Rejected _ => "An unknown error occurred."
                    end).
Proof.
  intros topic st final m Hrun Herr.
  fold (reqs (getAnalysis topic st)). rewrite reqs_getAnalysis.
  rewrite outcome_getAnalysis in Hrun. injection Hrun as <-.
  unfold settled in Herr |- *. cbn [analysis error] in Herr |- *.
  destruct (outcome (findAndAnalyze topic)) as [e|v] eqn:Hout; [|discriminate].
  injection Herr as <-. split; [reflexivity|].
  destruct (explained_findAndAnalyze topic e Hout)
    as [[->|[->|[->|[what ->]]]]|(p & Hin & Hp)].
  - left. reflexivity.
  - right. left. reflexivity.
  - right. right. left. reflexivity.
  - right. right. right. left. exists what. reflexivity.
  - right. right. right. right. exists p, e.
    split; [exact Hin|]. split; [exact Hp|]. destruct e; reflexivity.
Qed.

End Explained.

(** A search rejected with a value that is not an [Error]. *)
Lemma every_error_shown_is_accounted_for_witness :
  Pipeline.analysis
    (settled Scenario.initial (inl (Rejected "quota exceeded"))) = None
  /\ ("An unknown error occurred." = "AI client not initialized."
      \/ "An unknown error occurred." = invalid_format_message
      \/ "An unknown error occurred." = Pipeline.articles_not_found_message
      \/ (exists what, "An unknown error occurred." = message (TypeError what))
      \/ exists p e,
           In p (requestsOf
                   (trace (@Pipeline.getAnalysis reference_platform
                             Refusing.env "Budget vote" Scenario.initial)))
           /\ @generateContent Refusing.env p = inl e
           /\ "An unknown error occurred."
              = match e with
                | Error text => text
                | TypeError what => message (TypeError what)
                | Rejected _ => "An unknown error occurred."
                end).
Proof.
  exact (@every_error_shown_is_accounted_for reference_platform
           Refusing.env "Budget vote" Scenario.initial
           (settled Scenario.initial (inl (Rejected "quota exceeded")))
           "An unknown error occurred."
           ltac:(vm_compute; reflexivity) eq_refl).
Defined.
